(** * Shape-level and value-level semantics of the model zoo builders

    The repository contains two Keras scripts, [zoo/senet/se_resnet50.py]
    (SE-ResNet50) and [zoo/shufflenet/shufflenet.py] (ShuffleNet v1).  Each
    script defines a handful of builder functions that apply Keras layers to
    a symbolic tensor, and then assembles a network at module level.

    Definitions come first.
    - [Py]: the Python number operations the scripts use.
    - [Keras]: the symbolic tensors of Keras (a static shape whose batch
      dimension may be unknown), the layers the scripts instantiate with the
      shape rules of the library, and the builder monad.  A builder returns a
      tensor or raises, and leaves a trace: the layers it has added to the
      graph and the builder functions it has entered.  The trace is ghost
      state; the scripts do not compute with it.
    - [SENet] and [ShuffleNet]: the builder functions, one definition per
      Python function, and the module-level assembly.
    - [Eager]: concrete tensors (a shape and row-major data) for the
      functions whose claims are about values, [channel_shuffle] and
      [pw_group_conv].
    - [Head]: the last layer of both networks on real numbers.
    - The vocabulary of the statements.

    Lemmas follow, then the claims of the specification (C1 to C10), and
    last the edge cases, the errors and the composition of the builders
    (X1 to X19).

    Library behaviour that has changed between releases of Keras is kept
    out of the statements X1 to X19: they speak of two groups or more, where
    [Concatenate] gets at least two inputs, and of filter and unit counts
    that are positive or negative, never zero. *)

From Stdlib Require Import Reals Lra.
From Stdlib Require Import ZArith List Bool Lia QArith Arith PeanoNat.
Import ListNotations.

Open Scope Z_scope.

(* ===================================================================== *)
(** * Python numbers *)
(* ===================================================================== *)

Module Py.

(** Exceptions the scripts can run into.  They are never caught. *)
Inductive exn : Type :=
| ValueError
| TypeError
| IndexError
| KeyError
| ZeroDivisionError.

Inductive result (A : Type) : Type :=
| Ok (a : A)
| Raise (e : exn).
Arguments Ok {A} a.
Arguments Raise {A} e.

Definition is_ok {A} (r : result A) : bool :=
  match r with Ok _ => true | Raise _ => false end.

(** [a // b] on Python integers: floor division, an exception on [b = 0].
    [Z.div] rounds towards minus infinity, as Python does. *)
Definition floordiv (a b : Z) : result Z :=
  if b =? 0 then Raise ZeroDivisionError else Ok (a / b).

(** Python floats are modelled by exact rationals.  The values the scripts
    compute with ([0.25], [0.5], quotients of small integers by the group
    count) are far below the precision at which a binary64 float and the
    rational differ in their integer part. *)

(** [int(q)] on a float: truncation towards zero. *)
Definition int (q : Q) : Z := Z.quot (Qnum q) (Zpos (Qden q)).

(** [a / b] on Python integers: true division. *)
Definition truediv (a b : Z) : result Q :=
  if b =? 0 then Raise ZeroDivisionError
  else Ok (Qdiv (inject_Z a) (inject_Z b)).

(** [range(n)] *)
Definition range (n : Z) : list Z :=
  List.map Z.of_nat (List.seq 0 (Z.to_nat n)).

End Py.
Export Py.

(* ===================================================================== *)
(** * Keras: symbolic tensors, layers and the graph under construction *)
(* ===================================================================== *)

Module Keras.

(** A dimension of a static shape: [None] is a dimension that is only
    known when the graph runs (the batch). *)
Abbreviation dim := (option Z) (only parsing).

(** A symbolic tensor is its static shape, batch dimension first. *)
Abbreviation shape := (list (option Z)) (only parsing).

Definition Input (batch : dim) (s : list Z) : shape :=
  batch :: List.map Some s.

Inductive padding : Type := valid | same.

Inductive activation : Type := linear | relu | sigmoid | softmax.

(** The bodies of the [Lambda] layers of shufflenet.py. *)
Inductive lambda_body : Type :=
| slice_channels (start stop : Z)          (* x[:, :, :, start:stop] *)
| K_reshape (target : list dim)            (* K.reshape(z, target) *)
| K_permute_dimensions (pattern : list nat).

(** The layers the two scripts instantiate, with the arguments they pass. *)
Inductive layer : Type :=
| ZeroPadding2D (pad : Z * Z)
| Conv2D (filters : Z) (kernel_size strides : Z * Z) (pad : padding)
| DepthwiseConv2D (kernel_size strides : Z * Z) (pad : padding)
| BatchNormalization
| ReLU
| MaxPooling2D (pool_size strides : Z * Z) (pad : padding)
| AveragePooling2D (pool_size strides : Z * Z) (pad : padding)
| GlobalAveragePooling2D
| Reshape (target_shape : list Z)
| Dense (units : Z) (act : activation)
| Multiply
| Add
| Concatenate
| Lambda (body : lambda_body).

(** ** Shape rules of the library *)

(** [conv_output_length] of the library, for a known input length. *)
Definition conv_output_length (len k s : Z) (p : padding) : result Z :=
  if (k <=? 0) || (s <=? 0) then Raise ValueError
  else match p with
       | same => Ok ((len + s - 1) / s)
       | valid =>
           if len <? k then Raise ValueError   (* negative dimension size *)
           else Ok ((len - k + 1 + s - 1) / s)
       end.

Definition conv_output_dim (d : dim) (k s : Z) (p : padding) : result dim :=
  match d with
  | None =>
      if (k <=? 0) || (s <=? 0) then Raise ValueError else Ok None
  | Some len =>
      match conv_output_length len k s p with
      | Ok n => Ok (Some n)
      | Raise e => Raise e
      end
  end.

(** A window (convolution or pooling) sliding over height and width of a
    rank-4 tensor; [out_channels] gives the last dimension. *)
Definition window2d (x : shape) (k s : Z * Z) (p : padding)
           (out_channels : dim -> result dim) : result shape :=
  match x with
  | [b; h; w; c] =>
      match conv_output_dim h (fst k) (fst s) p with
      | Raise e => Raise e
      | Ok h' =>
          match conv_output_dim w (snd k) (snd s) p with
          | Raise e => Raise e
          | Ok w' =>
              match out_channels c with
              | Raise e => Raise e
              | Ok c' => Ok [b; h'; w'; c']
              end
          end
      end
  | _ => Raise ValueError                      (* expected ndim=4 *)
  end.

(** Convolutions need a defined channel dimension. *)
Definition conv_channels (filters : Z) (c : dim) : result dim :=
  match c with
  | None => Raise ValueError
  | Some _ => if filters <=? 0 then Raise ValueError else Ok (Some filters)
  end.

Definition depthwise_channels (c : dim) : result dim :=
  match c with
  | None => Raise ValueError
  | Some n => Ok (Some n)                      (* depth_multiplier = 1 *)
  end.

Definition known (s : shape) : option (list Z) :=
  List.fold_right
    (fun d acc => match d, acc with
                  | Some n, Some l => Some (n :: l)
                  | _, _ => None
                  end) (Some []) s.

Definition product (l : list Z) : Z := List.fold_right Z.mul 1 l.

(** [Reshape(target_shape)]: the batch dimension is kept; when the other
    dimensions are known, the number of elements must not change. *)
Definition reshape_layer (target : list Z) (x : shape) : result shape :=
  match x with
  | [] => Raise ValueError
  | b :: rest =>
      match known rest with
      | None => Ok (b :: List.map Some target)
      | Some l =>
          if product l =? product target then Ok (b :: List.map Some target)
          else Raise ValueError
      end
  end.

(** [Dense(units)] acts on the last axis, which must be defined. *)
Fixpoint dense_shape (units : Z) (x : shape) : result shape :=
  match x with
  | [] => Raise ValueError
  | [c] => match c with
           | None => Raise ValueError
           | Some _ => Ok [Some units]
           end
  | d :: rest =>
      match dense_shape units rest with
      | Ok r => Ok (d :: r)
      | Raise e => Raise e
      end
  end.

Definition dense_layer (units : Z) (x : shape) : result shape :=
  if units <=? 0 then Raise ValueError
  else if (length x <? 2)%nat then Raise ValueError
  else dense_shape units x.

(** Broadcasting of two dimensions in an element-wise merge. *)
Definition broadcast_dim (i j : dim) : result dim :=
  match i, j with
  | None, _ | _, None => Ok None
  | Some a, Some b =>
      if a =? 1 then Ok (Some b)
      else if b =? 1 then Ok (Some a)
      else if a =? b then Ok (Some a)
      else Raise ValueError      (* operands could not be broadcast *)
  end.

Fixpoint broadcast_zip (s1 s2 : shape) : result shape :=
  match s1, s2 with
  | i :: r1, j :: r2 =>
      match broadcast_dim i j with
      | Raise e => Raise e
      | Ok d => match broadcast_zip r1 r2 with
                | Raise e => Raise e
                | Ok r => Ok (d :: r)
                end
      end
  | _, _ => Ok []
  end.

(** [_compute_elemwise_op_output_shape]: the shorter shape is aligned with
    the trailing axes of the longer one. *)
Definition elemwise_output_shape (s1 s2 : shape) : result shape :=
  let (l, s) := if (length s1 <? length s2)%nat then (s2, s1) else (s1, s2) in
  let n := (length l - length s)%nat in
  match broadcast_zip (List.skipn n l) s with
  | Raise e => Raise e
  | Ok r => Ok (List.firstn n l ++ r)
  end.

Definition batch_of (s : shape) : dim :=
  match s with [] => None | b :: _ => b end.

(** The batch sizes of the inputs that are known must agree. *)
Fixpoint merge_batch (acc : dim) (l : list shape) : result dim :=
  match l with
  | [] => Ok acc
  | s :: rest =>
      match acc, batch_of s with
      | Some a, Some b =>
          if a =? b then merge_batch acc rest else Raise ValueError
      | None, b => merge_batch b rest
      | a, None => merge_batch a rest
      end
  end.

Fixpoint merge_tails (acc : shape) (l : list shape) : result shape :=
  match l with
  | [] => Ok acc
  | s :: rest =>
      match elemwise_output_shape acc (List.tl s) with
      | Raise e => Raise e
      | Ok acc' => merge_tails acc' rest
      end
  end.

(** Element-wise merge layers ([Add], [Multiply]): at least two inputs,
    none of them a scalar, compatible batch sizes. *)
Definition merge_layer (inputs : list shape) : result shape :=
  match inputs with
  | s0 :: _ :: _ =>
      if List.existsb (fun s => (length s =? 0)%nat) inputs
      then Raise ValueError
      else
        match merge_batch None inputs with
        | Raise e => Raise e
        | Ok b =>
            match merge_tails (List.tl s0) (List.tl inputs) with
            | Raise e => Raise e
            | Ok r => Ok (b :: r)
            end
        end
  | _ => Raise ValueError    (* a merge layer needs at least 2 inputs *)
  end.

Definition dim_compatible (a b : dim) : bool :=
  match a, b with
  | Some x, Some y => x =? y
  | _, _ => true
  end.

Fixpoint dims_compatible (s1 s2 : shape) : bool :=
  match s1, s2 with
  | [], [] => true
  | a :: r1, b :: r2 => dim_compatible a b && dims_compatible r1 r2
  | _, _ => false
  end.

Definition add_dim (a b : dim) : dim :=
  match a, b with
  | Some x, Some y => Some (x + y)
  | _, _ => None
  end.

(** [Concatenate()] joins along the last axis.  All the other axes must
    match.  The layer accepts a list of one tensor: the check of the
    library is "at least 1 input" (its first releases asked for two). *)
Definition concatenate_layer (inputs : list shape) : result shape :=
  match inputs with
  | [] => Raise ValueError
  | s0 :: rest =>
      if (length s0 =? 0)%nat then Raise ValueError
      else
        let front := List.removelast s0 in
        if List.forallb
             (fun s => negb (length s =? 0)%nat
                       && dims_compatible front (List.removelast s)) rest
        then Ok (front ++
                 [List.fold_left add_dim
                    (List.map (fun s => List.last s None) rest)
                    (List.last s0 None)])
        else Raise ValueError
  end.

(** Python slice bounds [start:stop] on an axis of length [len]. *)
Definition slice_index (len i : Z) : Z :=
  if i <? 0 then Z.max (i + len) 0 else Z.min i len.

Definition slice_length (len start stop : Z) : Z :=
  Z.max 0 (slice_index len stop - slice_index len start).

Definition slice_channels_shape (start stop : Z) (x : shape)
  : result shape :=
  match x with
  | b :: h :: w :: c :: rest =>
      Ok (b :: h :: w ::
          match c with
          | None => None
          | Some len => Some (slice_length len start stop)
          end :: rest)
  | _ => Raise IndexError
  end.

Definition count_unknown (target : list dim) : nat :=
  length (List.filter (fun d => match d with None => true | _ => false end)
                      target).

Definition known_part (target : list dim) : list Z :=
  List.flat_map (fun d => match d with None => [] | Some n => [n] end)
                target.

(** [K.reshape(z, target)]: [None] in [target] stands for the entry [-1] of
    the Python list, the dimension to infer.  With a fully known input the
    element counts must agree; with an unknown input dimension the
    inferred dimension stays unknown. *)
Definition k_reshape (target : list dim) (x : shape) : result shape :=
  if (1 <? count_unknown target)%nat then Raise ValueError
  else if List.existsb (fun n => n <? 0) (known_part target)
  then Raise ValueError
  else
    match known x with
    | None => Ok target
    | Some l =>
        let total := product l in
        let part := product (known_part target) in
        if (count_unknown target =? 0)%nat
        then if total =? part then Ok target else Raise ValueError
        else if part =? 0 then Raise ValueError
             else if total mod part =? 0
                  then Ok (List.map
                             (fun d => match d with
                                       | None => Some (total / part)
                                       | Some n => Some n
                                       end) target)
                  else Raise ValueError
    end.

Definition is_permutation (pattern : list nat) : bool :=
  List.forallb (fun i => List.existsb (Nat.eqb i) pattern)
               (List.seq 0 (length pattern)).

(** [K.permute_dimensions(z, pattern)] *)
Definition k_permute_dimensions (pattern : list nat) (x : shape)
  : result shape :=
  if (length pattern =? length x)%nat && is_permutation pattern
  then Ok (List.map (fun i => List.nth i x None) pattern)
  else Raise ValueError.

Definition lambda_shape (body : lambda_body) (x : shape) : result shape :=
  match body with
  | slice_channels start stop => slice_channels_shape start stop x
  | K_reshape target => k_reshape target x
  | K_permute_dimensions pattern => k_permute_dimensions pattern x
  end.

Definition one_input (inputs : list shape) (f : shape -> result shape)
  : result shape :=
  match inputs with
  | [x] => f x
  | _ => Raise ValueError
  end.

(** The static shape of the output of a layer called on [inputs]. *)
Definition compute_output_shape (l : layer) (inputs : list shape)
  : result shape :=
  match l with
  | ZeroPadding2D (ph, pw) =>
      one_input inputs (fun x =>
        match x with
        | [b; h; w; c] =>
            if (ph <? 0) || (pw <? 0) then Raise ValueError
            else Ok [b; option_map (fun n => n + 2 * ph) h;
                        option_map (fun n => n + 2 * pw) w; c]
        | _ => Raise ValueError
        end)
  | Conv2D filters k s p =>
      one_input inputs (fun x => window2d x k s p (conv_channels filters))
  | DepthwiseConv2D k s p =>
      one_input inputs (fun x => window2d x k s p depthwise_channels)
  | BatchNormalization | ReLU =>
      one_input inputs (fun x => Ok x)
  | MaxPooling2D k s p | AveragePooling2D k s p =>
      one_input inputs (fun x => window2d x k s p (fun c => Ok c))
  | GlobalAveragePooling2D =>
      one_input inputs (fun x =>
        match x with
        | [b; _; _; c] => Ok [b; c]
        | _ => Raise ValueError
        end)
  | Reshape target => one_input inputs (reshape_layer target)
  | Dense units _ => one_input inputs (dense_layer units)
  | Multiply | Add => merge_layer inputs
  | Concatenate => concatenate_layer inputs
  | Lambda body => one_input inputs (lambda_shape body)
  end.

(** ** The graph under construction *)

(** The builder functions of the two scripts.  A call is recorded with
    the arguments it received. *)
Inductive call : Type :=
| call_stem (inputs : shape)
| call_classifier (x : shape) (n_classes : Z)
| call_squeeze_excite_block (x : shape) (ratio : Z)
| call_bottleneck_block (n_filters : Z) (x : shape) (ratio : Z)
| call_projection_block (n_filters : Z) (x : shape) (strides : Z * Z)
                        (ratio : Z)
| call_shuffle_group (x : shape) (n_groups n_blocks n_filters : Z)
                     (reduction : Q)
| call_strided_shuffle_block (x : shape) (n_groups n_filters : Z)
                             (reduction : Q)
| call_shuffle_block (x : shape) (n_groups n_filters : Z) (reduction : Q)
| call_pw_group_conv (x : shape) (n_groups n_filters : Z)
| call_channel_shuffle (x : shape) (n_groups : Z).

(** What happens while a script runs: a builder function is entered, or a
    layer is added to the graph (with the shape of its output, as
    [model.summary()] lists it). *)
Inductive event : Type :=
| Enter (c : call)
| Node (l : layer) (output : shape).

(** A computation of the script: the events up to its end or up to the
    exception, and its value. *)
Record Build (A : Type) : Type := mkBuild {
  trace : list event;
  value : result A
}.
Arguments mkBuild {A} trace value.
Arguments trace {A} b.
Arguments value {A} b.

Definition ret {A} (a : A) : Build A := mkBuild [] (Ok a).

Definition raise {A} (e : exn) : Build A := mkBuild [] (Raise e).

Definition bind {A B} (m : Build A) (f : A -> Build B) : Build B :=
  match value m with
  | Ok a => let r := f a in mkBuild (trace m ++ trace r) (value r)
  | Raise e => mkBuild (trace m) (Raise e)
  end.

Definition lift {A} (r : result A) : Build A := mkBuild [] r.

Definition enter (c : call) : Build unit := mkBuild [Enter c] (Ok tt).

(** Instantiating a layer and calling it on [inputs]. *)
Definition apply (l : layer) (inputs : list shape) : Build shape :=
  match compute_output_shape l inputs with
  | Ok out => mkBuild [Node l out] (Ok out)
  | Raise e => mkBuild [] (Raise e)
  end.

(** [for _ in range(n): x = body(x)] *)
Fixpoint repeatM {A} (n : nat) (body : A -> Build A) (x : A) : Build A :=
  match n with
  | O => ret x
  | S n' => bind (body x) (repeatM n' body)
  end.

(** [for i in l: acc.append(body(i))] *)
Fixpoint mapM {A B} (body : A -> Build B) (l : list A) : Build (list B) :=
  match l with
  | [] => ret []
  | a :: rest =>
      bind (body a) (fun b =>
      bind (mapM body rest) (fun bs => ret (b :: bs)))
  end.

(** [for i in l: x = body(i, x)] *)
Fixpoint foldM {A I} (body : I -> A -> Build A) (l : list I) (x : A)
  : Build A :=
  match l with
  | [] => ret x
  | i :: rest => bind (body i x) (foldM body rest)
  end.

(** A defined dimension, as Python needs it for arithmetic. *)
Definition defined (d : dim) : Build Z :=
  match d with
  | Some n => ret n
  | None => raise TypeError
  end.

(** [x.shape[i]] *)
Definition shape_at (x : shape) (i : nat) : Build dim :=
  match List.nth_error x i with
  | Some d => ret d
  | None => raise IndexError
  end.

(** [x.shape[-1]] *)
Definition shape_last (x : shape) : Build dim :=
  match x with
  | [] => raise IndexError
  | _ => ret (List.last x None)
  end.

End Keras.
Export Keras.

Declare Scope build_scope.
Delimit Scope build_scope with build.
Notation "x <- m ;; k" := (bind m (fun x => k))
(at level 61, m at next level, right associativity) : build_scope.
Notation "m ;;; k" := (bind m (fun _ => k))
(at level 61, right associativity) : build_scope.
Open Scope build_scope.

(* ===================================================================== *)
(** * zoo/senet/se_resnet50.py *)
(* ===================================================================== *)

Module SENet.

Definition stem (inputs : shape) : Build shape :=
  enter (call_stem inputs) ;;;
  x <- apply (ZeroPadding2D (3, 3)) [inputs] ;;
  x <- apply (Conv2D 64 (7, 7) (2, 2) valid) [x] ;;
  x <- apply BatchNormalization [x] ;;
  x <- apply ReLU [x] ;;
  x <- apply (ZeroPadding2D (1, 1)) [x] ;;
  x <- apply (MaxPooling2D (3, 3) (2, 2) valid) [x] ;;
  ret x.

Definition squeeze_excite_block (x : shape) (ratio : Z) : Build shape :=
  enter (call_squeeze_excite_block x ratio) ;;;
  let shortcut := x in
  filters <- shape_last x ;;
  x <- apply GlobalAveragePooling2D [x] ;;
  filters <- defined filters ;;
  x <- apply (Reshape [1; 1; filters]) [x] ;;
  reduced <- lift (floordiv filters ratio) ;;
  x <- apply (Dense reduced relu) [x] ;;
  x <- apply (Dense filters sigmoid) [x] ;;
  x <- apply Multiply [shortcut; x] ;;
  ret x.

Definition bottleneck_block (n_filters : Z) (x : shape) (ratio : Z)
  : Build shape :=
  enter (call_bottleneck_block n_filters x ratio) ;;;
  let shortcut := x in
  x <- apply (Conv2D n_filters (1, 1) (1, 1) valid) [x] ;;
  x <- apply BatchNormalization [x] ;;
  x <- apply ReLU [x] ;;
  x <- apply (Conv2D n_filters (3, 3) (1, 1) same) [x] ;;
  x <- apply BatchNormalization [x] ;;
  x <- apply ReLU [x] ;;
  x <- apply (Conv2D (n_filters * 4) (1, 1) (1, 1) valid) [x] ;;
  x <- apply BatchNormalization [x] ;;
  x <- squeeze_excite_block x ratio ;;
  x <- apply Add [shortcut; x] ;;
  x <- apply ReLU [x] ;;
  ret x.

Definition projection_block (n_filters : Z) (x : shape) (strides : Z * Z)
           (ratio : Z) : Build shape :=
  enter (call_projection_block n_filters x strides ratio) ;;;
  shortcut <- apply (Conv2D (4 * n_filters) (1, 1) strides valid) [x] ;;
  shortcut <- apply BatchNormalization [shortcut] ;;
  x <- apply (Conv2D n_filters (1, 1) strides valid) [x] ;;
  x <- apply BatchNormalization [x] ;;
  x <- apply ReLU [x] ;;
  x <- apply (Conv2D n_filters (3, 3) (1, 1) same) [x] ;;
  x <- apply BatchNormalization [x] ;;
  x <- apply ReLU [x] ;;
  x <- apply (Conv2D (4 * n_filters) (1, 1) (1, 1) valid) [x] ;;
  x <- apply BatchNormalization [x] ;;
  x <- squeeze_excite_block x ratio ;;
  x <- apply Add [x; shortcut] ;;
  x <- apply ReLU [x] ;;
  ret x.

Definition classifier (x : shape) (n_classes : Z) : Build shape :=
  enter (call_classifier x n_classes) ;;;
  x <- apply GlobalAveragePooling2D [x] ;;
  outputs <- apply (Dense n_classes softmax) [x] ;;
  ret outputs.

(** Module level. *)
Definition ratio : Z := 16.

(** The script from [inputs = Input(shape=(224, 224, 3))] to [outputs];
    [batch] is the batch dimension of the input placeholder, [None] when
    the module is loaded. *)
Definition model (batch : dim) : Build shape :=
  let inputs := Input batch [224; 224; 3] in
  x <- stem inputs ;;
  x <- projection_block 64 x (1, 1) ratio ;;
  x <- repeatM 2 (fun x => bottleneck_block 64 x ratio) x ;;
  x <- projection_block 128 x (2, 2) ratio ;;
  x <- repeatM 3 (fun x => bottleneck_block 128 x ratio) x ;;
  x <- projection_block 256 x (2, 2) ratio ;;
  x <- repeatM 5 (fun x => bottleneck_block 256 x ratio) x ;;
  x <- projection_block 512 x (2, 2) ratio ;;
  x <- repeatM 2 (fun x => bottleneck_block 512 x ratio) x ;;
  outputs <- classifier x 1000 ;;
  ret outputs.

End SENet.

(* ===================================================================== *)
(** * zoo/shufflenet/shufflenet.py *)
(* ===================================================================== *)

Module ShuffleNet.

Definition stem (inputs : shape) : Build shape :=
  enter (call_stem inputs) ;;;
  x <- apply (Conv2D 24 (3, 3) (2, 2) same) [inputs] ;;
  x <- apply BatchNormalization [x] ;;
  x <- apply ReLU [x] ;;
  x <- apply (MaxPooling2D (3, 3) (2, 2) same) [x] ;;
  ret x.

Definition classifier (x : shape) (n_classes : Z) : Build shape :=
  enter (call_classifier x n_classes) ;;;
  x <- apply GlobalAveragePooling2D [x] ;;
  x <- apply (Dense n_classes softmax) [x] ;;
  ret x.

(** The [Lambda] that slices group [i] is called inside the loop, so its
    body reads the [i] of that turn. *)
Definition pw_group_conv (x : shape) (n_groups n_filters : Z)
  : Build shape :=
  enter (call_pw_group_conv x n_groups n_filters) ;;;
  in_filters <- shape_at x 3 ;;
  in_filters <- defined in_filters ;;
  grp_in_filters <- lift (floordiv in_filters n_groups) ;;
  q <- lift (truediv n_filters n_groups) ;;
  let grp_out_filters := int (q + (1 # 2))%Q in
  groups <- mapM (fun i =>
      group <- apply (Lambda (slice_channels (grp_in_filters * i)
                                             (grp_in_filters * (i + 1))))
                     [x] ;;
      conv <- apply (Conv2D grp_out_filters (1, 1) (1, 1) same) [group] ;;
      ret conv) (range n_groups) ;;
  x <- apply Concatenate groups ;;
  x <- apply BatchNormalization [x] ;;
  ret x.

Definition channel_shuffle (x : shape) (n_groups : Z) : Build shape :=
  enter (call_channel_shuffle x n_groups) ;;;
  match x with
  | [batch; height; width; n_filters] =>
      n_filters <- defined n_filters ;;
      grp_in_filters <- lift (floordiv n_filters n_groups) ;;
      height <- defined height ;;
      width <- defined width ;;
      x <- apply (Lambda (K_reshape [None; Some height; Some width;
                                     Some n_groups; Some grp_in_filters]))
                 [x] ;;
      x <- apply (Lambda (K_permute_dimensions [0; 1; 2; 4; 3]%nat)) [x] ;;
      x <- apply (Lambda (K_reshape [None; Some height; Some width;
                                     Some n_filters])) [x] ;;
      ret x
  | _ => raise ValueError          (* wrong number of values to unpack *)
  end.

Definition strided_shuffle_block (x : shape) (n_groups n_filters : Z)
           (reduction : Q) : Build shape :=
  enter (call_strided_shuffle_block x n_groups n_filters reduction) ;;;
  let shortcut := x in
  shortcut <- apply (AveragePooling2D (3, 3) (2, 2) same) [shortcut] ;;
  c <- shape_at x 3 ;;
  c <- defined c ;;
  let n_filters := n_filters - c in
  x <- pw_group_conv x n_groups (int (reduction * inject_Z n_filters)%Q) ;;
  x <- apply ReLU [x] ;;
  x <- channel_shuffle x n_groups ;;
  x <- apply (DepthwiseConv2D (3, 3) (2, 2) same) [x] ;;
  x <- apply BatchNormalization [x] ;;
  x <- pw_group_conv x n_groups n_filters ;;
  x <- apply Concatenate [shortcut; x] ;;
  x <- apply ReLU [x] ;;
  ret x.

Definition shuffle_block (x : shape) (n_groups n_filters : Z)
           (reduction : Q) : Build shape :=
  enter (call_shuffle_block x n_groups n_filters reduction) ;;;
  let shortcut := x in
  x <- pw_group_conv x n_groups (int (reduction * inject_Z n_filters)%Q) ;;
  x <- apply ReLU [x] ;;
  x <- channel_shuffle x n_groups ;;
  x <- apply (DepthwiseConv2D (3, 3) (1, 1) same) [x] ;;
  x <- apply BatchNormalization [x] ;;
  x <- pw_group_conv x n_groups n_filters ;;
  x <- apply Add [shortcut; x] ;;
  x <- apply ReLU [x] ;;
  ret x.

Definition shuffle_group (x : shape) (n_groups n_blocks n_filters : Z)
           (reduction : Q) : Build shape :=
  enter (call_shuffle_group x n_groups n_blocks n_filters reduction) ;;;
  x <- strided_shuffle_block x n_groups n_filters reduction ;;
  x <- repeatM (Z.to_nat (n_blocks - 1))
               (fun x => shuffle_block x n_groups n_filters reduction) x ;;
  ret x.

(** Module level. *)
Definition n_groups : Z := 2.

Definition filters : list (Z * list Z) :=
  [ (1, [24; 144; 288; 576]);
    (2, [24; 200; 400; 800]);
    (3, [24; 240; 480; 960]);
    (4, [24; 272; 544; 1088]);
    (8, [24; 384; 768; 1536]) ].

Definition reduction : Q := 1 # 4.

Definition blocks : list Z := [4; 8; 4].

(** [d[k]] on a dict *)
Fixpoint dict_get {V} (d : list (Z * V)) (k : Z) : Build V :=
  match d with
  | [] => raise KeyError
  | (k', v) :: rest => if k =? k' then ret v else dict_get rest k
  end.

(** [l[i]] on a list, for an index that is not negative *)
Definition list_get {V} (l : list V) (i : Z) : Build V :=
  match List.nth_error l (Z.to_nat i) with
  | Some v => ret v
  | None => raise IndexError
  end.

Definition model (batch : dim) : Build shape :=
  let inputs := Input batch [224; 224; 3] in
  x <- stem inputs ;;
  x <- foldM (fun i x =>
                n_blocks <- list_get blocks i ;;
                row <- dict_get filters n_groups ;;
                n_filters <- list_get row (i + 1) ;;
                shuffle_group x n_groups n_blocks n_filters reduction)
             (range 3) x ;;
  outputs <- classifier x 1000 ;;
  ret outputs.

End ShuffleNet.

(* ===================================================================== *)
(** * Eager tensors: values of the Lambda bodies and of pw_group_conv *)
(* ===================================================================== *)

Module Eager.

Definition bindR {A B} (r : result A) (f : A -> result B) : result B :=
  match r with
  | Ok a => f a
  | Raise e => Raise e
  end.

Declare Scope result_scope.
Delimit Scope result_scope with result.
Notation "x <- m ;; k" := (bindR m (fun x => k))
  (at level 61, m at next level, right associativity) : result_scope.

Fixpoint mapR {A B} (body : A -> result B) (l : list A) : result (list B) :=
  match l with
  | [] => Ok []
  | a :: rest =>
      bindR (body a) (fun b =>
      bindR (mapR body rest) (fun bs => Ok (b :: bs)))
  end.

Section Tensors.

(** The numbers in a tensor. *)
Variable A : Type.
Variable zero : A.
Variables (add mul : A -> A -> A).

(** A concrete tensor: its shape, all dimensions known, and its elements in
    row-major order (the last axis varies fastest). *)
Record tensor : Type := mkTensor {
  tshape : list nat;
  tdata : list A
}.

Definition size (s : list nat) : nat := List.fold_right Nat.mul 1%nat s.

Definition well_formed (x : tensor) : Prop :=
  length (tdata x) = size (tshape x).

(** The static shape Keras sees for a concrete tensor. *)
Definition static_shape (x : tensor) : shape :=
  List.map (fun n => Some (Z.of_nat n)) (tshape x).

(** Multi-index of a flat index, last axis first. *)
Fixpoint unravel_rev (rdims : list nat) (i : nat) : list nat :=
  match rdims with
  | [] => []
  | n :: rest => (i mod n)%nat :: unravel_rev rest (i / n)%nat
  end.

Definition unravel (dims : list nat) (i : nat) : list nat :=
  List.rev (unravel_rev (List.rev dims) i).

(** Flat index of a multi-index (Horner). *)
Fixpoint ravel_from (acc : nat) (dims idx : list nat) : nat :=
  match dims, idx with
  | n :: ds, i :: js => ravel_from (acc * n + i)%nat ds js
  | _, _ => acc
  end.

Definition ravel (dims idx : list nat) : nat := ravel_from 0 dims idx.

(** Position of axis [a] in a permutation pattern. *)
Fixpoint index_of (a : nat) (pattern : list nat) : nat :=
  match pattern with
  | [] => 0%nat
  | p :: rest => if (p =? a)%nat then 0%nat else S (index_of a rest)
  end.

(** [K.reshape(z, target)] with at most one [-1] in [target]: the elements
    stay in place. *)
Definition reshape (target : list Z) (x : tensor) : result tensor :=
  let unknown := List.filter (fun n => n =? -1) target in
  let given := List.filter (fun n => negb (n =? -1)) target in
  if (1 <? length unknown)%nat then Raise ValueError
  else if List.existsb (fun n => n <? 0) given then Raise ValueError
  else
    let total := Z.of_nat (size (tshape x)) in
    let part := product given in
    if (length unknown =? 0)%nat
    then if total =? part
         then Ok (mkTensor (List.map Z.to_nat target) (tdata x))
         else Raise ValueError
    else if part =? 0 then Raise ValueError
         else if total mod part =? 0
              then Ok (mkTensor
                         (List.map (fun n => if n =? -1
                                             then Z.to_nat (total / part)
                                             else Z.to_nat n) target)
                         (tdata x))
              else Raise ValueError.

(** [K.permute_dimensions(z, pattern)]: axis [k] of the result is axis
    [pattern[k]] of [z]. *)
Definition permute_dimensions (pattern : list nat) (x : tensor)
  : result tensor :=
  if (length pattern =? length (tshape x))%nat && is_permutation pattern
  then
    let s := tshape x in
    let s' := List.map (fun a => List.nth a s 0%nat) pattern in
    Ok (mkTensor s'
          (List.map
             (fun j =>
                let m := unravel s' j in
                let m_in := List.map (fun a => List.nth (index_of a pattern)
                                                        m 0%nat)
                                     (List.seq 0 (length s)) in
                List.nth (ravel s m_in) (tdata x) zero)
             (List.seq 0 (size s'))))
  else Raise ValueError.

(** The elements [start, start + len) of every run of [c] elements: a slice
    of the axis that has [c / inner] entries of [inner] elements each. *)
Definition runs (count c start len : nat) (data : list A) : list A :=
  List.flat_map (fun p => List.firstn len (List.skipn (p * c + start) data))
                (List.seq 0 count).

(** [x[:, :, :, start:stop]] *)
Definition slice_channels (start stop : Z) (x : tensor) : result tensor :=
  match tshape x with
  | b :: h :: w :: c :: rest =>
      let lo := Z.to_nat (slice_index (Z.of_nat c) start) in
      let len := Z.to_nat (slice_length (Z.of_nat c) start stop) in
      let inner := size rest in
      Ok (mkTensor (b :: h :: w :: len :: rest)
            (runs (b * h * w) (c * inner) (lo * inner) (len * inner)
                  (tdata x)))
  | _ => Raise IndexError
  end.

(** A kernel of a 1x1 convolution: one row of [filters] weights per input
    channel. *)
Definition kernel : Type := list (list A).

Definition dot (u v : list A) : A :=
  List.fold_right add zero (List.map (fun p => mul (fst p) (snd p))
                                     (List.combine u v)).

Definition column (k : kernel) (o : nat) : list A :=
  List.map (fun row => List.nth o row zero) k.

(** [Conv2D(filters, (1, 1), padding='same', strides=1, use_bias=False)]
    with the weights [k]. *)
Definition conv2d_pointwise (filters : Z) (k : kernel) (x : tensor)
  : result tensor :=
  match tshape x with
  | [b; h; w; c] =>
      if filters <=? 0 then Raise ValueError
      else
        let f := Z.to_nat filters in
        if (length k =? c)%nat
           && List.forallb (fun row => (length row =? f)%nat) k
        then Ok (mkTensor [b; h; w; f]
                   (List.flat_map
                      (fun p =>
                         let v := List.firstn c (List.skipn (p * c)
                                                            (tdata x)) in
                         List.map (fun o => dot v (column k o))
                                  (List.seq 0 f))
                      (List.seq 0 (b * h * w))))
        else Raise ValueError
  | _ => Raise ValueError
  end.

Definition list_eqb (l1 l2 : list nat) : bool :=
  (length l1 =? length l2)%nat
  && List.forallb (fun p => (fst p =? snd p)%nat) (List.combine l1 l2).

(** [Concatenate()(inputs)]: along the last axis. *)
Definition concatenate (inputs : list tensor) : result tensor :=
  match inputs with
  | [] => Raise ValueError
  | x0 :: rest =>
      match tshape x0 with
      | [] => Raise ValueError
      | _ :: _ =>
          let front := List.removelast (tshape x0) in
          if List.forallb
               (fun x => negb (length (tshape x) =? 0)%nat
                         && list_eqb front (List.removelast (tshape x))) rest
          then
            Ok (mkTensor
                  (front ++ [List.fold_right Nat.add 0%nat
                               (List.map (fun x => List.last (tshape x) 0%nat)
                                         inputs)])
                  (List.flat_map
                     (fun p =>
                        List.flat_map
                          (fun x =>
                             let c := List.last (tshape x) 0%nat in
                             List.firstn c (List.skipn (p * c) (tdata x)))
                          inputs)
                     (List.seq 0 (size front))))
          else Raise ValueError
      end
  end.

(** [channel_shuffle] of shufflenet.py on a concrete tensor. *)
Definition channel_shuffle (x : tensor) (n_groups : Z) : result tensor :=
  match tshape x with
  | [batch; height; width; n_filters] =>
      (grp_in_filters <- floordiv (Z.of_nat n_filters) n_groups ;;
       x <- reshape [-1; Z.of_nat height; Z.of_nat width; n_groups;
                     grp_in_filters] x ;;
       x <- permute_dimensions [0; 1; 2; 4; 3]%nat x ;;
       x <- reshape [-1; Z.of_nat height; Z.of_nat width;
                     Z.of_nat n_filters] x ;;
       Ok x)%result
  | _ => Raise ValueError
  end.

(** The [BatchNormalization] layer at the end of [pw_group_conv], with
    whatever statistics and parameters it holds. *)
Variable batch_normalization : tensor -> result tensor.

(** [pw_group_conv] of shufflenet.py on a concrete tensor; [kernels] are the
    weights of the convolutions the loop creates, in the order of the
    loop. *)
Definition pw_group_conv (kernels : list kernel) (x : tensor)
           (n_groups n_filters : Z) : result tensor :=
  match List.nth_error (tshape x) 3 with
  | None => Raise IndexError
  | Some in_filters =>
      (grp_in_filters <- floordiv (Z.of_nat in_filters) n_groups ;;
       q <- truediv n_filters n_groups ;;
       let grp_out_filters := int (q + (1 # 2))%Q in
       groups <- mapR (fun i =>
           group <- slice_channels (grp_in_filters * i)
                                   (grp_in_filters * (i + 1)) x ;;
           conv <- conv2d_pointwise grp_out_filters
                     (List.nth (Z.to_nat i) kernels []) group ;;
           Ok conv) (range n_groups) ;;
       x <- concatenate groups ;;
       x <- batch_normalization x ;;
       Ok x)%result
  end.

(** An ordinary pointwise convolution followed by batch normalization. *)
Definition pw_conv (k : kernel) (x : tensor) (n_filters : Z)
  : result tensor :=
  (x <- conv2d_pointwise n_filters k x ;;
   x <- batch_normalization x ;;
   Ok x)%result.

End Tensors.

Arguments mkTensor {A} tshape tdata.
Arguments tshape {A} t.
Arguments tdata {A} t.
Arguments well_formed {A} x.
Arguments static_shape {A} x.
Arguments reshape {A} target x.
Arguments permute_dimensions {A} zero pattern x.
Arguments runs {A} count c start len data.
Arguments slice_channels {A} start stop x.
Arguments dot {A} zero add mul u v.
Arguments column {A} zero k o.
Arguments conv2d_pointwise {A} zero add mul filters k x.
Arguments concatenate {A} inputs.
Arguments channel_shuffle {A} zero x n_groups.
Arguments pw_group_conv {A} zero add mul batch_normalization kernels x
  n_groups n_filters.
Arguments pw_conv {A} zero add mul batch_normalization k x n_filters.

End Eager.

(* ===================================================================== *)
(** * The classifier head on real numbers *)
(* ===================================================================== *)

Module Head.

Open Scope R_scope.

Definition Rsum (l : list R) : R := List.fold_right Rplus 0 l.

(** [softmax] over the last axis: one row of logits. *)
Definition softmax_row (z : list R) : list R :=
  let s := Rsum (List.map exp z) in
  List.map (fun v => exp v / s) z.

Definition activate (act : activation) (z : list R) : list R :=
  match act with
  | linear => z
  | relu => List.map (Rmax 0) z
  | sigmoid => List.map (fun v => 1 / (1 + exp (- v))) z
  | softmax => softmax_row z
  end.

(** One row of [Dense(units, activation)]: [activation(row . kernel + bias)].
    The kernel has one row of [units] weights per input feature. *)
Definition dense_row (units : nat) (act : activation)
           (kernel : list (list R)) (bias : list R) (row : list R)
  : list R :=
  activate act
    (List.map (fun o => Eager.dot 0 Rplus Rmult row (Eager.column 0 kernel o)
                        + List.nth o bias 0)
              (List.seq 0 units)).

End Head.

(* ===================================================================== *)
(** * Vocabulary of the statements *)
(* ===================================================================== *)

(** [prefix t m]: the events [t] have happened, then [m] runs. *)
Definition prefix {A} (t : list event) (m : Build A) : Build A :=
mkBuild (t ++ trace m) (value m).

(** A spatial dimension that is unknown or at least 1. *)
Definition pos_dim (h : dim) : Prop :=
match h with
| Some n => 1 <= n
| None => True
end.

(** Length of an axis after a stride [s] window with no loss at the border:
  the ceiling of [n / s]. *)
Definition strided_dim (s : Z) (h : dim) : dim :=
option_map (fun n => (n + s - 1) / s) h.

(** [int(n_filters / n_groups + 0.5)], the output filters of one group. *)
Definition grp_out_filters (n_filters n_groups : Z) : Z :=
  int (Qdiv (inject_Z n_filters) (inject_Z n_groups) + (1 # 2))%Q.

(** Filters of the entry convolution of a block that restores [n]. *)
Definition entry_filters (reduction : Q) (n : Z) : Z :=
  int (reduction * inject_Z n)%Q.

(** The elements of the shuffled tensor, by flat index. *)
Definition shuffled (A : Type) (zero : A) (b h w G gi : nat)
           (data : list A) : list A :=
  List.map
    (fun j =>
       List.nth
         (Eager.ravel [b; h; w; G; gi]
            (List.map (fun a => List.nth (Eager.index_of a [0; 1; 2; 4; 3]%nat)
                                  (Eager.unravel [b; h; w; gi; G] j) 0%nat)
                      (List.seq 0 5)))
         data zero)
    (List.seq 0 (Eager.size [b; h; w; gi; G])).

(** The permutation of channel indices the paper describes: channel
    [g * (n / G) + j] of the input becomes channel [j * G + g]. *)
Definition shuffle_index (n_filters n_groups c : nat) : nat :=
  let per_group := (n_filters / n_groups)%nat in
  ((c mod per_group) * n_groups + c / per_group)%nat.

(** Its inverse: channel [j * G + g] goes back to [g * (n / G) + j]. *)
Definition unshuffle_index (n_filters n_groups c : nat) : nat :=
  let per_group := (n_filters / n_groups)%nat in
  ((c mod n_groups) * per_group + c / n_groups)%nat.

(** ** What a trace shows *)

(** The calls of builder functions, in order. *)
Definition calls (t : list event) : list call :=
  List.flat_map (fun e => match e with
                          | Enter c => [c]
                          | Node _ _ => []
                          end) t.

(** The layers added to the graph, in order. *)
Definition layers (t : list event) : list (layer * shape) :=
  List.flat_map (fun e => match e with
                          | Enter _ => []
                          | Node l out => [(l, out)]
                          end) t.

(** The two kinds of block of a stage. *)
Inductive block_kind : Type :=
| shape_changing      (* projection_block, strided_shuffle_block *)
| identity_block.     (* bottleneck_block, shuffle_block *)

Definition block_of (c : call) : list block_kind :=
  match c with
  | call_projection_block _ _ _ _ => [shape_changing]
  | call_strided_shuffle_block _ _ _ _ => [shape_changing]
  | call_bottleneck_block _ _ _ => [identity_block]
  | call_shuffle_block _ _ _ _ => [identity_block]
  | _ => []
  end.

(** The blocks a script has built, in order. *)
Definition blocks_of (t : list event) : list block_kind :=
  List.flat_map block_of (calls t).

(** The blocks of a stage of [n_blocks] blocks, as the specification
    describes it. *)
Definition stage_blocks (n_blocks : Z) : list block_kind :=
  shape_changing :: List.repeat identity_block (Z.to_nat (n_blocks - 1)).

(** Channels of a symbolic tensor. *)
Definition channels (x : shape) : dim := List.last x None.

(** Call sites of [squeeze_excite_block]: channels of the input, ratio. *)
Definition squeeze_excite_calls (t : list event) : list (dim * Z) :=
  List.flat_map (fun c => match c with
                          | call_squeeze_excite_block x ratio =>
                              [(channels x, ratio)]
                          | _ => []
                          end) (calls t).

(** Call sites of [pw_group_conv]: input, group count, requested filters. *)
Definition pw_group_conv_calls (t : list event) : list (shape * Z * Z) :=
  List.flat_map (fun c => match c with
                          | call_pw_group_conv x n_groups n_filters =>
                              [(x, n_groups, n_filters)]
                          | _ => []
                          end) (calls t).

(** Call sites of [channel_shuffle]: channels of the input, group count. *)
Definition channel_shuffle_calls (t : list event) : list (dim * Z) :=
  List.flat_map (fun c => match c with
                          | call_channel_shuffle x n_groups =>
                              [(channels x, n_groups)]
                          | _ => []
                          end) (calls t).

(** A builder that enters no block. *)
Definition quiet {A} (m : Build A) : Prop := blocks_of (trace m) = [].

(** The code of se_resnet50.py between two stage comments: a projection
    block, then [n_blocks - 1] bottleneck blocks. *)
Definition senet_stage (n_filters : Z) (strides : Z * Z) (n_blocks : Z)
           (ratio : Z) (x : shape) : Build shape :=
  x <- SENet.projection_block n_filters x strides ratio ;;
  repeatM (Z.to_nat (n_blocks - 1))
          (fun x => SENet.bottleneck_block n_filters x ratio) x.

(** se_resnet50.py at module level, stage by stage. *)
Definition senet_by_stages (batch : dim) : Build shape :=
  x <- SENet.stem (Input batch [224; 224; 3]) ;;
  x <- senet_stage 64 (1, 1) 3 SENet.ratio x ;;
  x <- senet_stage 128 (2, 2) 4 SENet.ratio x ;;
  x <- senet_stage 256 (2, 2) 6 SENet.ratio x ;;
  x <- senet_stage 512 (2, 2) 3 SENet.ratio x ;;
  SENet.classifier x 1000.

(** shufflenet.py at module level for another value of the global
    [n_groups], the key of the table [filters]. *)
Definition shufflenet_with_groups (n_groups : Z) (batch : dim)
  : Build shape :=
  let inputs := Input batch [224; 224; 3] in
  x <- ShuffleNet.stem inputs ;;
  x <- foldM (fun i x =>
                n_blocks <- ShuffleNet.list_get ShuffleNet.blocks i ;;
                row <- ShuffleNet.dict_get ShuffleNet.filters n_groups ;;
                n_filters <- ShuffleNet.list_get row (i + 1) ;;
                ShuffleNet.shuffle_group x n_groups n_blocks n_filters
                                         ShuffleNet.reduction)
             (range 3) x ;;
  outputs <- ShuffleNet.classifier x 1000 ;;
  ret outputs.

(** The channel ranges the slicing [Lambda]s of a trace read. *)
Definition slices_of (t : list event) : list (Z * Z) :=
  List.flat_map (fun e => match e with
                          | Node (Lambda (slice_channels start stop)) _ =>
                              [(start, stop)]
                          | _ => []
                          end) t.

(* ===================================================================== *)
(** * Reasoning about builders *)
(* ===================================================================== *)

Section BuildLemmas.

Context {A B : Type}.

Lemma bind_ok (m : Build A) (f : A -> Build B) (a : A) :
  value m = Ok a ->
  bind m f = mkBuild (trace m ++ trace (f a)) (value (f a)).
Proof. intros H. unfold bind. rewrite H. reflexivity. Qed.

Lemma bind_raise (m : Build A) (f : A -> Build B) (e : exn) :
  value m = Raise e -> bind m f = mkBuild (trace m) (Raise e).
Proof. intros H. unfold bind. rewrite H. reflexivity. Qed.

Lemma value_bind_ok (m : Build A) (f : A -> Build B) (a : A) :
  value m = Ok a -> value (bind m f) = value (f a).
Proof. intros H. rewrite (bind_ok _ _ _ H). reflexivity. Qed.

Lemma trace_bind_ok (m : Build A) (f : A -> Build B) (a : A) :
  value m = Ok a -> trace (bind m f) = trace m ++ trace (f a).
Proof. intros H. rewrite (bind_ok _ _ _ H). reflexivity. Qed.

(** A builder that returns has run both halves of a [bind]. *)
Lemma bind_inv (m : Build A) (f : A -> Build B) (b : B) :
  value (bind m f) = Ok b ->
  exists a, value m = Ok a /\ value (f a) = Ok b.
Proof.
  unfold bind. destruct (value m) as [a|e] eqn:E; simpl; intros H.
  - exists a. split; [reflexivity | exact H].
  - discriminate.
Qed.

End BuildLemmas.

Lemma build_eta {A} (m : Build A) : m = mkBuild (trace m) (value m).
Proof. destruct m; reflexivity. Qed.

Section Laws.

Context {A B : Type}.

Lemma bind_ret (a : A) (f : A -> Build B) : bind (ret a) f = f a.
Proof. unfold bind; simpl. symmetry; apply build_eta. Qed.

Lemma bind_lift_ok (a : A) (f : A -> Build B) : bind (lift (Ok a)) f = f a.
Proof. exact (bind_ret a f). Qed.

Lemma bind_lift_raise (e : exn) (f : A -> Build B) :
  bind (lift (Raise e)) f = raise e.
Proof. reflexivity. Qed.

Lemma bind_enter (c : call) (f : unit -> Build B) :
  bind (enter c) f = prefix [Enter c] (f tt).
Proof. reflexivity. Qed.

Lemma bind_apply_ok (l : layer) (ins : list shape) (out : shape)
      (f : shape -> Build B) :
  compute_output_shape l ins = Ok out ->
  bind (apply l ins) f = prefix [Node l out] (f out).
Proof. intros H. unfold apply. rewrite H. reflexivity. Qed.

Lemma bind_apply_raise (l : layer) (ins : list shape) (e : exn)
      (f : shape -> Build B) :
  compute_output_shape l ins = Raise e ->
  bind (apply l ins) f = raise e.
Proof. intros H. unfold apply. rewrite H. reflexivity. Qed.

Lemma bind_prefix (t : list event) (m : Build A) (f : A -> Build B) :
  bind (prefix t m) f = prefix t (bind m f).
Proof.
  unfold prefix, bind; simpl.
  destruct (value m); simpl; [rewrite app_assoc|]; reflexivity.
Qed.

Lemma bind_run (m : Build A) (t : list event) (a : A) (f : A -> Build B) :
  m = mkBuild t (Ok a) -> bind m f = prefix t (f a).
Proof. intros ->. reflexivity. Qed.

Lemma prefix_raise (t : list event) (e : exn) :
  prefix t (@raise A e) = mkBuild t (Raise e).
Proof. unfold prefix; simpl. rewrite app_nil_r. reflexivity. Qed.

Lemma prefix_ret (t : list event) (a : A) :
  prefix t (ret a) = mkBuild t (Ok a).
Proof. unfold prefix; simpl. rewrite app_nil_r. reflexivity. Qed.

Lemma prefix_run (t t' : list event) (v : result A) :
  prefix t (mkBuild t' v) = mkBuild (t ++ t') v.
Proof. reflexivity. Qed.

Lemma value_prefix (t : list event) (m : Build A) :
  value (prefix t m) = value m.
Proof. reflexivity. Qed.

Lemma trace_prefix (t : list event) (m : Build A) :
  trace (prefix t m) = t ++ trace m.
Proof. reflexivity. Qed.

End Laws.

Lemma bind_ret_r {A} (m : Build A) : bind m ret = m.
Proof.
destruct m as [t [a|e]]; unfold bind; simpl; [rewrite app_nil_r|];
  reflexivity.
Qed.

Lemma repeatM_fixed {A} (body : A -> Build A) (x : A) (n : nat) :
value (body x) = Ok x -> value (repeatM n body x) = Ok x.
Proof.
intros H. induction n as [|n IH]; simpl.
- reflexivity.
- rewrite (value_bind_ok _ _ _ H). exact IH.
Qed.

(* ===================================================================== *)
(** * Shapes of single layers *)
(* ===================================================================== *)

Section LayerShapes.

Variables (d h w : dim).

Lemma broadcast_dim_one (i : dim) : broadcast_dim i (Some 1) = Ok i.
Proof.
  destruct i as [a|]; simpl; [|reflexivity].
  destruct (Z.eqb_spec a 1) as [->|]; reflexivity.
Qed.

Lemma broadcast_dim_refl (i : dim) : broadcast_dim i i = Ok i.
Proof.
  destruct i as [a|]; simpl; [|reflexivity].
  destruct (Z.eqb_spec a 1) as [->|]; [reflexivity|].
  rewrite Z.eqb_refl. reflexivity.
Qed.

Lemma merge_batch_same (s1 s2 : shape) :
  merge_batch None [d :: s1; d :: s2] = Ok d.
Proof.
  simpl. destruct d as [a|]; simpl; [|reflexivity].
  rewrite Z.eqb_refl. reflexivity.
Qed.

Lemma gap_shape (c : dim) :
  compute_output_shape GlobalAveragePooling2D [[d; h; w; c]] = Ok [d; c].
Proof. reflexivity. Qed.

Lemma identity_shape (l : layer) (x : shape) :
  l = BatchNormalization \/ l = ReLU ->
  compute_output_shape l [x] = Ok x.
Proof. intros [-> | ->]; reflexivity. Qed.

Lemma reshape_11c_shape (c : Z) :
  compute_output_shape (Reshape [1; 1; c]) [[d; Some c]] =
  Ok [d; Some 1; Some 1; Some c].
Proof.
  assert (E : (product [c] =? product [1; 1; c]) = true).
  { apply Z.eqb_eq. unfold product, fold_right. ring. }
  unfold compute_output_shape, one_input, reshape_layer.
  change (known [Some c]) with (Some [c]). cbv iota.
  rewrite E. reflexivity.
Qed.

Lemma dense_shape4 (units c : Z) (a b : dim) (act : activation) :
  0 < units ->
  compute_output_shape (Dense units act) [[d; a; b; Some c]] =
  Ok [d; a; b; Some units].
Proof.
  intros H. simpl. unfold dense_layer.
  destruct (Z.leb_spec units 0); [lia|]. reflexivity.
Qed.

Lemma dense_shape2 (units c : Z) (act : activation) :
  0 < units ->
  compute_output_shape (Dense units act) [[d; Some c]] =
  Ok [d; Some units].
Proof.
  intros H. simpl. unfold dense_layer.
  destruct (Z.leb_spec units 0); [lia|]. reflexivity.
Qed.

End LayerShapes.

Section MergeShapes.
Variables (d h w : dim).
Lemma multiply_gate_shape (c : Z) :
  compute_output_shape Multiply
    [[d; h; w; Some c]; [d; Some 1; Some 1; Some c]] =
  Ok [d; h; w; Some c].
Proof.
  unfold compute_output_shape, merge_layer. simpl existsb. cbv iota.
  rewrite merge_batch_same.
  unfold merge_tails, elemwise_output_shape. cbn -[broadcast_dim].
  rewrite !broadcast_dim_one, broadcast_dim_refl. reflexivity.
Qed.

Lemma add_same_shape (c : dim) :
  compute_output_shape Add [[d; h; w; c]; [d; h; w; c]] = Ok [d; h; w; c].
Proof.
  unfold compute_output_shape, merge_layer. simpl existsb. cbv iota.
  rewrite merge_batch_same.
  unfold merge_tails, elemwise_output_shape. cbn -[broadcast_dim].
  rewrite !broadcast_dim_refl. reflexivity.
Qed.

End MergeShapes.

(* ===================================================================== *)
(** * The blocks of SE-ResNet50 *)
(* ===================================================================== *)

Section SENetBlocks.

Import SENet.

Lemma squeeze_excite_block_run (d h w : dim) (c ratio : Z) :
  0 < ratio <= c ->
  squeeze_excite_block [d; h; w; Some c] ratio =
  mkBuild
    [ Enter (call_squeeze_excite_block [d; h; w; Some c] ratio);
      Node GlobalAveragePooling2D [d; Some c];
      Node (Reshape [1; 1; c]) [d; Some 1; Some 1; Some c];
      Node (Dense (c / ratio) relu) [d; Some 1; Some 1; Some (c / ratio)];
      Node (Dense c sigmoid) [d; Some 1; Some 1; Some c];
      Node Multiply [d; h; w; Some c] ]
    (Ok [d; h; w; Some c]).
Proof.
  intros [Hr Hc].
  assert (Hq : 0 < c / ratio) by (apply Z.div_str_pos; lia).
  unfold squeeze_excite_block.
  rewrite bind_enter.
  unfold shape_last. rewrite bind_ret. simpl last.
  rewrite (bind_apply_ok _ _ _ _ (gap_shape d h w (Some c))).
  unfold defined. rewrite bind_ret.
  rewrite (bind_apply_ok _ _ _ _ (reshape_11c_shape d c)).
  unfold floordiv. destruct (Z.eqb_spec ratio 0); [lia|].
  rewrite bind_lift_ok.
  rewrite (bind_apply_ok _ _ _ _ (dense_shape4 d _ c _ _ relu Hq)).
  rewrite (bind_apply_ok _ _ _ _
             (dense_shape4 d c (c / ratio) _ _ sigmoid ltac:(lia))).
  rewrite (bind_apply_ok _ _ _ _ (multiply_gate_shape d h w c)).
  rewrite !prefix_ret. reflexivity.
Qed.

End SENetBlocks.

(* ===================================================================== *)
(** * Convolutions and pooling *)
(* ===================================================================== *)

Section WindowShapes.

Variables (d h w : dim).

Lemma conv_output_dim_same (k s : Z) :
  0 < k -> 0 < s -> conv_output_dim h k s same = Ok (strided_dim s h).
Proof.
  intros Hk Hs. unfold conv_output_dim, conv_output_length.
  destruct (Z.leb_spec k 0); [lia|]. destruct (Z.leb_spec s 0); [lia|].
  destruct h; reflexivity.
Qed.

Lemma conv_output_dim_pointwise (s : Z) :
  0 < s -> pos_dim h -> conv_output_dim h 1 s valid = Ok (strided_dim s h).
Proof.
  intros Hs Hh. unfold conv_output_dim, conv_output_length.
  destruct (Z.leb_spec s 0); [lia|]. simpl orb. cbv iota.
  destruct h as [n|]; [|reflexivity]. simpl in Hh.
  destruct (Z.ltb_spec n 1); [lia|].
  unfold strided_dim, option_map.
  replace (n - 1 + 1 + s - 1) with (n + s - 1) by lia. reflexivity.
Qed.

Lemma strided_dim_1 : strided_dim 1 h = h.
Proof.
  destruct h as [n|]; [|reflexivity]. simpl.
  rewrite Z.div_1_r. f_equal. lia.
Qed.

Lemma pos_dim_strided (s : Z) : 0 < s -> pos_dim h -> pos_dim (strided_dim s h).
Proof.
  intros Hs. destruct h as [n|]; simpl; [|trivial]. intros Hn.
  apply Z.div_le_lower_bound; lia.
Qed.

End WindowShapes.

Section ConvShapes.

Variables (d h w : dim) (c : Z).

Lemma conv_same_shape (filters kh kw sh sw : Z) :
  0 < filters -> 0 < kh -> 0 < kw -> 0 < sh -> 0 < sw ->
  compute_output_shape (Conv2D filters (kh, kw) (sh, sw) same)
                       [[d; h; w; Some c]] =
  Ok [d; strided_dim sh h; strided_dim sw w; Some filters].
Proof.
  intros Hf Hkh Hkw Hsh Hsw.
  unfold compute_output_shape, one_input, window2d, fst, snd.
  rewrite !conv_output_dim_same by assumption.
  unfold conv_channels. destruct (Z.leb_spec filters 0); [lia|].
  reflexivity.
Qed.

Lemma conv_pointwise_shape (filters sh sw : Z) :
  0 < filters -> 0 < sh -> 0 < sw -> pos_dim h -> pos_dim w ->
  compute_output_shape (Conv2D filters (1, 1) (sh, sw) valid)
                       [[d; h; w; Some c]] =
  Ok [d; strided_dim sh h; strided_dim sw w; Some filters].
Proof.
  intros Hf Hsh Hsw Hh Hw.
  unfold compute_output_shape, one_input, window2d, fst, snd.
  rewrite !conv_output_dim_pointwise by assumption.
  unfold conv_channels. destruct (Z.leb_spec filters 0); [lia|].
  reflexivity.
Qed.

Lemma depthwise_same_shape (kh kw sh sw : Z) :
  0 < kh -> 0 < kw -> 0 < sh -> 0 < sw ->
  compute_output_shape (DepthwiseConv2D (kh, kw) (sh, sw) same)
                       [[d; h; w; Some c]] =
  Ok [d; strided_dim sh h; strided_dim sw w; Some c].
Proof.
  intros Hkh Hkw Hsh Hsw.
  unfold compute_output_shape, one_input, window2d, fst, snd.
  rewrite !conv_output_dim_same by assumption. reflexivity.
Qed.

Lemma avgpool_same_shape (kh kw sh sw : Z) (c' : dim) :
  0 < kh -> 0 < kw -> 0 < sh -> 0 < sw ->
  compute_output_shape (AveragePooling2D (kh, kw) (sh, sw) same)
                       [[d; h; w; c']] =
  Ok [d; strided_dim sh h; strided_dim sw w; c'].
Proof.
  intros Hkh Hkw Hsh Hsw.
  unfold compute_output_shape, one_input, window2d, fst, snd.
  rewrite !conv_output_dim_same by assumption. reflexivity.
Qed.

End ConvShapes.

Ltac layer H := rewrite (bind_apply_ok _ _ _ _ H).

Lemma bind_bn {B} (x : shape) (f : shape -> Build B) :
bind (apply BatchNormalization [x]) f
= prefix [Node BatchNormalization x] (f x).
Proof. reflexivity. Qed.

Lemma bind_relu {B} (x : shape) (f : shape -> Build B) :
bind (apply ReLU [x]) f = prefix [Node ReLU x] (f x).
Proof. reflexivity. Qed.

Ltac same_shape := first [rewrite bind_bn | rewrite bind_relu].

Section SENetResidual.

Import SENet.

Variables (d h w : dim) (n_filters ratio : Z).
Hypothesis Hn : 0 < n_filters.
Hypothesis Hratio : 0 < ratio <= 4 * n_filters.
Hypothesis Hh : pos_dim h.
Hypothesis Hw : pos_dim w.

Lemma bottleneck_block_value :
  value (bottleneck_block n_filters [d; h; w; Some (4 * n_filters)] ratio)
  = Ok [d; h; w; Some (4 * n_filters)].
Proof.
  unfold bottleneck_block. rewrite bind_enter.
  layer (conv_pointwise_shape d h w (4 * n_filters) n_filters 1 1
           Hn ltac:(lia) ltac:(lia) Hh Hw).
  rewrite !strided_dim_1.
  do 2 same_shape.
  layer (conv_same_shape d h w n_filters n_filters 3 3 1 1
           Hn ltac:(lia) ltac:(lia) ltac:(lia) ltac:(lia)).
  rewrite !strided_dim_1.
  do 2 same_shape.
  layer (conv_pointwise_shape d h w n_filters (n_filters * 4) 1 1
           ltac:(lia) ltac:(lia) ltac:(lia) Hh Hw).
  rewrite !strided_dim_1.
  same_shape.
  rewrite (Z.mul_comm n_filters 4).
  rewrite (bind_run _ _ _ _
             (squeeze_excite_block_run d h w (4 * n_filters) ratio Hratio)).
  layer (add_same_shape d h w (Some (4 * n_filters))).
  same_shape.
  reflexivity.
Qed.

Variables (c sh sw : Z).
Hypothesis Hsh : 0 < sh.
Hypothesis Hsw : 0 < sw.

Lemma projection_block_value :
  value (projection_block n_filters [d; h; w; Some c] (sh, sw) ratio)
  = Ok [d; strided_dim sh h; strided_dim sw w; Some (4 * n_filters)].
Proof.
  unfold projection_block. rewrite bind_enter.
  layer (conv_pointwise_shape d h w c (4 * n_filters) sh sw
           ltac:(lia) Hsh Hsw Hh Hw).
  same_shape.
  layer (conv_pointwise_shape d h w c n_filters sh sw Hn Hsh Hsw Hh Hw).
  do 2 same_shape.
  layer (conv_same_shape d (strided_dim sh h) (strided_dim sw w)
           n_filters n_filters 3 3 1 1
           Hn ltac:(lia) ltac:(lia) ltac:(lia) ltac:(lia)).
  rewrite !strided_dim_1.
  do 2 same_shape.
  layer (conv_pointwise_shape d (strided_dim sh h) (strided_dim sw w)
           n_filters (4 * n_filters) 1 1
           ltac:(lia) ltac:(lia) ltac:(lia)
           (pos_dim_strided h sh Hsh Hh) (pos_dim_strided w sw Hsw Hw)).
  rewrite !strided_dim_1.
  same_shape.
  rewrite (bind_run _ _ _ _
             (squeeze_excite_block_run d (strided_dim sh h)
                (strided_dim sw w) (4 * n_filters) ratio Hratio)).
  layer (add_same_shape d (strided_dim sh h) (strided_dim sw w)
           (Some (4 * n_filters))).
  same_shape.
  reflexivity.
Qed.

End SENetResidual.

Section SENetModel.

Import SENet.

Variable batch : dim.

Lemma senet_stem_value :
  value (stem (Input batch [224; 224; 3]))
  = Ok [batch; Some 56; Some 56; Some 64].
Proof. reflexivity. Qed.

Lemma senet_classifier_value (h w : dim) (c n_classes : Z) :
  0 < n_classes ->
  value (classifier [batch; h; w; Some c] n_classes)
  = Ok [batch; Some n_classes].
Proof.
  intros H. unfold classifier. rewrite bind_enter.
  layer (gap_shape batch h w (Some c)).
  layer (dense_shape2 batch n_classes c softmax H).
  reflexivity.
Qed.

Lemma projection_step (size size' n_filters c sh : Z) :
  0 < n_filters -> 16 <= 4 * n_filters -> 1 <= size -> 0 < sh ->
  size' = (size + sh - 1) / sh ->
  value (projection_block n_filters [batch; Some size; Some size; Some c]
                          (sh, sh) ratio)
  = Ok [batch; Some size'; Some size'; Some (4 * n_filters)].
Proof.
  intros Hn Hr Hs Hsh ->.
  apply (projection_block_value batch (Some size) (Some size)
           n_filters ratio Hn ltac:(unfold ratio; lia) Hs Hs c sh sh Hsh Hsh).
Qed.

Lemma bottleneck_steps (size n_filters : Z) (n : nat) :
  0 < n_filters -> 16 <= 4 * n_filters -> 1 <= size ->
  value (repeatM n (fun x => bottleneck_block n_filters x ratio)
                 [batch; Some size; Some size; Some (4 * n_filters)])
  = Ok [batch; Some size; Some size; Some (4 * n_filters)].
Proof.
  intros Hn Hr Hs. apply repeatM_fixed.
  apply (bottleneck_block_value batch (Some size) (Some size) n_filters ratio
           Hn ltac:(unfold ratio; lia) Hs Hs).
Qed.

Lemma senet_model_value : value (model batch) = Ok [batch; Some 1000].
Proof.
  unfold model.
  rewrite (value_bind_ok _ _ _ senet_stem_value).
  rewrite (value_bind_ok _ _ _ (projection_step 56 56 64 64 1
             ltac:(lia) ltac:(lia) ltac:(lia) ltac:(lia) eq_refl)).
  rewrite (value_bind_ok _ _ _ (bottleneck_steps 56 64 2
             ltac:(lia) ltac:(lia) ltac:(lia))).
  rewrite (value_bind_ok _ _ _ (projection_step 56 28 128 (4 * 64) 2
             ltac:(lia) ltac:(lia) ltac:(lia) ltac:(lia) eq_refl)).
  rewrite (value_bind_ok _ _ _ (bottleneck_steps 28 128 3
             ltac:(lia) ltac:(lia) ltac:(lia))).
  rewrite (value_bind_ok _ _ _ (projection_step 28 14 256 (4 * 128) 2
             ltac:(lia) ltac:(lia) ltac:(lia) ltac:(lia) eq_refl)).
  rewrite (value_bind_ok _ _ _ (bottleneck_steps 14 256 5
             ltac:(lia) ltac:(lia) ltac:(lia))).
  rewrite (value_bind_ok _ _ _ (projection_step 14 7 512 (4 * 256) 2
             ltac:(lia) ltac:(lia) ltac:(lia) ltac:(lia) eq_refl)).
  rewrite (value_bind_ok _ _ _ (bottleneck_steps 7 512 2
             ltac:(lia) ltac:(lia) ltac:(lia))).
  rewrite (value_bind_ok _ _ _ (senet_classifier_value _ _ (4 * 512) 1000
             ltac:(lia))).
  reflexivity.
Qed.

End SENetModel.

(* ===================================================================== *)
(** * Grouped convolution and channel shuffle, shapes *)
(* ===================================================================== *)

Lemma grp_out_filters_quot (n g : Z) :
  0 < g -> grp_out_filters n g = Z.quot (2 * n + g) (2 * g).
Proof.
  intros Hg. destruct g as [|p|p]; try lia.
  unfold grp_out_filters, int, Qdiv, Qinv, Qmult, Qplus, inject_Z.
  simpl Qnum. simpl Qden.
  f_equal; lia.
Qed.

Lemma grp_out_filters_exact (n g : Z) :
  0 < g -> 0 <= n -> (g | n) -> grp_out_filters n g = n / g.
Proof.
  intros Hg Hn [k ->]. rewrite grp_out_filters_quot by assumption.
  rewrite Z.div_mul by lia.
  assert (0 <= k) by nia.
  rewrite Z.quot_div_nonneg by nia.
  symmetry. apply Z.div_unique with (r := g); nia.
Qed.

Lemma mapM_const {A} (body : A -> Build shape) (l : list A) (s : shape) :
  (forall a, In a l -> value (body a) = Ok s) ->
  value (mapM body l) = Ok (List.map (fun _ => s) l).
Proof.
  induction l as [|a l IH]; intros H; simpl.
  - reflexivity.
  - rewrite (value_bind_ok _ _ s) by (apply H; left; reflexivity).
    rewrite (value_bind_ok _ _ (List.map (fun _ => s) l)).
    + reflexivity.
    + apply IH. intros b Hb. apply H. right. exact Hb.
Qed.

Lemma dim_compatible_refl (a : dim) : dim_compatible a a = true.
Proof. destruct a; simpl; [apply Z.eqb_refl | reflexivity]. Qed.

Lemma dims_compatible_refl (s : shape) : dims_compatible s s = true.
Proof.
  induction s as [|a s IH]; simpl; [reflexivity|].
  rewrite dim_compatible_refl, IH. reflexivity.
Qed.

Lemma fold_add_dim_repeat (k acc : Z) (n : nat) :
  List.fold_left add_dim (List.repeat (Some k) n) (Some acc)
  = Some (acc + Z.of_nat n * k).
Proof.
  revert acc. induction n as [|n IH]; intros acc.
  - simpl. f_equal. lia.
  - cbn [List.repeat List.fold_left add_dim]. rewrite IH. f_equal. lia.
Qed.

Section ConcatShapes.

Variables (d h w : dim).

Lemma concatenate_two_shape (a b : Z) :
  compute_output_shape Concatenate [[d; h; w; Some a]; [d; h; w; Some b]]
  = Ok [d; h; w; Some (a + b)].
Proof.
  unfold compute_output_shape, concatenate_layer.
  cbn -[dims_compatible Z.add]. rewrite dims_compatible_refl. reflexivity.
Qed.

Lemma concatenate_groups_shape (k : Z) (n : nat) :
  (1 <= n)%nat ->
  compute_output_shape Concatenate (List.repeat [d; h; w; Some k] n)
  = Ok [d; h; w; Some (Z.of_nat n * k)].
Proof.
  intros Hn. destruct n as [|n]; [lia|].
  unfold compute_output_shape, concatenate_layer.
  cbn [List.repeat length Nat.eqb List.removelast List.last].
  match goal with
  | |- (if ?b then _ else _) = _ => assert (E : b = true)
  end.
  { apply forallb_forall. intros s Hs. apply repeat_spec in Hs. subst s.
    cbn -[dims_compatible]. apply dims_compatible_refl. }
  rewrite E.
  match goal with
  | |- context [List.map ?f ?l] =>
      replace (List.map f l) with (List.repeat (Some k) n)
  end.
  - rewrite fold_add_dim_repeat. cbn [app].
    replace (k + Z.of_nat n * k) with (Z.of_nat (S n) * k); [reflexivity|].
    rewrite Nat2Z.inj_succ. ring.
  - clear. induction n as [|n IH]; simpl; [reflexivity|]. f_equal. exact IH.
Qed.

End ConcatShapes.

Section ShuffleNetUnits.

Import ShuffleNet.

Variables (d h w : dim).

Lemma slice_conv_value (c start stop filters : Z) :
  0 < filters ->
  value (group <- apply (Lambda (slice_channels start stop))
                        [[d; h; w; Some c]] ;;
         conv <- apply (Conv2D filters (1, 1) (1, 1) same) [group] ;;
         ret conv)
  = Ok [d; h; w; Some filters].
Proof.
  intros Hf.
  assert (E : compute_output_shape (Lambda (slice_channels start stop))
                [[d; h; w; Some c]]
              = Ok [d; h; w; Some (slice_length c start stop)])
    by reflexivity.
  layer E.
  layer (conv_same_shape d h w (slice_length c start stop) filters 1 1 1 1
           Hf ltac:(lia) ltac:(lia) ltac:(lia) ltac:(lia)).
  rewrite !strided_dim_1. reflexivity.
Qed.

Lemma pw_group_conv_value (c n_groups n_filters : Z) :
  1 <= n_groups ->
  1 <= grp_out_filters n_filters n_groups ->
  value (pw_group_conv [d; h; w; Some c] n_groups n_filters)
  = Ok [d; h; w; Some (n_groups * grp_out_filters n_filters n_groups)].
Proof.
  intros Hg Hout. unfold pw_group_conv.
  rewrite bind_enter.
  unfold shape_at. cbn [nth_error]. rewrite bind_ret.
  unfold defined. rewrite bind_ret.
  unfold floordiv, truediv. destruct (Z.eqb_spec n_groups 0); [lia|].
  rewrite !bind_lift_ok.
  fold (grp_out_filters n_filters n_groups).
  rewrite value_prefix.
  rewrite (value_bind_ok _ _
             (List.map (fun _ => [d; h; w;
                                  Some (grp_out_filters n_filters n_groups)])
                       (range n_groups))).
  - replace (List.map _ (range n_groups))
      with (List.repeat [d; h; w; Some (grp_out_filters n_filters n_groups)]
                        (Z.to_nat n_groups)).
    + layer (concatenate_groups_shape d h w
               (grp_out_filters n_filters n_groups) (Z.to_nat n_groups)
               ltac:(lia)).
      rewrite bind_bn. rewrite Z2Nat.id by lia. reflexivity.
    + unfold range. rewrite List.map_map.
      generalize 0%nat. induction (Z.to_nat n_groups) as [|k IH]; intros s;
        simpl; [reflexivity|]. f_equal. apply IH.
  - apply mapM_const. intros i _. apply slice_conv_value. lia.
Qed.

Lemma map_fill_known (v : Z) (l : list Z) :
  List.map (fun d : dim => match d with
                           | None => Some v
                           | Some n => Some n
                           end) (List.map Some l)
  = List.map Some l.
Proof.
  induction l as [|a l IH]; [reflexivity|].
  cbn [List.map]. rewrite IH. reflexivity.
Qed.

Lemma k_reshape_infer_batch (x : list Z) (target : list Z) (b : dim) :
  Forall (fun n => 0 < n) target ->
  product x = product target ->
  k_reshape (None :: List.map Some target) (b :: List.map Some x)
  = Ok (b :: List.map Some target).
Proof.
  intros Hpos Hprod.
  assert (Hknown : forall l, known (List.map Some l) = Some l).
  { induction l as [|a l IH]; [reflexivity|].
    unfold known in *. cbn [List.map fold_right]. rewrite IH. reflexivity. }
  assert (Hpart : forall l, known_part (List.map Some l) = l).
  { induction l as [|a l IH]; [reflexivity|].
    unfold known_part in *. cbn [List.map flat_map app]. rewrite IH.
    reflexivity. }
  assert (Hcount : forall l, count_unknown (List.map Some l) = 0%nat).
  { induction l as [|a l IH]; [reflexivity|]. exact IH. }
  assert (Hp : 0 < product target).
  { clear Hprod. induction Hpos as [|a l Ha _ IH]; unfold product in *;
      cbn [fold_right]; nia. }
  unfold k_reshape.
  replace (count_unknown (None :: List.map Some target)) with 1%nat
    by (unfold count_unknown in *; cbn [filter length]; rewrite Hcount;
        reflexivity).
  cbn [Nat.ltb Nat.leb Nat.eqb].
  replace (known_part (None :: List.map Some target)) with target
    by (symmetry; apply (Hpart target)).
  replace (List.existsb (fun n => n <? 0) target) with false.
  2:{ symmetry. clear Hprod Hp. induction Hpos as [|a l Ha _ IH];
        [reflexivity|]. cbn [List.existsb]. rewrite IH.
      destruct (Z.ltb_spec a 0); [lia|reflexivity]. }
  destruct b as [n|].
  - match goal with
    | |- context [known ?l] => assert (K : known l = Some (n :: x))
    end.
    { change (known (Some n :: List.map Some x))
        with (match known (List.map Some x) with
              | Some l => Some (n :: l)
              | None => None
              end).
      rewrite (Hknown x). reflexivity. }
    rewrite K. cbv zeta.
    assert (T : product (n :: x) = n * product target).
    { change (product (n :: x)) with (n * product x). rewrite Hprod. reflexivity. }
    rewrite T.
    destruct (Z.eqb_spec (product target) 0); [lia|].
    rewrite Z.mod_mul by lia. rewrite Z.eqb_refl.
    rewrite Z.div_mul by lia.
    cbn [List.map]. apply f_equal. apply f_equal.
    exact (map_fill_known n target).
  - match goal with
    | |- context [known ?l] => assert (K : known l = None)
    end.
    { reflexivity. }
    rewrite K. reflexivity.
Qed.

Lemma channel_shuffle_value (height width n_filters n_groups : Z) :
  0 < height -> 0 < width -> 0 < n_filters ->
  0 < n_groups -> (n_groups | n_filters) ->
  value (channel_shuffle
           [d; Some height; Some width; Some n_filters] n_groups)
  = Ok [d; Some height; Some width; Some n_filters].
Proof.
  intros Hh Hw Hn Hg [k Hk].
  assert (Hk0 : 0 < k) by nia.
  assert (Eq : n_filters / n_groups = k) by (subst; apply Z.div_mul; lia).
  unfold channel_shuffle. rewrite bind_enter.
  unfold defined. rewrite bind_ret.
  unfold floordiv. destruct (Z.eqb_spec n_groups 0); [lia|].
  rewrite bind_lift_ok, !bind_ret. rewrite Eq.
  assert (P1 : product [height; width; n_filters]
               = product [height; width; n_groups; k])
    by (unfold product; cbn [fold_right]; rewrite Hk; ring).
  assert (P2 : product [height; width; k; n_groups]
               = product [height; width; n_filters])
    by (unfold product; cbn [fold_right]; rewrite Hk; ring).
  assert (R1 : compute_output_shape
                 (Lambda (K_reshape [None; Some height; Some width;
                                     Some n_groups; Some k]))
                 [[d; Some height; Some width; Some n_filters]]
               = Ok [d; Some height; Some width; Some n_groups; Some k]).
  { apply (k_reshape_infer_batch [height; width; n_filters]
             [height; width; n_groups; k] d); [|exact P1].
    repeat constructor; assumption. }
  assert (R2 : compute_output_shape
                 (Lambda (K_reshape [None; Some height; Some width;
                                     Some n_filters]))
                 [[d; Some height; Some width; Some k; Some n_groups]]
               = Ok [d; Some height; Some width; Some n_filters]).
  { apply (k_reshape_infer_batch [height; width; k; n_groups]
             [height; width; n_filters] d); [|exact P2].
    repeat constructor; assumption. }
  layer R1.
  assert (P : compute_output_shape
                (Lambda (K_permute_dimensions [0; 1; 2; 4; 3]%nat))
                [[d; Some height; Some width; Some n_groups; Some k]]
              = Ok [d; Some height; Some width; Some k; Some n_groups])
    by reflexivity.
  layer P.
  layer R2.
  reflexivity.
Qed.

End ShuffleNetUnits.

Section ShuffleNetBlocks.

Import ShuffleNet.

Variables (d : dim) (h w c n_groups n_filters : Z) (reduction : Q).

Hypothesis Hh : 0 < h.
Hypothesis Hw : 0 < w.
Hypothesis Hg : 1 <= n_groups.

Lemma strided_shuffle_block_value :
  1 <= grp_out_filters (entry_filters reduction (n_filters - c)) n_groups ->
  1 <= grp_out_filters (n_filters - c) n_groups ->
  value (strided_shuffle_block [d; Some h; Some w; Some c]
                               n_groups n_filters reduction)
  = Ok [d; strided_dim 2 (Some h); strided_dim 2 (Some w);
        Some (c + n_groups * grp_out_filters (n_filters - c) n_groups)].
Proof.
  intros H1 H2. unfold strided_shuffle_block. rewrite bind_enter.
  layer (avgpool_same_shape d (Some h) (Some w) 3 3 2 2 (Some c)
           ltac:(lia) ltac:(lia) ltac:(lia) ltac:(lia)).
  unfold shape_at. cbn [nth_error]. rewrite bind_ret.
  unfold defined. rewrite bind_ret.
  fold (entry_filters reduction (n_filters - c)).
  set (m := entry_filters reduction (n_filters - c)) in *.
  set (k1 := grp_out_filters m n_groups) in *.
  set (k2 := grp_out_filters (n_filters - c) n_groups) in *.
  rewrite !value_prefix.
  rewrite (value_bind_ok _ _ _
             (pw_group_conv_value d (Some h) (Some w) c n_groups m Hg H1)).
  rewrite bind_relu, value_prefix.
  rewrite (value_bind_ok _ _ _
             (channel_shuffle_value d h w (n_groups * k1) n_groups
                Hh Hw ltac:(nia) ltac:(lia)
                ltac:(exists k1; ring))).
  layer (depthwise_same_shape d (Some h) (Some w) (n_groups * k1) 3 3 2 2
           ltac:(lia) ltac:(lia) ltac:(lia) ltac:(lia)).
  rewrite bind_bn, !value_prefix.
  rewrite (value_bind_ok _ _ _
             (pw_group_conv_value d _ _ (n_groups * k1) n_groups
                (n_filters - c) Hg H2)).
  layer (concatenate_two_shape d (strided_dim 2 (Some h))
           (strided_dim 2 (Some w)) c (n_groups * k2)).
  rewrite bind_relu. reflexivity.
Qed.

Lemma shuffle_block_value :
  1 <= grp_out_filters (entry_filters reduction n_filters) n_groups ->
  1 <= grp_out_filters n_filters n_groups ->
  c = n_groups * grp_out_filters n_filters n_groups ->
  value (shuffle_block [d; Some h; Some w; Some c]
                       n_groups n_filters reduction)
  = Ok [d; Some h; Some w; Some c].
Proof.
  intros H1 H2 Hc. unfold shuffle_block. rewrite bind_enter.
  fold (entry_filters reduction n_filters).
  set (m := entry_filters reduction n_filters) in *.
  set (k1 := grp_out_filters m n_groups) in *.
  rewrite !value_prefix.
  rewrite (value_bind_ok _ _ _
             (pw_group_conv_value d (Some h) (Some w) c n_groups m Hg H1)).
  rewrite bind_relu, value_prefix.
  rewrite (value_bind_ok _ _ _
             (channel_shuffle_value d h w (n_groups * k1) n_groups
                Hh Hw ltac:(nia) ltac:(lia)
                ltac:(exists k1; ring))).
  layer (depthwise_same_shape d (Some h) (Some w) (n_groups * k1) 3 3 1 1
           ltac:(lia) ltac:(lia) ltac:(lia) ltac:(lia)).
  rewrite !strided_dim_1.
  rewrite bind_bn, !value_prefix.
  rewrite (value_bind_ok _ _ _
             (pw_group_conv_value d _ _ (n_groups * k1) n_groups
                n_filters Hg H2)).
  rewrite <- Hc.
  layer (add_same_shape d (Some h) (Some w) (Some c)).
  rewrite bind_relu. reflexivity.
Qed.

End ShuffleNetBlocks.

Section ShuffleNetModel.

Import ShuffleNet.

Variable batch : dim.

Lemma shufflenet_stem_value :
  value (stem (Input batch [224; 224; 3]))
  = Ok [batch; Some 56; Some 56; Some 24].
Proof. reflexivity. Qed.

Lemma shufflenet_classifier_value (h w : dim) (c n_classes : Z) :
  0 < n_classes ->
  value (classifier [batch; h; w; Some c] n_classes)
  = Ok [batch; Some n_classes].
Proof.
  intros H. unfold classifier. rewrite bind_enter.
  layer (gap_shape batch h w (Some c)).
  layer (dense_shape2 batch n_classes c softmax H).
  reflexivity.
Qed.

Lemma shuffle_group_value (h w c n_groups n_blocks n_filters : Z)
      (reduction : Q) :
  0 < h -> 0 < w -> 1 <= n_groups ->
  1 <= grp_out_filters (entry_filters reduction (n_filters - c)) n_groups ->
  1 <= grp_out_filters (n_filters - c) n_groups ->
  1 <= grp_out_filters (entry_filters reduction n_filters) n_groups ->
  1 <= grp_out_filters n_filters n_groups ->
  n_filters = c + n_groups * grp_out_filters (n_filters - c) n_groups ->
  n_filters = n_groups * grp_out_filters n_filters n_groups ->
  value (shuffle_group [batch; Some h; Some w; Some c]
                       n_groups n_blocks n_filters reduction)
  = Ok [batch; strided_dim 2 (Some h); strided_dim 2 (Some w);
        Some n_filters].
Proof.
  intros Hh Hw Hg H1 H2 H3 H4 E1 E2.
  unfold shuffle_group. rewrite bind_enter, value_prefix.
  rewrite (value_bind_ok _ _ _
             (strided_shuffle_block_value batch h w c n_groups n_filters
                reduction Hh Hw Hg H1 H2)).
  rewrite <- E1. rewrite bind_ret_r.
  apply repeatM_fixed.
  apply shuffle_block_value; try assumption.
  - apply Z.div_str_pos. lia.
  - apply Z.div_str_pos. lia.
Qed.

(** One turn of the loop at module level. *)
Lemma stage_value (i n_blocks n_filters h w c : Z) :
  list_get blocks i = ret n_blocks ->
  list_get [24; 200; 400; 800] (i + 1) = ret n_filters ->
  0 < h -> 0 < w ->
  1 <= grp_out_filters (entry_filters reduction (n_filters - c)) n_groups ->
  1 <= grp_out_filters (n_filters - c) n_groups ->
  1 <= grp_out_filters (entry_filters reduction n_filters) n_groups ->
  1 <= grp_out_filters n_filters n_groups ->
  n_filters = c + n_groups * grp_out_filters (n_filters - c) n_groups ->
  n_filters = n_groups * grp_out_filters n_filters n_groups ->
  value (n_blocks <- list_get blocks i ;;
         row <- dict_get filters n_groups ;;
         n_filters <- list_get row (i + 1) ;;
         shuffle_group [batch; Some h; Some w; Some c]
                       n_groups n_blocks n_filters reduction)
  = Ok [batch; strided_dim 2 (Some h); strided_dim 2 (Some w);
        Some n_filters].
Proof.
  intros Eb Ef Hh Hw H1 H2 H3 H4 E1 E2.
  rewrite Eb, bind_ret.
  change (dict_get filters n_groups) with (ret [24; 200; 400; 800]).
  rewrite bind_ret, Ef, bind_ret.
  apply shuffle_group_value; solve [assumption | unfold n_groups; lia].
Qed.

Ltac by_computation := vm_compute; first [reflexivity | discriminate].

Lemma shufflenet_model_value : value (model batch) = Ok [batch; Some 1000].
Proof.
  unfold model.
  rewrite (value_bind_ok _ _ _ shufflenet_stem_value).
  change (range 3) with [0; 1; 2]. cbn [foldM].
  rewrite (value_bind_ok _ _ [batch; Some 7; Some 7; Some 800]).
  - apply (shufflenet_classifier_value _ _ 800 1000). lia.
  - rewrite (value_bind_ok _ _ [batch; Some 28; Some 28; Some 200]).
    2:{ apply (stage_value 0 4 200 56 56 24); by_computation. }
    rewrite (value_bind_ok _ _ [batch; Some 14; Some 14; Some 400]).
    2:{ apply (stage_value 1 8 400 28 28 200); by_computation. }
    rewrite (value_bind_ok _ _ [batch; Some 7; Some 7; Some 800]).
    2:{ apply (stage_value 2 4 800 14 14 400); by_computation. }
    reflexivity.
Qed.

End ShuffleNetModel.




Section EagerShuffle.

Import Eager.
Open Scope nat_scope.

Variable A : Type.
Variable zero : A.

Lemma div_mod_decompose (q r n : nat) :
  r < n -> (q * n + r) / n = q /\ (q * n + r) mod n = r.
Proof.
  intros H. split.
  - symmetry. apply (Nat.div_unique _ _ _ r); lia.
  - symmetry. apply (Nat.mod_unique _ _ q); lia.
Qed.

Lemma ravel_unravel3 (b h w p : nat) :
  p < b * h * w ->
  ((p / w / h) mod b * h + (p / w) mod h) * w + p mod w = p.
Proof.
  intros Hp.
  assert (Hw : w <> 0) by (intros ->; lia).
  assert (Hh : h <> 0) by (intros ->; lia).
  assert (Hq : p / w / h < b).
  { apply Nat.Div0.div_lt_upper_bound.
    apply Nat.Div0.div_lt_upper_bound. lia. }
  rewrite (Nat.mod_small _ _ Hq).
  pose proof (Nat.div_mod_eq (p / w) h) as E1.
  pose proof (Nat.div_mod_eq p w) as E2.
  nia.
Qed.

(** Where the element at flat index [j] of the transposed tensor comes
    from. *)
Lemma transpose_source (b h w G gi p g j : nat) :
  p < b * h * w -> g < G -> j < gi ->
  ravel [b; h; w; G; gi]
        (List.map (fun a => List.nth (index_of a [0; 1; 2; 4; 3])
                              (unravel [b; h; w; gi; G]
                                       (p * (G * gi) + j * G + g)) 0)
                  (List.seq 0 5))
  = p * (G * gi) + g * gi + j.
Proof.
  intros Hp Hg Hj.
  replace (p * (G * gi) + j * G + g) with ((p * gi + j) * G + g) by ring.
  unfold unravel, ravel.
  cbn [List.rev app unravel_rev List.seq List.map index_of Nat.eqb
       List.nth ravel_from].
  destruct (div_mod_decompose (p * gi + j) g G Hg) as [D1 M1].
  rewrite D1, M1.
  destruct (div_mod_decompose p j gi Hj) as [D2 M2].
  rewrite D2, M2.
  cbn [Nat.mul Nat.add].
  rewrite (ravel_unravel3 b h w p Hp). ring.
Qed.

Lemma filter_unknown_of_nat (dims : list nat) :
  List.filter (fun n => (n =? -1)%Z) (List.map Z.of_nat dims) = [].
Proof.
  induction dims as [|a l IH]; [reflexivity|]. cbn [List.map List.filter].
  destruct (Z.eqb_spec (Z.of_nat a) (-1)); [lia | exact IH].
Qed.

Lemma filter_given_of_nat (dims : list nat) :
  List.filter (fun n => negb (n =? -1)%Z) (List.map Z.of_nat dims)
  = List.map Z.of_nat dims.
Proof.
  induction dims as [|a l IH]; [reflexivity|]. cbn [List.map List.filter].
  destruct (Z.eqb_spec (Z.of_nat a) (-1)); [lia|]. cbn [negb].
  rewrite IH. reflexivity.
Qed.

Lemma existsb_negative_of_nat (dims : list nat) :
  List.existsb (fun n => (n <? 0)%Z) (List.map Z.of_nat dims) = false.
Proof.
  induction dims as [|a l IH]; [reflexivity|]. cbn [List.map List.existsb].
  destruct (Z.ltb_spec (Z.of_nat a) 0); [lia | exact IH].
Qed.

Lemma prod_of_nat (dims : list nat) :
  product (List.map Z.of_nat dims) = Z.of_nat (size dims).
Proof.
  induction dims as [|a l IH]; [reflexivity|].
  unfold product, size in *. cbn [List.map fold_right]. rewrite IH. lia.
Qed.

Lemma to_nat_of_nat (dims : list nat) (v : nat) :
  List.map (fun n => if (n =? -1)%Z then v else Z.to_nat n)
           (List.map Z.of_nat dims) = dims.
Proof.
  induction dims as [|a l IH]; [reflexivity|]. cbn [List.map].
  destruct (Z.eqb_spec (Z.of_nat a) (-1)); [lia|].
  rewrite IH, Nat2Z.id. reflexivity.
Qed.

Lemma size_pos (dims : list nat) :
  Forall (fun n => 0 < n) dims -> 0 < size dims.
Proof.
  induction 1 as [|a l Ha _ IH]; unfold size in *; cbn [fold_right]; nia.
Qed.

(** A reshape that only has to infer the leading dimension. *)
Lemma reshape_infer (dims : list nat) (b : nat) (x : tensor A) :
  Forall (fun n => 0 < n) dims ->
  size (tshape x) = b * size dims ->
  reshape ((-1)%Z :: List.map Z.of_nat dims) x
  = Ok (mkTensor (b :: dims) (tdata x)).
Proof.
  intros Hpos Hsize. pose proof (size_pos dims Hpos) as Hs.
  unfold reshape. cbv zeta. cbn [List.filter].
  change ((-1) =? -1)%Z with true. cbn [negb].
  rewrite filter_unknown_of_nat, filter_given_of_nat.
  rewrite existsb_negative_of_nat.
  cbn [length Nat.ltb Nat.leb Nat.eqb].
  rewrite prod_of_nat, Hsize.
  destruct (Z.eqb_spec (Z.of_nat (size dims)) 0); [lia|].
  rewrite Nat2Z.inj_mul, Z.mod_mul by lia. rewrite Z.eqb_refl.
  rewrite Z.div_mul by lia.
  cbn [List.map]. change ((-1) =? -1)%Z with true. cbv iota.
  rewrite to_nat_of_nat, Nat2Z.id. reflexivity.
Qed.

Lemma channel_shuffle_run (x : tensor A) (b h w G gi : nat) :
  tshape x = [b; h; w; G * gi] ->
  0 < h -> 0 < w -> 0 < G -> 0 < gi ->
  channel_shuffle zero x (Z.of_nat G)
  = Ok (mkTensor [b; h; w; G * gi] (shuffled A zero b h w G gi (tdata x))).
Proof.
  intros Hx Hh Hw HG Hgi. unfold channel_shuffle. rewrite Hx.
  unfold floordiv. destruct (Z.eqb_spec (Z.of_nat G) 0); [lia|].
  cbn [bindR].
  replace (Z.of_nat (G * gi) / Z.of_nat G)%Z with (Z.of_nat gi)
    by (rewrite Nat2Z.inj_mul, Z.mul_comm, Z.div_mul by lia; reflexivity).
  change [(-1)%Z; Z.of_nat h; Z.of_nat w; Z.of_nat G; Z.of_nat gi]
    with ((-1)%Z :: List.map Z.of_nat [h; w; G; gi]).
  change [(-1)%Z; Z.of_nat h; Z.of_nat w; Z.of_nat (G * gi)]
    with ((-1)%Z :: List.map Z.of_nat [h; w; G * gi]).
  rewrite (reshape_infer [h; w; G; gi] b x).
  - cbn [bindR]. unfold permute_dimensions. cbn [tshape tdata].
    replace ((length [0; 1; 2; 4; 3] =? length [b; h; w; G; gi])
             && is_permutation [0; 1; 2; 4; 3]) with true by reflexivity.
    cbn [bindR List.map List.nth length].
    fold (shuffled A zero b h w G gi (tdata x)).
    rewrite (reshape_infer [h; w; G * gi] b).
    + reflexivity.
    + repeat constructor; nia.
    + cbn [tshape]. unfold size. cbn [fold_right]. ring.
  - repeat constructor; assumption.
  - rewrite Hx. unfold size. cbn [fold_right]. ring.
Qed.

Lemma nth_map_seq {B} (f : nat -> B) (n k : nat) (d : B) :
  k < n -> List.nth k (List.map f (List.seq 0 n)) d = f k.
Proof.
  intros H. rewrite (nth_indep _ d (f 0)) by (rewrite length_map, length_seq; exact H).
  rewrite (map_nth f (List.seq 0 n) 0 k). rewrite seq_nth by exact H.
  reflexivity.
Qed.

Lemma shuffled_length (b h w G gi : nat) (data : list A) :
  length (shuffled A zero b h w G gi data) = b * h * w * (G * gi).
Proof.
  unfold shuffled. rewrite length_map, length_seq. unfold size.
  cbn [fold_right]. ring.
Qed.

Lemma shuffled_nth (b h w G gi p g j : nat) (data : list A) :
  p < b * h * w -> g < G -> j < gi ->
  List.nth (p * (G * gi) + j * G + g) (shuffled A zero b h w G gi data) zero
  = List.nth (p * (G * gi) + g * gi + j) data zero.
Proof.
  intros Hp Hg Hj. unfold shuffled.
  rewrite nth_map_seq.
  - rewrite (transpose_source b h w G gi p g j Hp Hg Hj). reflexivity.
  - unfold size. cbn [fold_right].
    assert (j * G + g < gi * G) by nia.
    assert (S p * (G * gi) <= b * h * w * (G * gi))
      by (apply Nat.mul_le_mono_r; lia).
    nia.
Qed.

End EagerShuffle.

Section ShufflePermutation.

Import Eager.
Open Scope nat_scope.

Variables (G gi : nat).
Hypothesis HG : 0 < G.
Hypothesis Hgi : 0 < gi.

Lemma per_group_eq : G * gi / G = gi.
Proof. rewrite Nat.mul_comm. apply Nat.div_mul. lia. Qed.

Lemma shuffle_index_pair (g j : nat) :
  g < G -> j < gi -> shuffle_index (G * gi) G (g * gi + j) = j * G + g.
Proof.
  intros Hg Hj. unfold shuffle_index. rewrite per_group_eq.
  destruct (div_mod_decompose g j gi Hj) as [D M]. rewrite D, M.
  reflexivity.
Qed.

Lemma unshuffle_index_pair (g j : nat) :
  g < G -> j < gi -> unshuffle_index (G * gi) G (j * G + g) = g * gi + j.
Proof.
  intros Hg Hj. unfold unshuffle_index. rewrite per_group_eq.
  destruct (div_mod_decompose j g G Hg) as [D M]. rewrite D, M.
  reflexivity.
Qed.

Lemma channel_split (c : nat) :
  c < G * gi -> c = (c / gi) * gi + c mod gi /\ c / gi < G /\ c mod gi < gi.
Proof.
  intros Hc. split; [|split].
  - pose proof (Nat.div_mod_eq c gi). lia.
  - apply Nat.Div0.div_lt_upper_bound. lia.
  - apply Nat.mod_upper_bound. lia.
Qed.

Lemma channel_split_groups (c : nat) :
  c < G * gi -> c = (c / G) * G + c mod G /\ c / G < gi /\ c mod G < G.
Proof.
  intros Hc. split; [|split].
  - pose proof (Nat.div_mod_eq c G). lia.
  - apply Nat.Div0.div_lt_upper_bound. lia.
  - apply Nat.mod_upper_bound. lia.
Qed.

Lemma shuffle_index_bound (c : nat) :
  c < G * gi -> shuffle_index (G * gi) G c < G * gi.
Proof.
  intros Hc. destruct (channel_split c Hc) as (E & Hq & Hr).
  rewrite E at 1. rewrite shuffle_index_pair by assumption. nia.
Qed.

Lemma unshuffle_shuffle (c : nat) :
  c < G * gi -> unshuffle_index (G * gi) G (shuffle_index (G * gi) G c) = c.
Proof.
  intros Hc. destruct (channel_split c Hc) as (E & Hq & Hr).
  rewrite E at 1. rewrite shuffle_index_pair by assumption.
  rewrite unshuffle_index_pair by assumption. lia.
Qed.

Lemma shuffle_unshuffle (c : nat) :
  c < G * gi -> shuffle_index (G * gi) G (unshuffle_index (G * gi) G c) = c.
Proof.
  intros Hc. destruct (channel_split_groups c Hc) as (E & Hq & Hr).
  rewrite E at 1. rewrite unshuffle_index_pair by assumption.
  rewrite shuffle_index_pair by assumption. lia.
Qed.

Variable A : Type.
Variable zero : A.
Variables (b h w : nat).

(** The shuffled data, channel by channel. *)
Lemma shuffled_channel (data : list A) (p c : nat) :
  p < b * h * w -> c < G * gi ->
  List.nth (p * (G * gi) + shuffle_index (G * gi) G c)
           (shuffled A zero b h w G gi data) zero
  = List.nth (p * (G * gi) + c) data zero.
Proof.
  intros Hp Hc. destruct (channel_split c Hc) as (E & Hq & Hr).
  rewrite E at 1. rewrite shuffle_index_pair by assumption.
  rewrite Nat.add_assoc.
  rewrite (shuffled_nth A zero b h w G gi p (c / gi) (c mod gi) data Hp Hq Hr).
  f_equal. lia.
Qed.

End ShufflePermutation.

Section FlatIndex.

Open Scope nat_scope.

Lemma flat_split (b h w n i : nat) :
  0 < n -> i < b * h * w * n ->
  i = (i / n) * n + i mod n /\ i / n < b * h * w /\ i mod n < n.
Proof.
  intros Hn Hi. split; [|split].
  - pose proof (Nat.div_mod_eq i n). lia.
  - apply Nat.Div0.div_lt_upper_bound. lia.
  - apply Nat.mod_upper_bound. lia.
Qed.

End FlatIndex.

Section ShuffleInverse.

Import Eager.
Open Scope nat_scope.

Variable A : Type.
Variable zero : A.
Variables (b h w G gi : nat).
Hypothesis HG : 0 < G.
Hypothesis Hgi : 0 < gi.

(** Shuffling with [G] groups and then with [gi] groups puts every element
    back. *)
Lemma shuffled_inverse (data : list A) :
  length data = b * h * w * (G * gi) ->
  shuffled A zero b h w gi G (shuffled A zero b h w G gi data) = data.
Proof.
  intros Hlen.
  apply (nth_ext _ _ zero zero).
  - rewrite !shuffled_length. rewrite Hlen, (Nat.mul_comm gi G).
    reflexivity.
  - intros i Hi. rewrite shuffled_length, (Nat.mul_comm gi G) in Hi.
    destruct (flat_split b h w (G * gi) i ltac:(nia) Hi) as (E & Hp & Hc).
    destruct (channel_split G gi HG Hgi (i mod (G * gi)) Hc) as (Ec & Hj & Hg).
    set (p := i / (G * gi)) in *. set (c := i mod (G * gi)) in *.
    set (j := c / gi) in *. set (g := c mod gi) in *.
    replace i with (p * (gi * G) + j * gi + g)
      at 1 by (rewrite (Nat.mul_comm gi G); lia).
    rewrite (shuffled_nth A zero b h w gi G p g j _ Hp Hg Hj).
    rewrite (Nat.mul_comm gi G).
    rewrite (shuffled_nth A zero b h w G gi p j g _ Hp Hj Hg).
    f_equal. lia.
Qed.

End ShuffleInverse.

(** With one channel per group there is nothing to shuffle. *)
Lemma shuffled_single (A : Type) (zero : A) (b h w G : nat)
      (data : list A) :
  (0 < G)%nat ->
  length data = (b * h * w * (G * 1))%nat ->
  shuffled A zero b h w G 1 data = data.
Proof.
  intros HG Hlen.
  apply (nth_ext _ _ zero zero).
  - rewrite shuffled_length. rewrite Hlen. reflexivity.
  - intros i Hi. rewrite shuffled_length in Hi.
    destruct (flat_split b h w (G * 1) i ltac:(lia) Hi) as (E & Hp & Hc).
    set (p := (i / (G * 1))%nat) in *. set (c := (i mod (G * 1))%nat) in *.
    replace i with (p * (G * 1) + 0 * G + c)%nat at 1 by lia.
    rewrite (shuffled_nth A zero b h w G 1 p c 0 _ Hp ltac:(lia) ltac:(lia)).
    f_equal. lia.
Qed.

Section EagerGroupConv.

Import Eager.
Open Scope nat_scope.

Variable A : Type.
Variable zero : A.
Variables (add mul : A -> A -> A).
Variable batch_normalization : tensor A -> result (tensor A).

(** Cutting a list into runs of [c] elements and joining them again. *)
Lemma runs_all (count c : nat) (data : list A) :
  length data = count * c ->
  runs count c 0 c data = data.
Proof.
  unfold runs. revert data.
  induction count as [|n IH]; intros data Hlen.
  - destruct data; [reflexivity | discriminate].
  - cbn [List.seq flat_map]. rewrite <- seq_shift, flat_map_concat_map,
      List.map_map, <- flat_map_concat_map.
    cbn [Nat.mul Nat.add List.skipn].
    transitivity (List.firstn c data ++ List.skipn c data);
      [|apply firstn_skipn].
    f_equal.
    rewrite <- (IH (List.skipn c data)) at 1
      by (rewrite length_skipn; lia).
    apply flat_map_ext. intros p. f_equal.
    rewrite skipn_skipn. f_equal. lia.
Qed.

Lemma length_flat_map_const {B C} (f : B -> list C) (l : list B) (m : nat) :
  (forall x, length (f x) = m) -> length (flat_map f l) = length l * m.
Proof.
  intros H. induction l as [|x l IH]; [reflexivity|].
  cbn [flat_map length]. rewrite length_app, H, IH. lia.
Qed.

Lemma slice_all (x : tensor A) (b h w c : nat) :
  tshape x = [b; h; w; c] -> well_formed x ->
  slice_channels (Z.of_nat c * 0) (Z.of_nat c * (0 + 1)) x = Ok x.
Proof.
  intros Hs Hwf. destruct x as [s data]. cbn [tshape tdata] in *. subst s.
  unfold well_formed, size in Hwf. cbn [tshape tdata fold_right] in Hwf.
  unfold slice_channels. cbn [tshape tdata].
  replace (Z.of_nat c * 0)%Z with 0%Z by lia.
  replace (Z.of_nat c * (0 + 1))%Z with (Z.of_nat c) by lia.
  unfold slice_length, slice_index.
  change (0 <? 0)%Z with false. cbv iota.
  destruct (Z.ltb_spec (Z.of_nat c) 0); [lia|].
  rewrite Z.min_id, Z.min_l, Z.sub_0_r, Z.max_r, Nat2Z.id by lia.
  change (Z.to_nat 0) with 0. unfold size. cbn [fold_right].
  rewrite Nat.mul_1_r, Nat.mul_0_l.
  rewrite runs_all by lia. reflexivity.
Qed.

Lemma conv2d_pointwise_well_formed (filters : Z) (k : kernel A)
      (x y : tensor A) :
  conv2d_pointwise zero add mul filters k x = Ok y ->
  exists b h w, tshape y = [b; h; w; Z.to_nat filters]
                /\ length (tdata y) = b * h * w * Z.to_nat filters.
Proof.
  unfold conv2d_pointwise.
  destruct (tshape x) as [|b [|h [|w [|c [|? ?]]]]]; try discriminate.
  destruct (filters <=? 0)%Z; [discriminate|].
  destruct (_ && _); [|discriminate].
  intros H. injection H as <-. exists b, h, w. cbn [tshape tdata].
  split; [reflexivity|].
  rewrite (length_flat_map_const _ _ (Z.to_nat filters)).
  - rewrite length_seq. reflexivity.
  - intros p. rewrite length_map, length_seq. reflexivity.
Qed.

Lemma concatenate_single (y : tensor A) (b h w f : nat) :
  tshape y = [b; h; w; f] ->
  length (tdata y) = b * h * w * f ->
  concatenate [y] = Ok y.
Proof.
  intros Hs Hlen. destruct y as [s data]. cbn [tshape tdata] in *. subst s.
  unfold concatenate. cbn [tshape tdata List.removelast List.forallb
                           List.map List.last fold_right app].
  rewrite Nat.add_0_r. f_equal. f_equal.
  unfold size. cbn [fold_right].
  transitivity (runs (b * h * w) f 0 f data);
    [|apply (runs_all (b * h * w) f data Hlen)].
  unfold runs.
  replace (b * (h * (w * 1))) with (b * h * w) by lia.
  apply flat_map_ext. intros p.
  cbn [flat_map tshape tdata List.last]. rewrite app_nil_r.
  rewrite Nat.add_0_r. reflexivity.
Qed.

Lemma int_one_group (n : Z) :
  (0 <= n)%Z -> int (Qdiv (inject_Z n) (inject_Z 1) + (1 # 2)) = n.
Proof.
  intros Hn. change (int _) with (grp_out_filters n 1).
  rewrite grp_out_filters_exact; try lia.
  - apply Z.div_1_r.
  - exists n. ring.
Qed.

Lemma pw_group_conv_single (k : kernel A) (x : tensor A) (b h w c : nat)
      (n_filters : Z) :
  tshape x = [b; h; w; c] -> well_formed x -> (0 <= n_filters)%Z ->
  pw_group_conv zero add mul batch_normalization [k] x 1 n_filters
  = pw_conv zero add mul batch_normalization k x n_filters.
Proof.
  intros Hs Hwf Hn. unfold pw_group_conv, pw_conv. rewrite Hs.
  cbn [nth_error]. unfold floordiv, truediv.
  change (1 =? 0)%Z with false. cbv iota. cbn [bindR].
  rewrite Z.div_1_r, (int_one_group n_filters Hn).
  change (range 1) with [0%Z]. cbn [mapR].
  rewrite (slice_all x b h w c Hs Hwf). cbn [bindR].
  change (List.nth (Z.to_nat 0) [k] []) with k.
  destruct (conv2d_pointwise zero add mul n_filters k x) as [y|e] eqn:E;
    cbn [bindR]; [|reflexivity].
  destruct (conv2d_pointwise_well_formed n_filters k x y E)
    as (b' & h' & w' & Hy & Hlen).
  rewrite (concatenate_single y b' h' w' _ Hy Hlen). reflexivity.
Qed.

End EagerGroupConv.

Section Softmax.

Import Head.
Open Scope R_scope.

Lemma Rsum_map_div (f : R -> R) (s : R) (l : list R) :
  Rsum (List.map (fun v => f v / s) l) = Rsum (List.map f l) / s.
Proof.
  induction l as [|a l IH]; unfold Rsum in *; cbn [List.map fold_right].
  - unfold Rdiv. ring.
  - rewrite IH. unfold Rdiv. ring.
Qed.

Lemma Rsum_exp_pos (l : list R) : l <> [] -> 0 < Rsum (List.map exp l).
Proof.
  intros Hl. destruct l as [|a l]; [contradiction|]. clear Hl.
  revert a. induction l as [|b l IH]; intros a; unfold Rsum in *;
    cbn [List.map fold_right] in *.
  - pose proof (exp_pos a). lra.
  - pose proof (exp_pos a). pose proof (IH b). lra.
Qed.

Lemma softmax_row_sum (z : list R) : z <> [] -> Rsum (softmax_row z) = 1.
Proof.
  intros Hz. unfold softmax_row. cbv zeta. rewrite Rsum_map_div.
  pose proof (Rsum_exp_pos z Hz). field. lra.
Qed.

Lemma dense_softmax_sum (units : nat) (kernel : list (list R))
      (bias row : list R) :
  (1 <= units)%nat ->
  Rsum (dense_row units softmax kernel bias row) = 1.
Proof.
  intros Hu. unfold dense_row, activate. apply softmax_row_sum.
  destruct units as [|u]; [lia|]. discriminate.
Qed.

End Softmax.

(* ===================================================================== *)
(** * Blocks in a trace *)
(* ===================================================================== *)

Section Quiet.

Lemma blocks_of_app (t1 t2 : list event) :
  blocks_of (t1 ++ t2) = blocks_of t1 ++ blocks_of t2.
Proof.
  unfold blocks_of, calls. rewrite !flat_map_app. reflexivity.
Qed.

Context {A B : Type}.

Lemma quiet_bind (m : Build A) (f : A -> Build B) :
  quiet m -> (forall a, quiet (f a)) -> quiet (bind m f).
Proof.
  unfold quiet, bind. intros Hm Hf.
  destruct (value m) as [a|e]; cbn [trace].
  - rewrite blocks_of_app, Hm, Hf. reflexivity.
  - exact Hm.
Qed.

Lemma quiet_ret (a : A) : quiet (ret a).
Proof. reflexivity. Qed.

Lemma quiet_raise (e : exn) : quiet (@raise A e).
Proof. reflexivity. Qed.

Lemma quiet_lift (r : result A) : quiet (lift r).
Proof. reflexivity. Qed.

End Quiet.

Lemma quiet_apply (l : layer) (ins : list shape) : quiet (apply l ins).
Proof.
  unfold quiet, apply. destruct (compute_output_shape l ins); reflexivity.
Qed.

Lemma quiet_defined (d : dim) : quiet (defined d).
Proof. destruct d; reflexivity. Qed.

Lemma quiet_shape_at (x : shape) (i : nat) : quiet (shape_at x i).
Proof. unfold shape_at. destruct (nth_error x i); reflexivity. Qed.

Lemma quiet_mapM {A B} (body : A -> Build B) (l : list A) :
  (forall a, quiet (body a)) -> quiet (mapM body l).
Proof.
  intros H. induction l as [|a l IH]; cbn [mapM].
  - apply quiet_ret.
  - apply quiet_bind; [apply H|]. intros b.
    apply quiet_bind; [exact IH|]. intros bs. apply quiet_ret.
Qed.

Ltac quiet_step :=
  first [ apply quiet_ret | apply quiet_raise | apply quiet_lift
        | apply quiet_apply | apply quiet_defined | apply quiet_shape_at
        | reflexivity ].

Ltac quiet_tac :=
  repeat first [ quiet_step
               | apply quiet_bind; [|intros ?]
               | apply quiet_mapM; intros ? ].

Section ShuffleNetTrace.

Import ShuffleNet.

Lemma quiet_pw_group_conv (x : shape) (n_groups n_filters : Z) :
  quiet (pw_group_conv x n_groups n_filters).
Proof. unfold pw_group_conv. quiet_tac. Qed.

Lemma quiet_channel_shuffle (x : shape) (n_groups : Z) :
  quiet (channel_shuffle x n_groups).
Proof.
  unfold channel_shuffle. apply quiet_bind; [reflexivity|]. intros _.
  destruct x as [|b [|h [|w [|c [|? ?]]]]]; quiet_tac.
Qed.

Lemma blocks_of_strided_shuffle_block (x : shape) (n_groups n_filters : Z)
      (reduction : Q) :
  blocks_of (trace (strided_shuffle_block x n_groups n_filters reduction))
  = [shape_changing].
Proof.
  unfold strided_shuffle_block. rewrite bind_enter, trace_prefix.
  rewrite blocks_of_app. cbn [blocks_of calls flat_map block_of app].
  f_equal.
  repeat first [ quiet_step | apply quiet_pw_group_conv
               | apply quiet_channel_shuffle
               | apply quiet_bind; [|intros ?] ].
Qed.

Lemma blocks_of_shuffle_block (x : shape) (n_groups n_filters : Z)
      (reduction : Q) :
  blocks_of (trace (shuffle_block x n_groups n_filters reduction))
  = [identity_block].
Proof.
  unfold shuffle_block. rewrite bind_enter, trace_prefix.
  rewrite blocks_of_app. cbn [blocks_of calls flat_map block_of app].
  f_equal.
  repeat first [ quiet_step | apply quiet_pw_group_conv
               | apply quiet_channel_shuffle
               | apply quiet_bind; [|intros ?] ].
Qed.

Lemma blocks_of_repeatM (body : shape -> Build shape) (n : nat) (x : shape) :
  (forall x, blocks_of (trace (body x)) = [identity_block]) ->
  is_ok (value (repeatM n body x)) = true ->
  blocks_of (trace (repeatM n body x)) = List.repeat identity_block n.
Proof.
  intros Hbody. revert x. induction n as [|n IH]; intros x Hok.
  - reflexivity.
  - cbn [repeatM] in *. unfold bind in *.
    destruct (value (body x)) as [x'|e] eqn:E; cbn [value trace] in *.
    + rewrite blocks_of_app, Hbody, (IH x' Hok). reflexivity.
    + discriminate.
Qed.

Lemma blocks_of_shuffle_group (x : shape) (n_groups n_blocks n_filters : Z)
      (reduction : Q) :
  is_ok (value (shuffle_group x n_groups n_blocks n_filters reduction))
  = true ->
  blocks_of (trace (shuffle_group x n_groups n_blocks n_filters reduction))
  = stage_blocks n_blocks.
Proof.
  unfold shuffle_group. rewrite bind_enter, trace_prefix, value_prefix.
  rewrite blocks_of_app. change (blocks_of [Enter _]) with (@nil block_kind).
  cbn [app]. unfold bind at 1 3.
  destruct (value (strided_shuffle_block x n_groups n_filters reduction))
    as [x1|e] eqn:E1; cbn [value trace]; [|discriminate].
  rewrite bind_ret_r. intros Hok.
  rewrite blocks_of_app, blocks_of_strided_shuffle_block.
  rewrite blocks_of_repeatM; [reflexivity | | exact Hok].
  intros x'. apply blocks_of_shuffle_block.
Qed.

End ShuffleNetTrace.

Section SENetTrace.

Import SENet.

Lemma quiet_squeeze_excite_block (x : shape) (ratio : Z) :
  quiet (squeeze_excite_block x ratio).
Proof.
  unfold squeeze_excite_block, shape_last.
  apply quiet_bind; [reflexivity|]. intros _.
  apply quiet_bind; [destruct x; reflexivity|]. intros ?.
  quiet_tac.
Qed.

Lemma blocks_of_projection_block (n_filters : Z) (x : shape)
      (strides : Z * Z) (ratio : Z) :
  blocks_of (trace (projection_block n_filters x strides ratio))
  = [shape_changing].
Proof.
  unfold projection_block. rewrite bind_enter, trace_prefix.
  rewrite blocks_of_app. cbn [blocks_of calls flat_map block_of app].
  f_equal.
  repeat first [ quiet_step | apply quiet_squeeze_excite_block
               | apply quiet_bind; [|intros ?] ].
Qed.

Lemma blocks_of_bottleneck_block (n_filters : Z) (x : shape) (ratio : Z) :
  blocks_of (trace (bottleneck_block n_filters x ratio)) = [identity_block].
Proof.
  unfold bottleneck_block. rewrite bind_enter, trace_prefix.
  rewrite blocks_of_app. cbn [blocks_of calls flat_map block_of app].
  f_equal.
  repeat first [ quiet_step | apply quiet_squeeze_excite_block
               | apply quiet_bind; [|intros ?] ].
Qed.

Lemma blocks_of_senet_stage (n_filters : Z) (strides : Z * Z)
      (n_blocks ratio : Z) (x : shape) :
  is_ok (value (senet_stage n_filters strides n_blocks ratio x)) = true ->
  blocks_of (trace (senet_stage n_filters strides n_blocks ratio x))
  = stage_blocks n_blocks.
Proof.
  unfold senet_stage, bind.
  destruct (value (projection_block n_filters x strides ratio))
    as [x1|e] eqn:E1; cbn [value trace]; [|discriminate].
  intros Hok.
  rewrite blocks_of_app, blocks_of_projection_block.
  rewrite blocks_of_repeatM; [reflexivity | | exact Hok].
  intros x'. apply blocks_of_bottleneck_block.
Qed.

End SENetTrace.

Lemma length_stage_blocks (n_blocks : Z) :
  1 <= n_blocks -> Z.of_nat (length (stage_blocks n_blocks)) = n_blocks.
Proof.
  intros H. unfold stage_blocks. cbn [length]. rewrite repeat_length. lia.
Qed.

(* ===================================================================== *)
(** * When a block builds *)
(* ===================================================================== *)

Lemma value_bind_raise {A B} (m : Build A) (f : A -> Build B) (e : exn) :
  value m = Raise e -> value (bind m f) = Raise e.
Proof. intros H. rewrite (bind_raise _ _ _ H). reflexivity. Qed.

Lemma value_bind_apply_raise {B} (l : layer) (ins : list shape) (e : exn)
      (f : shape -> Build B) :
  compute_output_shape l ins = Raise e ->
  value (bind (apply l ins) f) = Raise e.
Proof. intros H. rewrite (bind_apply_raise _ _ _ _ H). reflexivity. Qed.

Section ConvBuilds.

Variables (d h w : dim) (c : Z).

(** A convolution with a filter count or a stride that is not positive is
    refused. *)
Lemma conv_refused (filters kh kw sh sw : Z) (p : padding) :
  filters <= 0 \/ sh <= 0 \/ sw <= 0 ->
  exists e,
    compute_output_shape (Conv2D filters (kh, kw) (sh, sw) p)
                         [[d; h; w; Some c]] = Raise e.
Proof.
  intros H.
  unfold compute_output_shape, one_input, window2d, fst, snd.
  destruct (conv_output_dim h kh sh p) as [h'|e] eqn:Eh;
    [|exists e; reflexivity].
  destruct (conv_output_dim w kw sw p) as [w'|e] eqn:Ew;
    [|exists e; reflexivity].
  unfold conv_channels.
  destruct (Z.leb_spec filters 0); [exists ValueError; reflexivity|].
  exfalso.
  unfold conv_output_dim, conv_output_length in Eh, Ew.
  destruct h, w, (Z.leb_spec sh 0), (Z.leb_spec sw 0);
    rewrite ?orb_true_r in *; try discriminate; lia.
Qed.

End ConvBuilds.

Section SENetBuilds.

Import SENet.

Variables (d h w : dim) (c ratio : Z).

Lemma squeeze_excite_block_builds_inv (y : shape) :
  0 < c ->
  value (squeeze_excite_block [d; h; w; Some c] ratio) = Ok y ->
  0 < ratio <= c.
Proof.
  intros Hc. unfold squeeze_excite_block.
  rewrite bind_enter, value_prefix.
  unfold shape_last. rewrite bind_ret. simpl last.
  layer (gap_shape d h w (Some c)). rewrite value_prefix.
  unfold defined. rewrite bind_ret.
  layer (reshape_11c_shape d c). rewrite value_prefix.
  unfold floordiv. destruct (Z.eqb_spec ratio 0) as [->|Hr0].
  - rewrite bind_lift_raise. discriminate.
  - rewrite bind_lift_ok.
    destruct (Z_lt_le_dec 0 (c / ratio)) as [Hq|Hq].
    + intros _.
      destruct (Z_lt_le_dec 0 ratio) as [Hr|Hr].
      * split; [exact Hr|].
        destruct (Z_le_gt_dec ratio c) as [|Hgt]; [assumption|].
        rewrite Z.div_small in Hq by lia. lia.
      * exfalso.
        pose proof (Z.div_mod c ratio Hr0) as E.
        pose proof (Z.mod_neg_bound c ratio ltac:(lia)) as Hm.
        nia.
    + assert (R : compute_output_shape (Dense (c / ratio) relu)
                    [[d; Some 1; Some 1; Some c]] = Raise ValueError).
      { unfold compute_output_shape, one_input, dense_layer.
        destruct (Z.leb_spec (c / ratio) 0); [reflexivity | lia]. }
      rewrite (value_bind_apply_raise _ _ _ _ R). discriminate.
Qed.

End SENetBuilds.

Section SENetResidualBuilds.

Import SENet.

Variables (d : dim) (h w c n_filters ratio : Z).
Hypothesis Hh : 1 <= h.
Hypothesis Hw : 1 <= w.

Lemma projection_block_builds_inv (sh sw : Z) (y : shape) :
  value (projection_block n_filters [d; Some h; Some w; Some c]
                          (sh, sw) ratio) = Ok y ->
  0 < n_filters /\ 0 < ratio <= 4 * n_filters /\ 0 < sh /\ 0 < sw.
Proof.
  unfold projection_block. rewrite bind_enter, value_prefix.
  destruct (Z_lt_le_dec 0 n_filters) as [Hn|Hn];
    [destruct (Z_lt_le_dec 0 sh) as [Hsh|Hsh];
     [destruct (Z_lt_le_dec 0 sw) as [Hsw|Hsw]|]|].
  - layer (conv_pointwise_shape d (Some h) (Some w) c (4 * n_filters) sh sw
             ltac:(lia) Hsh Hsw Hh Hw).
    same_shape.
    layer (conv_pointwise_shape d (Some h) (Some w) c n_filters sh sw
             Hn Hsh Hsw Hh Hw).
    do 2 same_shape.
    layer (conv_same_shape d (strided_dim sh (Some h))
             (strided_dim sw (Some w)) n_filters n_filters 3 3 1 1
             Hn ltac:(lia) ltac:(lia) ltac:(lia) ltac:(lia)).
    rewrite !strided_dim_1.
    do 2 same_shape.
    layer (conv_pointwise_shape d (strided_dim sh (Some h))
             (strided_dim sw (Some w)) n_filters (4 * n_filters) 1 1
             ltac:(lia) ltac:(lia) ltac:(lia)
             (pos_dim_strided (Some h) sh Hsh Hh)
             (pos_dim_strided (Some w) sw Hsw Hw)).
    rewrite !strided_dim_1.
    same_shape. rewrite !value_prefix.
    intros Hv. apply bind_inv in Hv. destruct Hv as (y1 & Hse & _).
    apply squeeze_excite_block_builds_inv in Hse; [|lia].
    repeat split; try assumption; apply Hse.
  - destruct (conv_refused d (Some h) (Some w) c (4 * n_filters) 1 1 sh sw valid
                ltac:(lia)) as [e He].
    rewrite (value_bind_apply_raise _ _ _ _ He). discriminate.
  - destruct (conv_refused d (Some h) (Some w) c (4 * n_filters) 1 1 sh sw valid
                ltac:(lia)) as [e He].
    rewrite (value_bind_apply_raise _ _ _ _ He). discriminate.
  - destruct (conv_refused d (Some h) (Some w) c (4 * n_filters) 1 1 sh sw valid
                ltac:(lia)) as [e He].
    rewrite (value_bind_apply_raise _ _ _ _ He). discriminate.
Qed.

Lemma bottleneck_block_builds_inv (y : shape) :
  value (bottleneck_block n_filters [d; Some h; Some w; Some c] ratio)
  = Ok y ->
  0 < n_filters /\ 0 < ratio <= 4 * n_filters.
Proof.
  unfold bottleneck_block. rewrite bind_enter, value_prefix.
  destruct (Z_lt_le_dec 0 n_filters) as [Hn|Hn].
  - layer (conv_pointwise_shape d (Some h) (Some w) c n_filters 1 1
             Hn ltac:(lia) ltac:(lia) Hh Hw).
    rewrite !strided_dim_1.
    do 2 same_shape.
    layer (conv_same_shape d (Some h) (Some w) n_filters n_filters 3 3 1 1
             Hn ltac:(lia) ltac:(lia) ltac:(lia) ltac:(lia)).
    rewrite !strided_dim_1.
    do 2 same_shape.
    layer (conv_pointwise_shape d (Some h) (Some w) n_filters
             (n_filters * 4) 1 1
             ltac:(lia) ltac:(lia) ltac:(lia) Hh Hw).
    rewrite !strided_dim_1.
    same_shape. rewrite !value_prefix.
    intros Hv. apply bind_inv in Hv. destruct Hv as (y1 & Hse & _).
    apply squeeze_excite_block_builds_inv in Hse; [|lia].
    split; [assumption | lia].
  - destruct (conv_refused d (Some h) (Some w) c n_filters 1 1 1 1 valid
                ltac:(lia)) as [e He].
    rewrite (value_bind_apply_raise _ _ _ _ He). discriminate.
Qed.

End SENetResidualBuilds.

Section ShuffleNetBuilds.

Import ShuffleNet.

Lemma range_cons (n : Z) :
  1 <= n -> exists rest, range n = 0 :: rest.
Proof.
  intros H. unfold range.
  destruct (Z.to_nat n) as [|k] eqn:E; [lia|].
  cbn [List.seq List.map]. eexists. reflexivity.
Qed.

Lemma range_nil (n : Z) : n <= 0 -> range n = [].
Proof.
  intros H. unfold range. replace (Z.to_nat n) with 0%nat by lia.
  reflexivity.
Qed.

Variables (d h w : dim).

Lemma pw_group_conv_builds_inv (c n_groups n_filters : Z) (y : shape) :
  value (pw_group_conv [d; h; w; Some c] n_groups n_filters) = Ok y ->
  1 <= n_groups /\ 1 <= grp_out_filters n_filters n_groups.
Proof.
  unfold pw_group_conv. rewrite bind_enter, value_prefix.
  unfold shape_at. cbn [nth_error]. rewrite bind_ret.
  unfold defined. rewrite bind_ret.
  unfold floordiv, truediv.
  destruct (Z.eqb_spec n_groups 0) as [->|Hg0];
    [rewrite bind_lift_raise; discriminate|].
  rewrite !bind_lift_ok. fold (grp_out_filters n_filters n_groups).
  destruct (Z_lt_le_dec n_groups 1) as [Hg|Hg].
  - rewrite (range_nil n_groups ltac:(lia)). cbn [mapM].
    rewrite bind_ret. discriminate.
  - destruct (Z_lt_le_dec (grp_out_filters n_filters n_groups) 1)
      as [Hk|Hk]; [|intros _; split; assumption].
    destruct (range_cons n_groups Hg) as [rest ->]. cbn [mapM].
    assert (S : compute_output_shape
                  (Lambda (slice_channels (c / n_groups * 0)
                                          (c / n_groups * (0 + 1))))
                  [[d; h; w; Some c]]
                = Ok [d; h; w; Some (slice_length c (c / n_groups * 0)
                                       (c / n_groups * (0 + 1)))])
      by reflexivity.
    destruct (conv_refused d h w
                (slice_length c (c / n_groups * 0) (c / n_groups * (0 + 1)))
                (grp_out_filters n_filters n_groups) 1 1 1 1 same
                ltac:(lia)) as [e He].
    rewrite (value_bind_raise _ _ e); [discriminate|].
    rewrite (value_bind_raise _ _ e); [reflexivity|].
    layer S. rewrite value_prefix.
    apply (value_bind_apply_raise _ _ _ _ He).
Qed.

End ShuffleNetBuilds.

Section ShuffleNetBlocksBuild.

Import ShuffleNet.

Variables (d : dim) (h w c n_groups n_filters : Z) (reduction : Q).
Hypothesis Hh : 0 < h.
Hypothesis Hw : 0 < w.

Lemma strided_shuffle_block_builds_inv (y : shape) :
  value (strided_shuffle_block [d; Some h; Some w; Some c]
                               n_groups n_filters reduction) = Ok y ->
  1 <= n_groups
  /\ 1 <= grp_out_filters (entry_filters reduction (n_filters - c)) n_groups
  /\ 1 <= grp_out_filters (n_filters - c) n_groups.
Proof.
  unfold strided_shuffle_block. rewrite bind_enter, value_prefix.
  layer (avgpool_same_shape d (Some h) (Some w) 3 3 2 2 (Some c)
           ltac:(lia) ltac:(lia) ltac:(lia) ltac:(lia)).
  unfold shape_at. cbn [nth_error]. rewrite bind_ret.
  unfold defined. rewrite bind_ret.
  fold (entry_filters reduction (n_filters - c)).
  rewrite !value_prefix.
  intros Hv. apply bind_inv in Hv. destruct Hv as (y1 & Hpw & Hv).
  destruct (pw_group_conv_builds_inv _ _ _ _ _ _ _ Hpw) as [Hg H1].
  assert (Ey : Ok y1
               = Ok [d; Some h; Some w;
                     Some (n_groups
                           * grp_out_filters
                               (entry_filters reduction (n_filters - c))
                               n_groups)]).
  { rewrite <- Hpw.
    exact (pw_group_conv_value d (Some h) (Some w) c n_groups _ Hg H1). }
  injection Ey as ->.
  split; [exact Hg|]. split; [exact H1|].
  revert Hv. rewrite bind_relu, value_prefix.
  rewrite (value_bind_ok _ _ _
             (channel_shuffle_value d h w
                (n_groups * grp_out_filters (entry_filters reduction (n_filters - c))
                                            n_groups)
                n_groups Hh Hw ltac:(nia) ltac:(lia)
                ltac:(eexists; apply Z.mul_comm))).
  layer (depthwise_same_shape d (Some h) (Some w)
           (n_groups * grp_out_filters
                         (entry_filters reduction (n_filters - c)) n_groups)
           3 3 2 2 ltac:(lia) ltac:(lia) ltac:(lia) ltac:(lia)).
  rewrite bind_bn, !value_prefix.
  intros Hv. apply bind_inv in Hv. destruct Hv as (y2 & Hpw2 & _).
  apply (pw_group_conv_builds_inv _ _ _ _ _ _ _ Hpw2).
Qed.

Lemma shuffle_block_builds_inv (y : shape) :
  value (shuffle_block [d; Some h; Some w; Some c]
                       n_groups n_filters reduction) = Ok y ->
  1 <= n_groups
  /\ 1 <= grp_out_filters (entry_filters reduction n_filters) n_groups
  /\ 1 <= grp_out_filters n_filters n_groups.
Proof.
  unfold shuffle_block. rewrite bind_enter, value_prefix.
  fold (entry_filters reduction n_filters).
  intros Hv. apply bind_inv in Hv. destruct Hv as (y1 & Hpw & Hv).
  destruct (pw_group_conv_builds_inv _ _ _ _ _ _ _ Hpw) as [Hg H1].
  assert (Ey : Ok y1
               = Ok [d; Some h; Some w;
                     Some (n_groups
                           * grp_out_filters
                               (entry_filters reduction n_filters)
                               n_groups)]).
  { rewrite <- Hpw.
    exact (pw_group_conv_value d (Some h) (Some w) c n_groups _ Hg H1). }
  injection Ey as ->.
  split; [exact Hg|]. split; [exact H1|].
  revert Hv. rewrite bind_relu, value_prefix.
  rewrite (value_bind_ok _ _ _
             (channel_shuffle_value d h w
                (n_groups * grp_out_filters (entry_filters reduction n_filters)
                                            n_groups)
                n_groups Hh Hw ltac:(nia) ltac:(lia)
                ltac:(eexists; apply Z.mul_comm))).
  layer (depthwise_same_shape d (Some h) (Some w)
           (n_groups * grp_out_filters
                         (entry_filters reduction n_filters) n_groups)
           3 3 1 1 ltac:(lia) ltac:(lia) ltac:(lia) ltac:(lia)).
  rewrite bind_bn, !value_prefix.
  intros Hv. apply bind_inv in Hv. destruct Hv as (y2 & Hpw2 & _).
  apply (pw_group_conv_builds_inv _ _ _ _ _ _ _ Hpw2).
Qed.

End ShuffleNetBlocksBuild.

(** The rounding is exact when the group count divides the filter count. *)
Lemma strided_target_met (c n_groups n_filters : Z) :
  1 <= n_groups ->
  1 <= grp_out_filters (n_filters - c) n_groups ->
  (n_groups | n_filters - c) ->
  c + n_groups * grp_out_filters (n_filters - c) n_groups = n_filters.
Proof.
  intros Hg H2 [k Hk].
  rewrite grp_out_filters_quot in * by lia.
  rewrite Hk in *.
  assert (Hk1 : 1 <= k).
  { destruct (Z_lt_le_dec k 1) as [Hlt|]; [|assumption]. exfalso.
    assert (Hq : Z.quot (2 * (k * n_groups) + n_groups) (2 * n_groups)
                 <= 0).
    { assert (E : 2 * (k * n_groups) + n_groups
                  = - ((- (2 * k + 1)) * n_groups)) by ring.
      destruct (Z.eq_dec k 0) as [->|].
      - rewrite Z.quot_small; lia.
      - rewrite E, Z.quot_opp_l by lia.
        assert (0 <= Z.quot (- (2 * k + 1) * n_groups) (2 * n_groups)).
        { apply Z.quot_pos; nia. }
        lia. }
    lia. }
  rewrite Z.quot_div_nonneg by nia.
  assert (E : (2 * (k * n_groups) + n_groups) / (2 * n_groups) = k).
  { symmetry. apply Z.div_unique with (r := n_groups); nia. }
  rewrite E. lia.
Qed.

(* ===================================================================== *)
(** * The claims *)
(* ===================================================================== *)


(** C4.  For a feature map with [c] channels and a ratio that divides [c],
    [squeeze_excite_block] adds exactly five layers: the first [Dense] layer
    has [c / ratio] units, an exact quotient, and the block returns a tensor
    of the shape of its input. *)
Theorem squeeze_excite_block_reduces_by_ratio (d h w : dim) (c ratio : Z) :
  0 < c -> 0 < ratio -> (ratio | c) ->
  value (SENet.squeeze_excite_block [d; h; w; Some c] ratio)
  = Ok [d; h; w; Some c]
  /\ layers (trace (SENet.squeeze_excite_block [d; h; w; Some c] ratio))
     = [ (GlobalAveragePooling2D, [d; Some c]);
         (Reshape [1; 1; c], [d; Some 1; Some 1; Some c]);
         (Dense (c / ratio) relu, [d; Some 1; Some 1; Some (c / ratio)]);
         (Dense c sigmoid, [d; Some 1; Some 1; Some c]);
         (Multiply, [d; h; w; Some c]) ]
  /\ c / ratio * ratio = c.
Proof.
  intros Hc Hr [k Hk].
  assert (H0 : 0 < k) by nia.
  assert (Hle : 0 < ratio <= c) by nia.
  rewrite (squeeze_excite_block_run d h w c ratio Hle).
  repeat split. subst c. rewrite Z.div_mul by lia. reflexivity.
Qed.

Lemma squeeze_excite_block_reduces_by_ratio_witness :
  0 < 256 /\ 0 < 16 /\ (16 | 256)
  /\ value (SENet.squeeze_excite_block
              [None; Some 56; Some 56; Some 256] 16)
     = Ok [None; Some 56; Some 56; Some 256].
Proof.
  assert (H1 : 0 < 256) by reflexivity.
  assert (H2 : 0 < 16) by reflexivity.
  assert (H3 : (16 | 256)) by (exists 16; reflexivity).
  split; [exact H1|]. split; [exact H2|]. split; [exact H3|].
  exact (proj1 (squeeze_excite_block_reduces_by_ratio
                  None (Some 56) (Some 56) 256 16 H1 H2 H3)).
Defined.

(** C8, as the specification states it, fails: with 24 channels and ratio
    16, which does not divide 24, the block is built and no exception is
    raised. *)
Lemma squeeze_excite_block_builds_without_divisibility :
  ~ (16 | 24)
  /\ SENet.squeeze_excite_block [None; Some 56; Some 56; Some 24] 16
     = mkBuild
         [ Enter (call_squeeze_excite_block
                    [None; Some 56; Some 56; Some 24] 16);
           Node GlobalAveragePooling2D [None; Some 24];
           Node (Reshape [1; 1; 24]) [None; Some 1; Some 1; Some 24];
           Node (Dense 1 relu) [None; Some 1; Some 1; Some 1];
           Node (Dense 24 sigmoid) [None; Some 1; Some 1; Some 24];
           Node Multiply [None; Some 56; Some 56; Some 24] ]
         (Ok [None; Some 56; Some 56; Some 24]).
Proof.
  split.
  - intros [k Hk]. lia.
  - reflexivity.
Qed.

(** C8, amended.  When the ratio is between 1 and the channel count [c] and
    does not divide [c], the floor division [filters // ratio] gives the
    first [Dense] layer fewer than [c / ratio] units in exact arithmetic,
    the second [Dense] layer restores [c] channels, and the block returns a
    tensor of the shape of its input: no exception is raised. *)
Theorem squeeze_excite_block_floors_the_reduction
        (d h w : dim) (c ratio : Z) :
  0 < ratio <= c -> ~ (ratio | c) ->
  value (SENet.squeeze_excite_block [d; h; w; Some c] ratio)
  = Ok [d; h; w; Some c]
  /\ layers (trace (SENet.squeeze_excite_block [d; h; w; Some c] ratio))
     = [ (GlobalAveragePooling2D, [d; Some c]);
         (Reshape [1; 1; c], [d; Some 1; Some 1; Some c]);
         (Dense (c / ratio) relu, [d; Some 1; Some 1; Some (c / ratio)]);
         (Dense c sigmoid, [d; Some 1; Some 1; Some c]);
         (Multiply, [d; h; w; Some c]) ]
  /\ 1 <= c / ratio /\ c / ratio * ratio < c.
Proof.
  intros Hle Hndiv.
  rewrite (squeeze_excite_block_run d h w c ratio Hle).
  split; [reflexivity|]. split; [reflexivity|]. split.
  - apply Z.div_le_lower_bound; lia.
  - pose proof (Z.mul_div_le c ratio ltac:(lia)) as Hfloor.
    assert (c / ratio * ratio <> c).
    { intros E. apply Hndiv. exists (c / ratio). lia. }
    lia.
Qed.

Lemma squeeze_excite_block_floors_the_reduction_witness :
  0 < 16 <= 24 /\ ~ (16 | 24)
  /\ value (SENet.squeeze_excite_block [None; Some 56; Some 56; Some 24] 16)
     = Ok [None; Some 56; Some 56; Some 24].
Proof.
  assert (H1 : 0 < 16 <= 24) by (split; [reflexivity | discriminate]).
  assert (H2 : ~ (16 | 24)) by (intros [k Hk]; lia).
  split; [exact H1|]. split; [exact H2|].
  exact (proj1 (squeeze_excite_block_floors_the_reduction
                  None (Some 56) (Some 56) 24 16 H1 H2)).
Defined.

Section EagerClaims.

Import Eager.
Open Scope nat_scope.

(** C2.  On a feature map whose channel count [n] is a multiple of the group
    count [G], [channel_shuffle] returns a tensor of the same shape whose
    channels are those of the input moved by [shuffle_index]: the input
    channel [g * (n / G) + j] is the output channel [j * G + g], at every
    position of batch, height and width.  [shuffle_index] is a bijection
    of the channel indices, with inverse [unshuffle_index].  The graph
    builder gives the same static shape. *)
Theorem channel_shuffle_is_index_permutation
        (A : Type) (zero : A) (x : tensor A) (b h w n G : nat) :
  tshape x = [b; h; w; n] ->
  0 < h -> 0 < w -> 0 < n -> 0 < G -> Nat.divide G n ->
  exists y,
    channel_shuffle zero x (Z.of_nat G) = Ok y
    /\ tshape y = tshape x
    /\ length (tdata y) = b * h * w * n
    /\ (forall p c, p < b * h * w -> c < n ->
          List.nth (p * n + shuffle_index n G c) (tdata y) zero
          = List.nth (p * n + c) (tdata x) zero)
    /\ (forall g j, g < G -> j < n / G ->
          shuffle_index n G (g * (n / G) + j) = j * G + g)
    /\ (forall c, c < n ->
          shuffle_index n G c < n
          /\ unshuffle_index n G (shuffle_index n G c) = c
          /\ shuffle_index n G (unshuffle_index n G c) = c)
    /\ value (ShuffleNet.channel_shuffle (static_shape x) (Z.of_nat G))
       = Ok (static_shape y).
Proof.
  intros Hx Hh Hw Hn HG [gi Hgi].
  assert (Hgi0 : 0 < gi) by nia.
  assert (En : n = G * gi) by lia. clear Hgi. subst n.
  exists (mkTensor [b; h; w; G * gi] (shuffled A zero b h w G gi (tdata x))).
  split; [apply (channel_shuffle_run A zero x b h w G gi); assumption|].
  cbn [tshape tdata].
  split; [symmetry; exact Hx|].
  split; [apply shuffled_length|].
  split; [intros p c Hp Hc;
          apply (shuffled_channel G gi HG Hgi0 A zero b h w); assumption|].
  split.
  { intros g j Hg Hj. rewrite (per_group_eq G gi HG Hgi0) in Hj |- *.
    exact (shuffle_index_pair G gi HG Hgi0 g j Hg Hj). }
  split.
  { intros c Hc. split; [|split].
    - apply shuffle_index_bound; assumption.
    - apply unshuffle_shuffle; assumption.
    - apply shuffle_unshuffle; assumption. }
  unfold static_shape. rewrite Hx. cbn [tshape List.map].
  apply channel_shuffle_value; try lia.
  exists (Z.of_nat gi). lia.
Qed.

Lemma channel_shuffle_is_index_permutation_witness :
  Nat.divide 2 6
  /\ exists y,
       channel_shuffle 0%Z
         (mkTensor [1; 1; 2; 6] [0; 1; 2; 3; 4; 5; 6; 7; 8; 9; 10; 11]%Z) 2
       = Ok y
       /\ tshape y = [1; 1; 2; 6].
Proof.
  assert (Hd : Nat.divide 2 6) by (exists 3; reflexivity).
  split; [exact Hd|].
  destruct (channel_shuffle_is_index_permutation Z 0%Z
              (mkTensor [1; 1; 2; 6] [0; 1; 2; 3; 4; 5; 6; 7; 8; 9; 10; 11]%Z)
              1 1 2 6 2 eq_refl
              (Nat.lt_0_succ 0) (Nat.lt_0_succ 1) (Nat.lt_0_succ 5)
              (Nat.lt_0_succ 1) Hd)
    as (y & Hy & Hs & _).
  exists y. split; [exact Hy | exact Hs].
Defined.

(** C3, as the specification states it, fails: with 6 channels in 2 groups,
    shuffling twice leaves channel 1 in channel 4. *)
Lemma channel_shuffle_twice_is_not_identity :
  Nat.divide 2 6
  /\ bindR (channel_shuffle 0%Z (mkTensor [1; 1; 1; 6] [0; 1; 2; 3; 4; 5]%Z) 2)
           (fun y => channel_shuffle 0%Z y 2)
     = Ok (mkTensor [1; 1; 1; 6] [0; 4; 3; 2; 1; 5]%Z)
  /\ bindR (channel_shuffle 0%Z (mkTensor [1; 1; 1; 6] [0; 1; 2; 3; 4; 5]%Z) 2)
           (fun y => channel_shuffle 0%Z y 2)
     <> Ok (mkTensor [1; 1; 1; 6] [0; 1; 2; 3; 4; 5]%Z).
Proof.
  split; [exists 3; reflexivity|].
  split; [vm_compute; reflexivity|].
  vm_compute. discriminate.
Qed.

(** C3, amended.  For 2 groups and an even channel count [2 * gi]: shuffling
    with 2 groups and then with [gi] groups gives back the tensor; shuffling
    twice with 2 groups gives it back when the channel count is 2 or 4; with
    6 channels or more, shuffling twice with 2 groups moves channel 1 to
    channel 4. *)
Theorem channel_shuffle_two_groups_inverse
        (A : Type) (zero : A) (x : tensor A) (b h w gi : nat) :
  tshape x = [b; h; w; 2 * gi] -> well_formed x ->
  0 < h -> 0 < w -> 0 < gi ->
  bindR (channel_shuffle zero x 2)
        (fun y => channel_shuffle zero y (Z.of_nat gi)) = Ok x
  /\ (gi <= 2 ->
      bindR (channel_shuffle zero x 2) (fun y => channel_shuffle zero y 2)
      = Ok x)
  /\ (3 <= gi ->
      exists z,
        bindR (channel_shuffle zero x 2) (fun y => channel_shuffle zero y 2)
        = Ok z
        /\ forall p, p < b * h * w ->
             List.nth (p * (2 * gi) + 4) (tdata z) zero
             = List.nth (p * (2 * gi) + 1) (tdata x) zero).
Proof.
  intros Hx Hwf Hh Hw Hgi.
  destruct x as [s data]. cbn [tshape tdata] in *. subst s.
  unfold well_formed, size in Hwf. cbn [tshape tdata fold_right] in Hwf.
  assert (Hlen : length data = b * h * w * (2 * gi)) by lia.
  change 2%Z with (Z.of_nat 2).
  set (y := mkTensor [b; h; w; 2 * gi] (shuffled A zero b h w 2 gi data)).
  assert (R1 : channel_shuffle zero (mkTensor [b; h; w; 2 * gi] data)
                               (Z.of_nat 2) = Ok y).
  { exact (channel_shuffle_run A zero (mkTensor [b; h; w; 2 * gi] data)
             b h w 2 gi eq_refl Hh Hw (Nat.lt_0_succ 1) Hgi). }
  rewrite R1. cbn [bindR].
  split; [|split].
  - assert (Hy : tshape y = [b; h; w; gi * 2])
      by (unfold y; cbn [tshape]; rewrite (Nat.mul_comm gi 2); reflexivity).
    rewrite (channel_shuffle_run A zero y b h w gi 2 Hy Hh Hw Hgi
               (Nat.lt_0_succ 1)).
    unfold y. cbn [tdata]. rewrite (Nat.mul_comm gi 2).
    rewrite (shuffled_inverse A zero b h w 2 gi (Nat.lt_0_succ 1) Hgi
               data Hlen).
    reflexivity.
  - intros Hle.
    assert (Hy : tshape y = [b; h; w; 2 * gi]) by reflexivity.
    rewrite (channel_shuffle_run A zero y b h w 2 gi Hy Hh Hw
               (Nat.lt_0_succ 1) Hgi).
    unfold y. cbn [tdata]. do 2 f_equal.
    assert (Hcases : gi = 1 \/ gi = 2) by lia.
    destruct Hcases as [-> | ->].
    + rewrite (shuffled_single A zero b h w 2 data (Nat.lt_0_succ 1) Hlen).
      apply (shuffled_single A zero b h w 2 data (Nat.lt_0_succ 1) Hlen).
    + apply (shuffled_inverse A zero b h w 2 2 (Nat.lt_0_succ 1)
               (Nat.lt_0_succ 1) data Hlen).
  - intros Hge.
    assert (Hy : tshape y = [b; h; w; 2 * gi]) by reflexivity.
    rewrite (channel_shuffle_run A zero y b h w 2 gi Hy Hh Hw
               (Nat.lt_0_succ 1) Hgi).
    eexists. split; [reflexivity|]. unfold y. cbn [tdata]. intros p Hp.
    replace (p * (2 * gi) + 4) with (p * (2 * gi) + 2 * 2 + 0) by lia.
    rewrite (shuffled_nth A zero b h w 2 gi p 0 2 _ Hp
               (Nat.lt_0_succ 1) ltac:(lia)).
    replace (p * (2 * gi) + 0 * gi + 2) with (p * (2 * gi) + 1 * 2 + 0)
      by lia.
    rewrite (shuffled_nth A zero b h w 2 gi p 0 1 _ Hp
               (Nat.lt_0_succ 1) ltac:(lia)).
    f_equal. lia.
Qed.

Lemma channel_shuffle_two_groups_inverse_witness :
  well_formed (mkTensor [1; 1; 1; 6] [0; 1; 2; 3; 4; 5]%Z)
  /\ bindR (channel_shuffle 0%Z
              (mkTensor [1; 1; 1; 6] [0; 1; 2; 3; 4; 5]%Z) 2)
           (fun y => channel_shuffle 0%Z y 3)
     = Ok (mkTensor [1; 1; 1; 6] [0; 1; 2; 3; 4; 5]%Z).
Proof.
  assert (Hwf : well_formed (mkTensor [1; 1; 1; 6] [0; 1; 2; 3; 4; 5]%Z))
    by reflexivity.
  split; [exact Hwf|].
  exact (proj1 (channel_shuffle_two_groups_inverse Z 0%Z
                  (mkTensor [1; 1; 1; 6] [0; 1; 2; 3; 4; 5]%Z) 1 1 1 3
                  eq_refl Hwf (Nat.lt_0_succ 0) (Nat.lt_0_succ 0)
                  (Nat.lt_0_succ 2))).
Defined.



End EagerClaims.

(** C6.  A stage configured with [n_blocks >= 1] blocks that is built
    without an exception consists of exactly [n_blocks] blocks: one
    shape-changing block, then [n_blocks - 1] identity blocks.  This holds
    for [shuffle_group] and for the stage pattern of se_resnet50.py, whose
    module-level code is the sequence of four such stages; the graphs built
    at module load have the blocks of stages of 3, 4, 6, 3 blocks
    (SE-ResNet50) and of [blocks = [4, 8, 4]] (ShuffleNet). *)
Theorem stage_is_one_shape_changing_block_then_identity_blocks
        (n_blocks : Z) :
  1 <= n_blocks ->
  (forall x n_groups n_filters reduction,
      is_ok (value (ShuffleNet.shuffle_group x n_groups n_blocks n_filters
                                             reduction)) = true ->
      blocks_of (trace (ShuffleNet.shuffle_group x n_groups n_blocks
                                                 n_filters reduction))
      = shape_changing
          :: List.repeat identity_block (Z.to_nat (n_blocks - 1)))
  /\ (forall n_filters strides ratio x,
         is_ok (value (senet_stage n_filters strides n_blocks ratio x))
         = true ->
         blocks_of (trace (senet_stage n_filters strides n_blocks ratio x))
         = shape_changing
             :: List.repeat identity_block (Z.to_nat (n_blocks - 1)))
  /\ Z.of_nat (length (shape_changing
                         :: List.repeat identity_block
                                        (Z.to_nat (n_blocks - 1))))
     = n_blocks
  /\ SENet.model None = senet_by_stages None
  /\ blocks_of (trace (SENet.model None))
     = List.flat_map stage_blocks [3; 4; 6; 3]
  /\ blocks_of (trace (ShuffleNet.model None))
     = List.flat_map stage_blocks ShuffleNet.blocks.
Proof.
  intros Hn.
  split; [intros; apply blocks_of_shuffle_group; assumption|].
  split; [intros; apply blocks_of_senet_stage; assumption|].
  split; [apply (length_stage_blocks n_blocks Hn)|].
  split; [vm_compute; reflexivity|].
  split; vm_compute; reflexivity.
Qed.

Lemma stage_is_one_shape_changing_block_then_identity_blocks_witness :
  1 <= 4
  /\ blocks_of (trace (ShuffleNet.shuffle_group
                         [None; Some 56; Some 56; Some 24] 2 4 200 (1 # 4)))
     = [shape_changing; identity_block; identity_block; identity_block].
Proof.
  assert (H : 1 <= 4) by discriminate.
  split; [exact H|].
  exact (proj1 (stage_is_one_shape_changing_block_then_identity_blocks 4 H)
               [None; Some 56; Some 56; Some 24] 2 200 (1 # 4) eq_refl).
Defined.

(** C9.  In the SE-ResNet50 graph built at module load,
    [squeeze_excite_block] is called 16 times, always with ratio 16, on
    256 channels (3 times), 512 (4 times), 1024 (6 times) and 2048
    (3 times).  Each of these channel counts is a multiple of 16, so
    [filters // ratio] is an exact quotient at every call. *)
Theorem senet_squeeze_excite_call_sites :
  is_ok (value (SENet.model None)) = true
  /\ squeeze_excite_calls (trace (SENet.model None))
     = List.repeat (Some 256, 16) 3 ++ List.repeat (Some 512, 16) 4
       ++ List.repeat (Some 1024, 16) 6 ++ List.repeat (Some 2048, 16) 3
  /\ Forall (fun site =>
               exists c, fst site = Some c
                         /\ In c [256; 512; 1024; 2048]
                         /\ snd site = SENet.ratio
                         /\ (snd site | c)
                         /\ floordiv c (snd site) = Ok (c / 16)
                         /\ c / 16 * snd site = c)
            (squeeze_excite_calls (trace (SENet.model None))).
Proof.
  split; [vm_compute; reflexivity|].
  assert (E : squeeze_excite_calls (trace (SENet.model None))
              = List.repeat (Some 256, 16) 3 ++ List.repeat (Some 512, 16) 4
                ++ List.repeat (Some 1024, 16) 6
                ++ List.repeat (Some 2048, 16) 3)
    by (vm_compute; reflexivity).
  split; [exact E|].
  rewrite E. cbn [List.repeat app].
  repeat (apply Forall_cons;
          [eexists; cbn [fst snd];
           split; [reflexivity|];
           split; [cbn [In]; tauto|];
           split; [reflexivity|];
           split; [apply Z.mod_divide; [discriminate | reflexivity]|];
           split; reflexivity|]).
  apply Forall_nil.
Qed.

(** C10.  In the ShuffleNet graph built at module load, [pw_group_conv] is
    called 32 times and [channel_shuffle] 16 times, always with 2 groups and
    always on an even number of channels; at every call of [pw_group_conv]
    the slices cover all the input channels, the rounding
    [int(n_filters / n_groups + 0.5)] is exact, and the function returns a
    tensor with exactly [n_filters] channels. *)
Theorem shufflenet_group_call_sites :
  is_ok (value (ShuffleNet.model None)) = true
  /\ length (pw_group_conv_calls (trace (ShuffleNet.model None))) = 32%nat
  /\ length (channel_shuffle_calls (trace (ShuffleNet.model None))) = 16%nat
  /\ Forall (fun site =>
               let '(x, n_groups, n_filters) := site in
               n_groups = ShuffleNet.n_groups
               /\ exists c, channels x = Some c
                            /\ (2 | c)
                            /\ c / n_groups * n_groups = c
                            /\ grp_out_filters n_filters n_groups * n_groups
                               = n_filters
                            /\ value (ShuffleNet.pw_group_conv
                                        x n_groups n_filters)
                               = Ok (List.removelast x ++ [Some n_filters]))
            (pw_group_conv_calls (trace (ShuffleNet.model None)))
  /\ Forall (fun site =>
               snd site = ShuffleNet.n_groups
               /\ exists c, fst site = Some c /\ (2 | c))
            (channel_shuffle_calls (trace (ShuffleNet.model None))).
Proof.
  split; [vm_compute; reflexivity|].
  split; [vm_compute; reflexivity|].
  split; [vm_compute; reflexivity|].
  split.
  - set (l := pw_group_conv_calls (trace (ShuffleNet.model None))).
    vm_compute in l. subst l.
    repeat (apply Forall_cons;
            [split; [reflexivity|];
             eexists;
             split; [reflexivity|];
             split; [apply Z.mod_divide; [discriminate | reflexivity]|];
             split; [reflexivity|];
             split; [reflexivity|];
             vm_compute; reflexivity|]).
    apply Forall_nil.
  - set (l := channel_shuffle_calls (trace (ShuffleNet.model None))).
    vm_compute in l. subst l.
    repeat (apply Forall_cons;
            [split; [reflexivity|];
             eexists;
             split; [reflexivity|];
             apply Z.mod_divide; [discriminate | reflexivity]|]).
    apply Forall_nil.
Qed.




(* ===================================================================== *)
(** * Further properties of the builders *)
(* ===================================================================== *)

(** Halving twice, rounding up each time, is dividing by 4, rounding up. *)
Lemma ceil_half_half (n : Z) :
  ((n + 2 - 1) / 2 + 2 - 1) / 2 = (n + 3) / 4.
Proof. Z.div_mod_to_equations. lia. Qed.

Section Stems.

Variables (batch : dim) (h w c : Z).
Hypothesis Hh : 1 <= h.
Hypothesis Hw : 1 <= w.

Lemma senet_stem_shape :
  value (SENet.stem [batch; Some h; Some w; Some c])
  = Ok [batch; Some ((h + 3) / 4); Some ((w + 3) / 4); Some 64].
Proof.
  unfold SENet.stem. rewrite bind_enter, value_prefix.
  assert (P1 : compute_output_shape (ZeroPadding2D (3, 3))
                 [[batch; Some h; Some w; Some c]]
               = Ok [batch; Some (h + 2 * 3); Some (w + 2 * 3); Some c])
    by reflexivity.
  layer P1.
  assert (C1 : compute_output_shape (Conv2D 64 (7, 7) (2, 2) valid)
                 [[batch; Some (h + 2 * 3); Some (w + 2 * 3); Some c]]
               = Ok [batch; Some ((h + 2 - 1) / 2); Some ((w + 2 - 1) / 2);
                     Some 64]).
  { unfold compute_output_shape, one_input, window2d, fst, snd,
      conv_output_dim, conv_output_length.
    cbn [Z.leb Z.compare orb].
    destruct (Z.ltb_spec (h + 2 * 3) 7); [lia|].
    destruct (Z.ltb_spec (w + 2 * 3) 7); [lia|].
    cbn [conv_channels Z.leb Z.compare].
    assert (E : forall n, (n + 2 * 3 - 7 + 1 + 2 - 1) / 2 = (n + 2 - 1) / 2)
      by (intros n; f_equal; lia).
    rewrite !E. reflexivity. }
  layer C1. do 2 same_shape.
  assert (P2 : compute_output_shape (ZeroPadding2D (1, 1))
                 [[batch; Some ((h + 2 - 1) / 2); Some ((w + 2 - 1) / 2);
                   Some 64]]
               = Ok [batch; Some ((h + 2 - 1) / 2 + 2 * 1);
                     Some ((w + 2 - 1) / 2 + 2 * 1); Some 64])
    by reflexivity.
  layer P2.
  assert (M : compute_output_shape (MaxPooling2D (3, 3) (2, 2) valid)
                [[batch; Some ((h + 2 - 1) / 2 + 2 * 1);
                  Some ((w + 2 - 1) / 2 + 2 * 1); Some 64]]
              = Ok [batch; Some ((h + 3) / 4); Some ((w + 3) / 4); Some 64]).
  { unfold compute_output_shape, one_input, window2d, fst, snd,
      conv_output_dim, conv_output_length.
    cbn [Z.leb Z.compare orb].
    assert (1 <= (h + 2 - 1) / 2) by (apply Z.div_le_lower_bound; lia).
    assert (1 <= (w + 2 - 1) / 2) by (apply Z.div_le_lower_bound; lia).
    destruct (Z.ltb_spec ((h + 2 - 1) / 2 + 2 * 1) 3); [lia|].
    destruct (Z.ltb_spec ((w + 2 - 1) / 2 + 2 * 1) 3); [lia|].
    assert (E : forall n, ((n + 2 - 1) / 2 + 2 * 1 - 3 + 1 + 2 - 1) / 2
                          = (n + 3) / 4)
      by (intros n; Z.div_mod_to_equations; lia).
    rewrite !E. reflexivity. }
  layer M. reflexivity.
Qed.

Lemma shufflenet_stem_shape :
  value (ShuffleNet.stem [batch; Some h; Some w; Some c])
  = Ok [batch; Some ((h + 3) / 4); Some ((w + 3) / 4); Some 24].
Proof.
  unfold ShuffleNet.stem. rewrite bind_enter, value_prefix.
  layer (conv_same_shape batch (Some h) (Some w) c 24 3 3 2 2
           ltac:(lia) ltac:(lia) ltac:(lia) ltac:(lia) ltac:(lia)).
  do 2 same_shape.
  assert (M : compute_output_shape (MaxPooling2D (3, 3) (2, 2) same)
                [[batch; strided_dim 2 (Some h); strided_dim 2 (Some w);
                  Some 24]]
              = Ok [batch; Some ((h + 3) / 4); Some ((w + 3) / 4); Some 24]).
  { unfold compute_output_shape, one_input, window2d, fst, snd.
    rewrite !conv_output_dim_same by lia.
    unfold strided_dim, option_map. rewrite !ceil_half_half. reflexivity. }
  layer M. reflexivity.
Qed.

End Stems.

Lemma window2d_unknown_channels (b h w : dim) (k s : Z * Z) (p : padding)
      (filters : Z) :
  window2d [b; h; w; None] k s p (conv_channels filters) = Raise ValueError.
Proof.
  unfold window2d, conv_output_dim, conv_output_length.
  destruct h as [h|], w as [w|], p;
    repeat match goal with
           | |- context [if ?t then _ else _] => destruct t
           end; reflexivity.
Qed.

Lemma senet_stem_refuses (x : shape) :
  length x <> 4%nat \/ List.nth_error x 3 = Some None ->
  value (SENet.stem x) = Raise ValueError.
Proof.
  intros H. unfold SENet.stem. rewrite bind_enter, value_prefix.
  destruct x as [|b [|h [|w [|c [|? ?]]]]];
    try (apply value_bind_apply_raise; reflexivity).
  destruct H as [H|H]; [contradiction H; reflexivity|].
  injection H as ->.
  assert (P1 : compute_output_shape (ZeroPadding2D (3, 3)) [[b; h; w; None]]
               = Ok [b; option_map (fun n => n + 2 * 3) h;
                     option_map (fun n => n + 2 * 3) w; None])
    by reflexivity.
  layer P1. rewrite value_prefix.
  apply value_bind_apply_raise. apply window2d_unknown_channels.
Qed.

Lemma shufflenet_stem_refuses (x : shape) :
  length x <> 4%nat \/ List.nth_error x 3 = Some None ->
  value (ShuffleNet.stem x) = Raise ValueError.
Proof.
  intros H. unfold ShuffleNet.stem. rewrite bind_enter, value_prefix.
  destruct x as [|b [|h [|w [|c [|? ?]]]]];
    try (apply value_bind_apply_raise; reflexivity).
  destruct H as [H|H]; [contradiction H; reflexivity|].
  injection H as ->.
  apply value_bind_apply_raise. apply window2d_unknown_channels.
Qed.

Section ClassifierHead.

Variables (b h w : dim).

Lemma classifier_run (c n_classes : Z) :
  1 <= n_classes ->
  SENet.classifier [b; h; w; Some c] n_classes
  = mkBuild [ Enter (call_classifier [b; h; w; Some c] n_classes);
              Node GlobalAveragePooling2D [b; Some c];
              Node (Dense n_classes softmax) [b; Some n_classes] ]
            (Ok [b; Some n_classes]).
Proof.
  intros H. unfold SENet.classifier. rewrite bind_enter.
  layer (gap_shape b h w (Some c)).
  layer (dense_shape2 b n_classes c softmax ltac:(lia)).
  rewrite !prefix_ret. reflexivity.
Qed.

Lemma classifier_refuses (x : shape) (n_classes : Z) :
  length x <> 4%nat \/ List.nth_error x 3 = Some None ->
  value (SENet.classifier x n_classes) = Raise ValueError.
Proof.
  intros H. unfold SENet.classifier. rewrite bind_enter, value_prefix.
  destruct x as [|b0 [|h0 [|w0 [|c0 [|? ?]]]]];
    try (apply value_bind_apply_raise; reflexivity).
  destruct H as [H|H]; [contradiction H; reflexivity|].
  injection H as ->.
  layer (gap_shape b0 h0 w0 None). rewrite value_prefix.
  apply value_bind_apply_raise.
  unfold compute_output_shape, one_input, dense_layer.
  destruct (n_classes <=? 0); reflexivity.
Qed.

End ClassifierHead.

Section SqueezeExciteErrors.

Import SENet.

Variables (d h w : dim) (c : Z).

Lemma squeeze_excite_block_zero_ratio :
  squeeze_excite_block [d; h; w; Some c] 0
  = mkBuild [ Enter (call_squeeze_excite_block [d; h; w; Some c] 0);
              Node GlobalAveragePooling2D [d; Some c];
              Node (Reshape [1; 1; c]) [d; Some 1; Some 1; Some c] ]
            (Raise ZeroDivisionError).
Proof.
  unfold squeeze_excite_block. rewrite bind_enter.
  unfold shape_last. rewrite bind_ret. simpl last.
  layer (gap_shape d h w (Some c)).
  unfold defined. rewrite bind_ret.
  layer (reshape_11c_shape d c).
  unfold floordiv. cbn [Z.eqb]. rewrite bind_lift_raise.
  rewrite !prefix_raise. reflexivity.
Qed.

Lemma squeeze_excite_block_negative_ratio (ratio : Z) :
  0 <= c -> ratio < 0 ->
  value (squeeze_excite_block [d; h; w; Some c] ratio) = Raise ValueError.
Proof.
  intros Hc Hr. unfold squeeze_excite_block.
  rewrite bind_enter, value_prefix.
  unfold shape_last. rewrite bind_ret. simpl last.
  layer (gap_shape d h w (Some c)). rewrite value_prefix.
  unfold defined. rewrite bind_ret.
  layer (reshape_11c_shape d c). rewrite value_prefix.
  unfold floordiv. destruct (Z.eqb_spec ratio 0); [lia|].
  rewrite bind_lift_ok.
  apply value_bind_apply_raise.
  unfold compute_output_shape, one_input, dense_layer.
  assert (c / ratio <= 0).
  { pose proof (Z.div_mod c ratio ltac:(lia)).
    pose proof (Z.mod_neg_bound c ratio ltac:(lia)). nia. }
  destruct (Z.leb_spec (c / ratio) 0); [reflexivity | lia].
Qed.

Lemma squeeze_excite_block_unknown_channels (ratio : Z) :
  squeeze_excite_block [d; h; w; None] ratio
  = mkBuild [ Enter (call_squeeze_excite_block [d; h; w; None] ratio);
              Node GlobalAveragePooling2D [d; None] ]
            (Raise TypeError).
Proof. reflexivity. Qed.

End SqueezeExciteErrors.

Section AddMismatch.

Variables (d h w : dim).

Lemma add_mismatch_shape (l : layer) (c c' : Z) :
  l = Add \/ l = Multiply ->
  c <> c' -> c <> 1 -> c' <> 1 ->
  compute_output_shape l [[d; h; w; Some c]; [d; h; w; Some c']]
  = Raise ValueError.
Proof.
  intros Hl Hne H1 H1'.
  assert (E : merge_layer [[d; h; w; Some c]; [d; h; w; Some c']]
              = Raise ValueError).
  { unfold merge_layer. simpl existsb. cbv iota.
    rewrite merge_batch_same.
    unfold merge_tails, elemwise_output_shape. cbn -[broadcast_dim].
    rewrite !broadcast_dim_refl. unfold broadcast_dim.
    destruct (Z.eqb_spec c 1); [contradiction|].
    destruct (Z.eqb_spec c' 1); [contradiction|].
    destruct (Z.eqb_spec c c'); [contradiction|]. reflexivity. }
  destruct Hl as [-> | ->]; exact E.
Qed.

Lemma add_broadcast_shape (c' : Z) :
  compute_output_shape Add [[d; h; w; Some 1]; [d; h; w; Some c']]
  = Ok [d; h; w; Some c'].
Proof.
  unfold compute_output_shape, merge_layer. simpl existsb. cbv iota.
  rewrite merge_batch_same.
  unfold merge_tails, elemwise_output_shape. cbn -[broadcast_dim].
  rewrite !broadcast_dim_refl. reflexivity.
Qed.

End AddMismatch.

Section BottleneckMismatch.

Import SENet.

Variables (d : dim) (h w n_filters ratio : Z).
Hypothesis Hh : 1 <= h.
Hypothesis Hw : 1 <= w.
Hypothesis Hn : 0 < n_filters.
Hypothesis Hratio : 0 < ratio <= 4 * n_filters.

(** The bottleneck block up to its addition. *)
Lemma bottleneck_block_to_add (c : Z) :
  value (bottleneck_block n_filters [d; Some h; Some w; Some c] ratio)
  = value (x <- apply Add [[d; Some h; Some w; Some c];
                           [d; Some h; Some w; Some (4 * n_filters)]] ;;
           x <- apply ReLU [x] ;;
           ret x).
Proof.
  unfold bottleneck_block. rewrite bind_enter.
  layer (conv_pointwise_shape d (Some h) (Some w) c n_filters 1 1
           Hn ltac:(lia) ltac:(lia) Hh Hw).
  rewrite !strided_dim_1.
  do 2 same_shape.
  layer (conv_same_shape d (Some h) (Some w) n_filters n_filters 3 3 1 1
           Hn ltac:(lia) ltac:(lia) ltac:(lia) ltac:(lia)).
  rewrite !strided_dim_1.
  do 2 same_shape.
  layer (conv_pointwise_shape d (Some h) (Some w) n_filters (n_filters * 4)
           1 1 ltac:(lia) ltac:(lia) ltac:(lia) Hh Hw).
  rewrite !strided_dim_1.
  same_shape.
  rewrite (Z.mul_comm n_filters 4).
  rewrite (bind_run _ _ _ _
             (squeeze_excite_block_run d (Some h) (Some w) (4 * n_filters)
                ratio Hratio)).
  reflexivity.
Qed.

Lemma bottleneck_block_mismatch (c : Z) :
  c <> 4 * n_filters -> c <> 1 ->
  value (bottleneck_block n_filters [d; Some h; Some w; Some c] ratio)
  = Raise ValueError.
Proof.
  intros Hc H1. rewrite bottleneck_block_to_add.
  apply value_bind_apply_raise.
  apply add_mismatch_shape; [left; reflexivity | | | ]; lia.
Qed.

Lemma bottleneck_block_broadcasts :
  value (bottleneck_block n_filters [d; Some h; Some w; Some 1] ratio)
  = Ok [d; Some h; Some w; Some (4 * n_filters)].
Proof.
  rewrite bottleneck_block_to_add.
  layer (add_broadcast_shape d (Some h) (Some w) (4 * n_filters)).
  same_shape. reflexivity.
Qed.

End BottleneckMismatch.

Section Rounding.

Variables (n g : Z).
Hypothesis Hg : 1 <= g.

Lemma grp_out_filters_floor :
  0 <= n -> grp_out_filters n g = (2 * n + g) / (2 * g).
Proof.
  intros Hn. rewrite grp_out_filters_quot by lia.
  apply Z.quot_div_nonneg; lia.
Qed.

Lemma grp_out_filters_pos_inv :
  1 <= grp_out_filters n g -> g <= 2 * n.
Proof.
  rewrite grp_out_filters_quot by lia. intros H.
  destruct (Z_lt_le_dec (2 * n) g) as [Hlt|]; [|assumption]. exfalso.
  destruct (Z_lt_le_dec (2 * n + g) 0) as [Hneg|Hpos].
  - assert (E : 2 * n + g = - (- (2 * n + g))) by ring.
    rewrite E, Z.quot_opp_l in H by lia.
    assert (0 <= Z.quot (- (2 * n + g)) (2 * g)) by (apply Z.quot_pos; lia).
    lia.
  - rewrite Z.quot_small in H by lia. lia.
Qed.

(** The channels of the concatenation differ from the request by at most
    half the group count. *)
Lemma grp_out_filters_error :
  1 <= grp_out_filters n g ->
  - g < 2 * (g * grp_out_filters n g - n) <= g.
Proof.
  intros H. pose proof (grp_out_filters_pos_inv H) as Hn.
  rewrite grp_out_filters_floor by lia.
  pose proof (Z.div_mod (2 * n + g) (2 * g) ltac:(lia)) as E.
  pose proof (Z.mod_pos_bound (2 * n + g) (2 * g) ltac:(lia)) as B.
  lia.
Qed.

Lemma grp_out_filters_exact_iff :
  1 <= grp_out_filters n g ->
  (g * grp_out_filters n g = n <-> (g | n)).
Proof.
  intros H. pose proof (grp_out_filters_pos_inv H) as Hn. split.
  - intros E. exists (grp_out_filters n g). lia.
  - intros Hd.
    rewrite (grp_out_filters_exact n g ltac:(lia) ltac:(lia) Hd).
    destruct Hd as [k ->]. rewrite Z.div_mul by lia. ring.
Qed.

End Rounding.

Lemma mapM_run {A} (body : A -> Build shape) (t : A -> list event)
      (s : shape) (l : list A) :
  (forall a, In a l -> body a = mkBuild (t a) (Ok s)) ->
  mapM body l = mkBuild (List.flat_map t l) (Ok (List.map (fun _ => s) l)).
Proof.
  induction l as [|a l IH]; intros H; cbn [mapM flat_map List.map].
  - reflexivity.
  - rewrite (bind_run _ _ _ _ (H a (or_introl eq_refl))).
    rewrite (bind_run _ _ _ _ (IH (fun b Hb => H b (or_intror Hb)))).
    rewrite prefix_ret, prefix_run. reflexivity.
Qed.

Lemma map_const_repeat {A B} (b : B) (l : list A) :
  List.map (fun _ => b) l = List.repeat b (length l).
Proof.
  induction l as [|a l IH]; [reflexivity|]. cbn [List.map length List.repeat].
  rewrite IH. reflexivity.
Qed.

Lemma length_range (n : Z) : length (range n) = Z.to_nat n.
Proof. unfold range. rewrite length_map, length_seq. reflexivity. Qed.

Lemma in_range (n i : Z) : In i (range n) <-> 0 <= i < n.
Proof.
  unfold range. rewrite in_map_iff. split.
  - intros (k & <- & Hk). apply in_seq in Hk. lia.
  - intros H. exists (Z.to_nat i). split; [lia|]. apply in_seq. lia.
Qed.

Section Slices.

Variables (c g : Z).
Hypothesis Hc : 0 <= c.
Hypothesis Hg : 1 <= g.

Lemma slice_in_bounds (i : Z) :
  0 <= i < g ->
  slice_index c (c / g * i) = c / g * i
  /\ slice_index c (c / g * (i + 1)) = c / g * (i + 1)
  /\ slice_length c (c / g * i) (c / g * (i + 1)) = c / g.
Proof.
  intros Hi.
  pose proof (Z.div_mod c g ltac:(lia)) as E.
  pose proof (Z.mod_pos_bound c g ltac:(lia)) as B.
  assert (Hq : 0 <= c / g) by (apply Z.div_pos; lia).
  assert (H1 : 0 <= c / g * i) by nia.
  assert (H2 : c / g * (i + 1) <= c) by nia.
  unfold slice_length, slice_index.
  destruct (Z.ltb_spec (c / g * i) 0); [lia|].
  destruct (Z.ltb_spec (c / g * (i + 1)) 0); [nia|].
  rewrite !Z.min_l by nia. repeat split. nia.
Qed.

Lemma slices_cover (k : Z) :
  0 <= k < g * (c / g) ->
  exists i, 0 <= i < g /\ c / g * i <= k < c / g * (i + 1)
            /\ forall j, c / g * j <= k < c / g * (j + 1) -> j = i.
Proof.
  intros Hk.
  assert (Hq : 0 < c / g) by nia.
  exists (k / (c / g)).
  pose proof (Z.div_mod k (c / g) ltac:(lia)) as E.
  pose proof (Z.mod_pos_bound k (c / g) ltac:(lia)) as B.
  split; [split; [apply Z.div_pos; lia|
                  apply Z.div_lt_upper_bound; nia]|].
  split; [nia|].
  intros j Hj. nia.
Qed.

Lemma slices_drop (k i : Z) :
  g * (c / g) <= k -> 0 <= i < g ->
  ~ (c / g * i <= k < c / g * (i + 1)).
Proof.
  intros Hk Hi.
  assert (Hq : 0 <= c / g) by (apply Z.div_pos; lia). nia.
Qed.

Lemma dropped_channels : c - g * (c / g) = c mod g.
Proof. pose proof (Z.div_mod c g ltac:(lia)). lia. Qed.

End Slices.

Section GroupConvRun.

Import ShuffleNet.

Variables (d h w : dim).

Lemma pw_group_conv_run (c n_groups n_filters : Z) :
  0 <= c -> 1 <= n_groups ->
  1 <= grp_out_filters n_filters n_groups ->
  pw_group_conv [d; h; w; Some c] n_groups n_filters
  = mkBuild
      (Enter (call_pw_group_conv [d; h; w; Some c] n_groups n_filters)
       :: List.flat_map
            (fun i =>
               [ Node (Lambda (slice_channels (c / n_groups * i)
                                              (c / n_groups * (i + 1))))
                      [d; h; w; Some (c / n_groups)];
                 Node (Conv2D (grp_out_filters n_filters n_groups)
                              (1, 1) (1, 1) same)
                      [d; h; w; Some (grp_out_filters n_filters n_groups)] ])
            (range n_groups)
       ++ [ Node Concatenate
                 [d; h; w;
                  Some (n_groups * grp_out_filters n_filters n_groups)];
            Node BatchNormalization
                 [d; h; w;
                  Some (n_groups * grp_out_filters n_filters n_groups)] ])
      (Ok [d; h; w; Some (n_groups * grp_out_filters n_filters n_groups)]).
Proof.
  intros Hc Hg Hout. unfold pw_group_conv.
  rewrite bind_enter.
  unfold shape_at. cbn [nth_error]. rewrite bind_ret.
  unfold defined. rewrite bind_ret.
  unfold floordiv, truediv. destruct (Z.eqb_spec n_groups 0); [lia|].
  rewrite !bind_lift_ok.
  fold (grp_out_filters n_filters n_groups).
  set (k := grp_out_filters n_filters n_groups) in *.
  assert (Hbody :
    forall i, In i (range n_groups) ->
      (group <- apply (Lambda (slice_channels (c / n_groups * i)
                                              (c / n_groups * (i + 1))))
                      [[d; h; w; Some c]] ;;
       conv <- apply (Conv2D k (1, 1) (1, 1) same) [group] ;;
       ret conv)
      = mkBuild
          [ Node (Lambda (slice_channels (c / n_groups * i)
                                         (c / n_groups * (i + 1))))
                 [d; h; w; Some (c / n_groups)];
            Node (Conv2D k (1, 1) (1, 1) same) [d; h; w; Some k] ]
          (Ok [d; h; w; Some k])).
  { intros i Hi. apply in_range in Hi.
    destruct (slice_in_bounds c n_groups Hc Hg i Hi) as (_ & _ & Hlen).
    assert (S : compute_output_shape
                  (Lambda (slice_channels (c / n_groups * i)
                                          (c / n_groups * (i + 1))))
                  [[d; h; w; Some c]]
                = Ok [d; h; w; Some (c / n_groups)]).
    { unfold compute_output_shape, one_input, lambda_shape,
        slice_channels_shape. rewrite Hlen. reflexivity. }
    layer S.
    layer (conv_same_shape d h w (c / n_groups) k 1 1 1 1
             ltac:(lia) ltac:(lia) ltac:(lia) ltac:(lia) ltac:(lia)).
    rewrite !strided_dim_1. rewrite !prefix_ret. reflexivity. }
  rewrite (bind_run _ _ _ _ (mapM_run _ _ _ _ Hbody)).
  rewrite map_const_repeat, length_range.
  layer (concatenate_groups_shape d h w k (Z.to_nat n_groups) ltac:(lia)).
  rewrite bind_bn. rewrite Z2Nat.id by lia.
  rewrite !prefix_ret, !prefix_run. reflexivity.
Qed.

Lemma pw_group_conv_zero_groups (x : shape) (c n_filters : Z) :
  List.nth_error x 3 = Some (Some c) ->
  pw_group_conv x 0 n_filters
  = mkBuild [Enter (call_pw_group_conv x 0 n_filters)]
            (Raise ZeroDivisionError).
Proof.
  intros Hx. unfold pw_group_conv, shape_at. rewrite Hx. reflexivity.
Qed.

Lemma pw_group_conv_negative_groups (x : shape) (c n_groups n_filters : Z) :
  List.nth_error x 3 = Some (Some c) -> n_groups < 0 ->
  pw_group_conv x n_groups n_filters
  = mkBuild [Enter (call_pw_group_conv x n_groups n_filters)]
            (Raise ValueError).
Proof.
  intros Hx Hg. unfold pw_group_conv, shape_at. rewrite Hx.
  rewrite bind_enter, bind_ret. unfold defined. rewrite bind_ret.
  unfold floordiv, truediv. destruct (Z.eqb_spec n_groups 0); [lia|].
  rewrite !bind_lift_ok. rewrite (range_nil n_groups ltac:(lia)).
  cbn [mapM]. rewrite bind_ret. reflexivity.
Qed.

Lemma pw_group_conv_unknown_channels (x : shape) (n_groups n_filters : Z) :
  List.nth_error x 3 = Some None ->
  pw_group_conv x n_groups n_filters
  = mkBuild [Enter (call_pw_group_conv x n_groups n_filters)]
            (Raise TypeError).
Proof.
  intros Hx. unfold pw_group_conv, shape_at. rewrite Hx. reflexivity.
Qed.

Lemma pw_group_conv_low_rank (x : shape) (n_groups n_filters : Z) :
  (length x < 4)%nat ->
  pw_group_conv x n_groups n_filters
  = mkBuild [Enter (call_pw_group_conv x n_groups n_filters)]
            (Raise IndexError).
Proof.
  intros Hx. unfold pw_group_conv, shape_at.
  destruct (nth_error x 3) eqn:E; [|reflexivity].
  assert (nth_error x 3 <> None) by congruence.
  apply nth_error_Some in H. lia.
Qed.

End GroupConvRun.

Section ChannelShuffleErrors.

Import ShuffleNet.

Lemma channel_shuffle_wrong_rank (x : shape) (n_groups : Z) :
  length x <> 4%nat ->
  channel_shuffle x n_groups
  = mkBuild [Enter (call_channel_shuffle x n_groups)] (Raise ValueError).
Proof.
  intros H. unfold channel_shuffle. rewrite bind_enter.
  destruct x as [|b [|h [|w [|c [|? ?]]]]];
    try (rewrite prefix_raise; reflexivity).
  contradiction H. reflexivity.
Qed.

Lemma channel_shuffle_zero_groups (b h w : dim) (n : Z) :
  channel_shuffle [b; h; w; Some n] 0
  = mkBuild [Enter (call_channel_shuffle [b; h; w; Some n] 0)]
            (Raise ZeroDivisionError).
Proof. reflexivity. Qed.

Lemma channel_shuffle_unknown_dim (b h w c : dim) (n_groups : Z) :
  n_groups <> 0 ->
  h = None \/ w = None \/ c = None ->
  channel_shuffle [b; h; w; c] n_groups
  = mkBuild [Enter (call_channel_shuffle [b; h; w; c] n_groups)]
            (Raise TypeError).
Proof.
  intros Hg H. unfold channel_shuffle. rewrite bind_enter.
  destruct c as [n|]; [|reflexivity].
  unfold defined at 1. rewrite bind_ret.
  unfold floordiv. destruct (Z.eqb_spec n_groups 0); [contradiction|].
  rewrite bind_lift_ok.
  destruct h as [hh|]; [|reflexivity].
  destruct w as [ww|]; [|reflexivity].
  destruct H as [H|[H|H]]; discriminate.
Qed.

End ChannelShuffleErrors.

Section ShuffleGroupShape.

Import ShuffleNet.

Variables (batch : dim) (h w c n_groups n_filters : Z) (reduction : Q).
Hypothesis Hh : 0 < h.
Hypothesis Hw : 0 < w.
Hypothesis Hg : 1 <= n_groups.
Hypothesis Hc : (n_groups | c).
Hypothesis Hc0 : 0 <= c.

(** Moving the request by a multiple of the group count moves the filters
    of a group by the quotient. *)
Lemma grp_out_filters_shift :
  1 <= grp_out_filters (n_filters - c) n_groups ->
  grp_out_filters n_filters n_groups
  = grp_out_filters (n_filters - c) n_groups + c / n_groups.
Proof.
  intros H. pose proof (grp_out_filters_pos_inv _ _ Hg H) as Hn.
  destruct Hc as [k Hk].
  assert (0 <= k) by nia.
  rewrite !grp_out_filters_floor by lia.
  rewrite Hk, Z.div_mul by lia.
  replace (2 * n_filters + n_groups)
    with (2 * (n_filters - k * n_groups) + n_groups + k * (2 * n_groups))
    by ring.
  rewrite Z.div_add by lia. reflexivity.
Qed.

Lemma shuffle_group_shape (n_blocks : Z) :
  1 <= grp_out_filters (entry_filters reduction (n_filters - c)) n_groups ->
  1 <= grp_out_filters (n_filters - c) n_groups ->
  1 <= grp_out_filters (entry_filters reduction n_filters) n_groups ->
  value (shuffle_group [batch; Some h; Some w; Some c]
                       n_groups n_blocks n_filters reduction)
  = Ok [batch; Some ((h + 1) / 2); Some ((w + 1) / 2);
        Some (n_groups * grp_out_filters n_filters n_groups)].
Proof.
  intros H1 H2 H3.
  pose proof (grp_out_filters_shift H2) as Hshift.
  assert (E : c + n_groups * grp_out_filters (n_filters - c) n_groups
              = n_groups * grp_out_filters n_filters n_groups).
  { rewrite Hshift. destruct Hc as [k Hk]. rewrite Hk at 1.
    rewrite Hk, Z.div_mul by lia. ring. }
  assert (H4 : 1 <= grp_out_filters n_filters n_groups).
  { rewrite Hshift. assert (0 <= c / n_groups) by (apply Z.div_pos; lia).
    lia. }
  unfold shuffle_group. rewrite bind_enter, value_prefix.
  rewrite (value_bind_ok _ _ _
             (strided_shuffle_block_value batch h w c n_groups n_filters
                reduction Hh Hw Hg H1 H2)).
  rewrite E. rewrite bind_ret_r.
  replace ((h + 1) / 2) with ((h + 2 - 1) / 2) by (f_equal; lia).
  replace ((w + 1) / 2) with ((w + 2 - 1) / 2) by (f_equal; lia).
  apply repeatM_fixed.
  apply shuffle_block_value; try assumption.
  - apply Z.div_str_pos. lia.
  - apply Z.div_str_pos. lia.
  - reflexivity.
Qed.

End ShuffleGroupShape.

Section ShuffleGroupEdge.

Import ShuffleNet.

Lemma shuffle_group_single_block (x : shape) (n_groups n_blocks n_filters : Z)
      (reduction : Q) :
  n_blocks <= 1 ->
  shuffle_group x n_groups n_blocks n_filters reduction
  = prefix [Enter (call_shuffle_group x n_groups n_blocks n_filters
                                      reduction)]
           (strided_shuffle_block x n_groups n_filters reduction).
Proof.
  intros H. unfold shuffle_group. rewrite bind_enter.
  replace (Z.to_nat (n_blocks - 1)) with 0%nat by lia.
  cbn [repeatM]. f_equal.
  transitivity (bind (strided_shuffle_block x n_groups n_filters reduction)
                     ret); [|apply bind_ret_r].
  unfold bind. destruct (value (strided_shuffle_block _ _ _ _));
    reflexivity.
Qed.

End ShuffleGroupEdge.

Section Variants.

Import ShuffleNet.

Variable batch : dim.

Lemma variant_stage (g i n_blocks n_filters h w c : Z) (row : list Z) :
  dict_get filters g = ret row ->
  list_get blocks i = ret n_blocks ->
  list_get row (i + 1) = ret n_filters ->
  0 < h -> 0 < w -> 1 <= g -> (g | c) -> 0 <= c ->
  1 <= grp_out_filters (entry_filters reduction (n_filters - c)) g ->
  1 <= grp_out_filters (n_filters - c) g ->
  1 <= grp_out_filters (entry_filters reduction n_filters) g ->
  value (n_blocks <- list_get blocks i ;;
         row <- dict_get filters g ;;
         n_filters <- list_get row (i + 1) ;;
         shuffle_group [batch; Some h; Some w; Some c]
                       g n_blocks n_filters reduction)
  = Ok [batch; Some ((h + 1) / 2); Some ((w + 1) / 2);
        Some (g * grp_out_filters n_filters g)].
Proof.
  intros Er Eb Ef Hh Hw Hg Hd Hc H1 H2 H3.
  rewrite Eb, bind_ret, Er, bind_ret, Ef, bind_ret.
  apply shuffle_group_shape; assumption.
Qed.

Lemma variant_value (g : Z) (row : list Z) (n1 n2 n3 : Z) :
  dict_get filters g = ret row ->
  row = [24; n1; n2; n3] ->
  1 <= g -> (g | 24) ->
  n1 = g * grp_out_filters n1 g ->
  n2 = g * grp_out_filters n2 g ->
  n3 = g * grp_out_filters n3 g ->
  1 <= grp_out_filters (entry_filters reduction (n1 - 24)) g ->
  1 <= grp_out_filters (n1 - 24) g ->
  1 <= grp_out_filters (entry_filters reduction n1) g ->
  1 <= grp_out_filters (entry_filters reduction (n2 - n1)) g ->
  1 <= grp_out_filters (n2 - n1) g ->
  1 <= grp_out_filters (entry_filters reduction n2) g ->
  1 <= grp_out_filters (entry_filters reduction (n3 - n2)) g ->
  1 <= grp_out_filters (n3 - n2) g ->
  1 <= grp_out_filters (entry_filters reduction n3) g ->
  0 <= n1 -> 0 <= n2 ->
  value (shufflenet_with_groups g batch) = Ok [batch; Some 1000].
Proof.
  intros Er -> Hg Hd E1 E2 E3 A1 A2 A3 B1 B2 B3 C1 C2 C3 P1 P2.
  unfold shufflenet_with_groups.
  rewrite (value_bind_ok _ _ _ (shufflenet_stem_value batch)).
  change (range 3) with [0; 1; 2]. cbn [foldM].
  rewrite (value_bind_ok _ _ [batch; Some 7; Some 7; Some n3]).
  - apply (shufflenet_classifier_value batch _ _ n3 1000). lia.
  - rewrite (value_bind_ok _ _ [batch; Some 28; Some 28; Some n1]).
    2:{ replace (Some n1) with (Some (g * grp_out_filters n1 g)) by congruence.
        apply (variant_stage g 0 4 n1 56 56 24 [24; n1; n2; n3]);
          try assumption; try reflexivity; lia. }
    rewrite (value_bind_ok _ _ [batch; Some 14; Some 14; Some n2]).
    2:{ replace (Some n2) with (Some (g * grp_out_filters n2 g)) by congruence.
        apply (variant_stage g 1 8 n2 28 28 n1 [24; n1; n2; n3]);
          try assumption; try reflexivity; try lia.
        exists (grp_out_filters n1 g). lia. }
    rewrite (value_bind_ok _ _ [batch; Some 7; Some 7; Some n3]).
    2:{ replace (Some n3) with (Some (g * grp_out_filters n3 g)) by congruence.
        apply (variant_stage g 2 4 n3 14 14 n2 [24; n1; n2; n3]);
          try assumption; try reflexivity; try lia.
        exists (grp_out_filters n2 g). lia. }
    reflexivity.
Qed.

Lemma variants_build (g : Z) :
  In g [2; 3; 4; 8] ->
  value (shufflenet_with_groups g batch) = Ok [batch; Some 1000].
Proof.
  intros Hg. cbn [In] in Hg.
  destruct Hg as [<-|[<-|[<-|[<-|[]]]]].
  - apply (variant_value 2 [24; 200; 400; 800] 200 400 800);
      first [reflexivity | discriminate | (exists 12; reflexivity)].
  - apply (variant_value 3 [24; 240; 480; 960] 240 480 960);
      first [reflexivity | discriminate | (exists 8; reflexivity)].
  - apply (variant_value 4 [24; 272; 544; 1088] 272 544 1088);
      first [reflexivity | discriminate | (exists 6; reflexivity)].
  - apply (variant_value 8 [24; 384; 768; 1536] 384 768 1536);
      first [reflexivity | discriminate | (exists 3; reflexivity)].
Qed.

Lemma dict_get_missing (g : Z) :
  ~ In g [1; 2; 3; 4; 8] -> dict_get filters g = raise KeyError.
Proof.
  intros H. unfold filters. cbn [dict_get In] in *.
  repeat match goal with
         | |- context [?a =? ?b] =>
             destruct (Z.eqb_spec a b); [exfalso; apply H; lia|]
         end.
  reflexivity.
Qed.

Lemma unknown_variant (g : Z) :
  ~ In g [1; 2; 3; 4; 8] ->
  value (shufflenet_with_groups g batch) = Raise KeyError.
Proof.
  intros H. unfold shufflenet_with_groups.
  rewrite (value_bind_ok _ _ _ (shufflenet_stem_value batch)).
  change (range 3) with [0; 1; 2]. cbn [foldM].
  apply value_bind_raise. apply value_bind_raise.
  change (list_get blocks 0) with (@ret Z 4). rewrite bind_ret.
  rewrite (dict_get_missing g H). reflexivity.
Qed.

End Variants.

Section SlicesOfTrace.

Import ShuffleNet.

Lemma slices_of_app (t u : list event) :
  slices_of (t ++ u) = slices_of t ++ slices_of u.
Proof. unfold slices_of. apply flat_map_app. Qed.

Lemma slices_of_groups (f : Z -> Z * Z) (l1 l2 : Z -> layer)
      (s1 s2 : Z -> shape) (l : list Z) :
  (forall i, l1 i = Lambda (slice_channels (fst (f i)) (snd (f i)))) ->
  (forall i, match l2 i with
             | Lambda (slice_channels _ _) => False
             | _ => True
             end) ->
  slices_of (List.flat_map (fun i => [Node (l1 i) (s1 i); Node (l2 i) (s2 i)])
                           l)
  = List.map f l.
Proof.
  intros H1 H2. induction l as [|i l IH]; [reflexivity|].
  cbn [flat_map List.map]. rewrite slices_of_app, IH.
  unfold slices_of at 1. cbn [flat_map]. rewrite H1.
  specialize (H2 i). destruct (l2 i) as [| | | | | | | | | | | | |[]];
    try contradiction; cbn [app]; destruct (f i); reflexivity.
Qed.

Lemma slices_of_pw_group_conv (d h w : dim) (c n_groups n_filters : Z) :
  0 <= c -> 1 <= n_groups ->
  1 <= grp_out_filters n_filters n_groups ->
  slices_of (trace (pw_group_conv [d; h; w; Some c] n_groups n_filters))
  = List.map (fun i => (c / n_groups * i, c / n_groups * (i + 1)))
             (range n_groups).
Proof.
  intros Hc Hg Hk.
  rewrite (pw_group_conv_run d h w c n_groups n_filters Hc Hg Hk).
  cbn [trace]. change (slices_of (?e :: ?t)) with (slices_of t).
  rewrite slices_of_app.
  rewrite (slices_of_groups
             (fun i => (c / n_groups * i, c / n_groups * (i + 1)))
             (fun i => Lambda (slice_channels (c / n_groups * i)
                                              (c / n_groups * (i + 1))))
             (fun _ => Conv2D (grp_out_filters n_filters n_groups)
                              (1, 1) (1, 1) same)).
  - apply app_nil_r.
  - reflexivity.
  - intros i. exact I.
Qed.

End SlicesOfTrace.

Section ShuffleBlockMismatch.

Import ShuffleNet.

Variables (d : dim) (h w c n_groups n_filters : Z) (reduction : Q).
Hypothesis Hh : 0 < h.
Hypothesis Hw : 0 < w.
Hypothesis Hg : 1 <= n_groups.
Hypothesis H1 :
  1 <= grp_out_filters (entry_filters reduction n_filters) n_groups.
Hypothesis H2 : 1 <= grp_out_filters n_filters n_groups.

(** The shuffle block up to its addition. *)
Lemma shuffle_block_to_add :
  value (shuffle_block [d; Some h; Some w; Some c]
                       n_groups n_filters reduction)
  = value (x <- apply Add
                  [[d; Some h; Some w; Some c];
                   [d; Some h; Some w;
                    Some (n_groups * grp_out_filters n_filters n_groups)]] ;;
           x <- apply ReLU [x] ;;
           ret x).
Proof.
  unfold shuffle_block. rewrite bind_enter.
  fold (entry_filters reduction n_filters).
  set (m := entry_filters reduction n_filters) in *.
  set (k1 := grp_out_filters m n_groups) in *.
  rewrite !value_prefix.
  rewrite (value_bind_ok _ _ _
             (pw_group_conv_value d (Some h) (Some w) c n_groups m Hg H1)).
  rewrite bind_relu, value_prefix.
  rewrite (value_bind_ok _ _ _
             (channel_shuffle_value d h w (n_groups * k1) n_groups
                Hh Hw ltac:(nia) ltac:(lia)
                ltac:(exists k1; ring))).
  layer (depthwise_same_shape d (Some h) (Some w) (n_groups * k1) 3 3 1 1
           ltac:(lia) ltac:(lia) ltac:(lia) ltac:(lia)).
  rewrite !strided_dim_1.
  rewrite bind_bn, !value_prefix.
  rewrite (value_bind_ok _ _ _
             (pw_group_conv_value d _ _ (n_groups * k1) n_groups
                n_filters Hg H2)).
  reflexivity.
Qed.

Lemma shuffle_block_mismatch :
  c <> n_groups * grp_out_filters n_filters n_groups ->
  c <> 1 ->
  n_groups * grp_out_filters n_filters n_groups <> 1 ->
  value (shuffle_block [d; Some h; Some w; Some c]
                       n_groups n_filters reduction)
  = Raise ValueError.
Proof.
  intros Hc Hc1 Hk1. rewrite shuffle_block_to_add.
  apply value_bind_apply_raise.
  apply add_mismatch_shape; [left; reflexivity | | | ]; assumption.
Qed.

End ShuffleBlockMismatch.

Section ChannelShuffleUnchecked.

Import ShuffleNet.

Lemma k_reshape_unknown_batch (target : list Z) (x : shape) :
  Forall (fun n => 0 <= n) target ->
  k_reshape (None :: List.map Some target) (None :: x)
  = Ok (None :: List.map Some target).
Proof.
  intros Hpos.
  assert (Hpart : forall l, known_part (List.map Some l) = l).
  { induction l as [|a l IH]; [reflexivity|].
    unfold known_part in *. cbn [List.map flat_map app]. rewrite IH.
    reflexivity. }
  assert (Hcount : forall l, count_unknown (List.map Some l) = 0%nat).
  { induction l as [|a l IH]; [reflexivity|]. exact IH. }
  unfold k_reshape.
  replace (count_unknown (None :: List.map Some target)) with 1%nat
    by (unfold count_unknown in *; cbn [filter length]; rewrite Hcount;
        reflexivity).
  cbn [Nat.ltb Nat.leb Nat.eqb].
  replace (known_part (None :: List.map Some target)) with target
    by (symmetry; apply (Hpart target)).
  replace (List.existsb (fun n => n <? 0) target) with false.
  2:{ symmetry. induction Hpos as [|a l Ha _ IH];
        [reflexivity|]. cbn [List.existsb]. rewrite IH.
      destruct (Z.ltb_spec a 0); [lia|reflexivity]. }
  reflexivity.
Qed.

(** With an unknown batch size the graph is built whether or not the group
    count divides the channels. *)
Lemma channel_shuffle_unknown_batch (h w n n_groups : Z) :
  0 < h -> 0 < w -> 1 <= n_groups <= n ->
  channel_shuffle [None; Some h; Some w; Some n] n_groups
  = mkBuild
      [ Enter (call_channel_shuffle [None; Some h; Some w; Some n] n_groups);
        Node (Lambda (K_reshape [None; Some h; Some w; Some n_groups;
                                 Some (n / n_groups)]))
             [None; Some h; Some w; Some n_groups; Some (n / n_groups)];
        Node (Lambda (K_permute_dimensions [0; 1; 2; 4; 3]%nat))
             [None; Some h; Some w; Some (n / n_groups); Some n_groups];
        Node (Lambda (K_reshape [None; Some h; Some w; Some n]))
             [None; Some h; Some w; Some n] ]
      (Ok [None; Some h; Some w; Some n]).
Proof.
  intros Hh Hw Hg.
  assert (Hq : 0 <= n / n_groups) by (apply Z.div_pos; lia).
  unfold channel_shuffle. rewrite bind_enter.
  unfold defined. rewrite bind_ret.
  unfold floordiv. destruct (Z.eqb_spec n_groups 0); [lia|].
  rewrite bind_lift_ok, !bind_ret.
  assert (R1 : compute_output_shape
                 (Lambda (K_reshape [None; Some h; Some w;
                                     Some n_groups; Some (n / n_groups)]))
                 [[None; Some h; Some w; Some n]]
               = Ok [None; Some h; Some w; Some n_groups;
                     Some (n / n_groups)]).
  { apply (k_reshape_unknown_batch [h; w; n_groups; n / n_groups]).
    repeat constructor; lia. }
  assert (R2 : compute_output_shape
                 (Lambda (K_reshape [None; Some h; Some w; Some n]))
                 [[None; Some h; Some w; Some (n / n_groups);
                   Some n_groups]]
               = Ok [None; Some h; Some w; Some n]).
  { apply (k_reshape_unknown_batch [h; w; n]).
    repeat constructor; lia. }
  layer R1.
  assert (P : compute_output_shape
                (Lambda (K_permute_dimensions [0; 1; 2; 4; 3]%nat))
                [[None; Some h; Some w; Some n_groups; Some (n / n_groups)]]
              = Ok [None; Some h; Some w; Some (n / n_groups);
                    Some n_groups])
    by reflexivity.
  layer P.
  layer R2.
  rewrite !prefix_ret. reflexivity.
Qed.

(** With a known batch size the first reshape is checked. *)
Lemma channel_shuffle_known_batch_refuses (b h w n n_groups : Z) :
  0 < b -> 0 < h -> 0 < w -> 1 <= n_groups <= n ->
  ~ (n_groups * (n / n_groups) | b * n) ->
  value (channel_shuffle [Some b; Some h; Some w; Some n] n_groups)
  = Raise ValueError.
Proof.
  intros Hb Hh Hw Hg Hnd.
  assert (Hq : 0 < n / n_groups) by (apply Z.div_str_pos; lia).
  unfold channel_shuffle. rewrite bind_enter, value_prefix.
  unfold defined. rewrite bind_ret.
  unfold floordiv. destruct (Z.eqb_spec n_groups 0); [lia|].
  rewrite bind_lift_ok, !bind_ret.
  apply value_bind_apply_raise.
  unfold compute_output_shape, one_input, lambda_shape, k_reshape.
  cbn [count_unknown filter length Nat.ltb Nat.leb Nat.eqb known_part
       flat_map app List.existsb known fold_right].
  set (q := n / n_groups) in *.
  repeat match goal with
         | |- context [?a <? 0] => destruct (Z.ltb_spec a 0); [lia|]
         end.
  cbn [orb]. cbv zeta. unfold product. cbn [fold_right].
  destruct (Z.eqb_spec (h * (w * (n_groups * (q * 1)))) 0); [nia|].
  destruct (Z.eqb_spec ((b * (h * (w * (n * 1))))
                          mod (h * (w * (n_groups * (q * 1))))) 0)
    as [E|]; [|reflexivity].
  exfalso. apply Hnd. apply Z.mod_divide in E; [|assumption].
  destruct E as [z Hz]. exists z.
  assert (Hm : h * w * (b * n) = h * w * (z * (n_groups * q))) by lia.
  apply Z.mul_reg_l in Hm; [exact Hm | nia].
Qed.

End ChannelShuffleUnchecked.

Section EagerShuffleGeneral.

Import Eager.
Open Scope nat_scope.

Variable A : Type.
Variable zero : A.

(** A reshape that cannot infer the leading dimension. *)
Lemma reshape_infer_raises (dims : list nat) (x : tensor A) :
  size dims = 0 \/ ~ Nat.divide (size dims) (size (tshape x)) ->
  reshape ((-1)%Z :: List.map Z.of_nat dims) x = Raise ValueError.
Proof.
  intros H.
  unfold reshape. cbv zeta. cbn [List.filter].
  change ((-1) =? -1)%Z with true. cbn [negb].
  rewrite filter_unknown_of_nat, filter_given_of_nat.
  rewrite existsb_negative_of_nat.
  cbn [length Nat.ltb Nat.leb Nat.eqb].
  rewrite prod_of_nat.
  destruct (Z.eqb_spec (Z.of_nat (size dims)) 0) as [|Hs]; [reflexivity|].
  destruct H as [H|H]; [lia|].
  rewrite <- Nat2Z.inj_mod.
  destruct (Z.eqb_spec (Z.of_nat (size (tshape x) mod size dims)) 0)
    as [E|]; [|reflexivity].
  exfalso. apply H. apply Nat.Lcm0.mod_divide. lia.
Qed.

(** The shuffle as the three calls make it, whenever the first reshape can
    infer its leading dimension [b']. *)
Lemma channel_shuffle_general (x : tensor A) (b h w n G b' : nat) :
  tshape x = [b; h; w; n] ->
  0 < h -> 0 < w -> 0 < G -> G <= n ->
  b * n = b' * (G * (n / G)) ->
  channel_shuffle zero x (Z.of_nat G)
  = Ok (mkTensor [b; h; w; n] (shuffled A zero b' h w G (n / G) (tdata x))).
Proof.
  intros Hx Hh Hw HG Hn Hb.
  assert (Hgi : 0 < n / G) by (apply Nat.div_str_pos; lia).
  unfold channel_shuffle. rewrite Hx.
  unfold floordiv. destruct (Z.eqb_spec (Z.of_nat G) 0); [lia|].
  cbn [bindR].
  rewrite <- Nat2Z.inj_div.
  change [(-1)%Z; Z.of_nat h; Z.of_nat w; Z.of_nat G; Z.of_nat (n / G)]
    with ((-1)%Z :: List.map Z.of_nat [h; w; G; n / G]).
  change [(-1)%Z; Z.of_nat h; Z.of_nat w; Z.of_nat n]
    with ((-1)%Z :: List.map Z.of_nat [h; w; n]).
  rewrite (reshape_infer A [h; w; G; n / G] b' x).
  - cbn [bindR]. unfold permute_dimensions. cbn [tshape tdata].
    replace ((length [0; 1; 2; 4; 3] =? length [b'; h; w; G; n / G])
             && is_permutation [0; 1; 2; 4; 3]) with true by reflexivity.
    cbn [bindR List.map List.nth length].
    fold (shuffled A zero b' h w G (n / G) (tdata x)).
    rewrite (reshape_infer A [h; w; n] b).
    + reflexivity.
    + repeat constructor; lia.
    + cbn [tshape]. unfold size. cbn [fold_right].
      transitivity (h * w * (b' * (G * (n / G)))); [ring|].
      rewrite <- Hb. ring.
  - repeat constructor; assumption.
  - rewrite Hx. unfold size. cbn [fold_right].
    transitivity (h * w * (b * n)); [ring|].
    rewrite Hb. ring.
Qed.

Lemma channel_shuffle_raises (x : tensor A) (b h w n G : nat) :
  tshape x = [b; h; w; n] ->
  0 < h -> 0 < w -> 0 < G ->
  n < G \/ ~ Nat.divide (G * (n / G)) (b * n) ->
  channel_shuffle zero x (Z.of_nat G) = Raise ValueError.
Proof.
  intros Hx Hh Hw HG H.
  unfold channel_shuffle. rewrite Hx.
  unfold floordiv. destruct (Z.eqb_spec (Z.of_nat G) 0); [lia|].
  cbn [bindR].
  rewrite <- Nat2Z.inj_div.
  change [(-1)%Z; Z.of_nat h; Z.of_nat w; Z.of_nat G; Z.of_nat (n / G)]
    with ((-1)%Z :: List.map Z.of_nat [h; w; G; n / G]).
  rewrite (reshape_infer_raises [h; w; G; n / G] x); [reflexivity|].
  rewrite Hx. unfold size. cbn [fold_right].
  destruct H as [H|H].
  - left. rewrite (Nat.div_small n G H). lia.
  - right. intros [z Hz]. apply H. exists z.
    assert (Hm : h * w * (b * n) = h * w * (z * (G * (n / G)))) by lia.
    apply Nat.mul_cancel_l in Hm; [exact Hm | nia].
Qed.

(** On a single image the rounded channel count divides the channels only
    when the group count does. *)
Lemma rounded_divides_iff (n G : nat) :
  0 < G -> G <= n ->
  (Nat.divide (G * (n / G)) (1 * n) <-> Nat.divide G n).
Proof.
  intros HG Hn.
  assert (Hgi : 0 < n / G) by (apply Nat.div_str_pos; lia).
  pose proof (Nat.div_mod_eq n G) as E.
  pose proof (Nat.mod_upper_bound n G ltac:(lia)) as B.
  split.
  - intros [z Hz]. exists (n / G).
    assert (z = 1) by nia. subst z. lia.
  - intros [k Hk]. subst n. rewrite Nat.div_mul by lia.
    exists 1. lia.
Qed.

(** In every window of [G] channels there is one of each residue. *)
Lemma residue_in_window (G lo g : nat) :
  g < G -> exists k, lo <= k < lo + G /\ k mod G = g.
Proof.
  intros Hg.
  pose proof (Nat.div_mod_eq lo G) as E.
  pose proof (Nat.mod_upper_bound lo G ltac:(lia)) as B.
  destruct (le_lt_dec (lo mod G) g) as [Hle|Hlt].
  - exists (G * (lo / G) + g). split; [lia|].
    rewrite Nat.mul_comm. apply (div_mod_decompose (lo / G) g G Hg).
  - exists (G * (lo / G + 1) + g). split; [lia|].
    rewrite Nat.mul_comm. apply (div_mod_decompose (lo / G + 1) g G Hg).
Qed.

End EagerShuffleGeneral.

(* ===================================================================== *)
(** * Edge cases, errors and composition of the builders *)
(* ===================================================================== *)

(** X1.  Both stems divide the height and the width of an image of any size
    by four, rounding up, whatever its channels: SE-ResNet50's stem returns
    64 channels, ShuffleNet's 24. *)
Theorem stems_downsample_by_four (batch : dim) (h w c : Z) :
  1 <= h -> 1 <= w -> 1 <= c ->
  value (SENet.stem [batch; Some h; Some w; Some c])
  = Ok [batch; Some ((h + 3) / 4); Some ((w + 3) / 4); Some 64]
  /\ value (ShuffleNet.stem [batch; Some h; Some w; Some c])
     = Ok [batch; Some ((h + 3) / 4); Some ((w + 3) / 4); Some 24].
Proof.
  intros Hh Hw _. split.
  - apply senet_stem_shape; assumption.
  - apply shufflenet_stem_shape; assumption.
Qed.

Lemma stems_downsample_by_four_witness :
  (1 <= 225 /\ 1 <= 1 /\ 1 <= 3)
  /\ value (SENet.stem [None; Some 225; Some 1; Some 3])
     = Ok [None; Some 57; Some 1; Some 64]
  /\ value (ShuffleNet.stem [None; Some 225; Some 1; Some 3])
     = Ok [None; Some 57; Some 1; Some 24].
Proof.
  split; [lia|].
  exact (stems_downsample_by_four None 225 1 3
           ltac:(lia) ltac:(lia) ltac:(lia)).
Defined.

(** X2.  Both stems raise ValueError on an input that has not four
    dimensions or whose channel count is unknown. *)
Theorem stems_refuse_malformed_inputs (x : shape) :
  length x <> 4%nat \/ List.nth_error x 3 = Some None ->
  value (SENet.stem x) = Raise ValueError
  /\ value (ShuffleNet.stem x) = Raise ValueError.
Proof.
  intros H. split.
  - apply senet_stem_refuses. exact H.
  - apply shufflenet_stem_refuses. exact H.
Qed.

Lemma stems_refuse_malformed_inputs_witness :
  (length [None; Some 224; Some 224] <> 4%nat
   \/ List.nth_error [None; Some 224; Some 224] 3 = Some None)
  /\ value (SENet.stem [None; Some 224; Some 224]) = Raise ValueError
  /\ value (ShuffleNet.stem [None; Some 224; Some 224]) = Raise ValueError.
Proof.
  assert (H : length [None; Some 224; Some 224] <> 4%nat
              \/ List.nth_error [None; Some 224; Some 224] 3 = Some None)
    by (left; discriminate).
  split; [exact H|].
  exact (stems_refuse_malformed_inputs [None; Some 224; Some 224] H).
Defined.

(** X3.  The classifier of either network adds exactly a global average
    pooling and a softmax [Dense] layer and returns [(batch, n_classes)]
    for a feature map of any height and width, known or not; on an input
    that has not four dimensions or whose channel count is unknown it
    raises ValueError. *)
Theorem classifiers_ignore_the_spatial_size (b h w : dim) (c n_classes : Z) :
  1 <= c -> 1 <= n_classes ->
  SENet.classifier [b; h; w; Some c] n_classes
  = mkBuild [ Enter (call_classifier [b; h; w; Some c] n_classes);
              Node GlobalAveragePooling2D [b; Some c];
              Node (Dense n_classes softmax) [b; Some n_classes] ]
            (Ok [b; Some n_classes])
  /\ ShuffleNet.classifier [b; h; w; Some c] n_classes
     = SENet.classifier [b; h; w; Some c] n_classes
  /\ forall x,
       length x <> 4%nat \/ List.nth_error x 3 = Some None ->
       value (SENet.classifier x n_classes) = Raise ValueError
       /\ value (ShuffleNet.classifier x n_classes) = Raise ValueError.
Proof.
  intros _ Hn. split; [apply classifier_run; exact Hn|].
  split; [reflexivity|].
  intros x Hx.
  change (ShuffleNet.classifier x n_classes)
    with (SENet.classifier x n_classes).
  split; apply classifier_refuses; exact Hx.
Qed.

Lemma classifiers_ignore_the_spatial_size_witness :
  (1 <= 2048 /\ 1 <= 1000)
  /\ value (SENet.classifier [None; None; None; Some 2048] 1000)
     = Ok [None; Some 1000]
  /\ value (ShuffleNet.classifier [None; None; None; None] 1000)
     = Raise ValueError.
Proof.
  split; [lia|].
  pose proof (classifiers_ignore_the_spatial_size None None None 2048 1000
                ltac:(lia) ltac:(lia)) as (Hrun & _ & Hbad).
  split.
  - exact (f_equal value Hrun).
  - exact (proj2 (Hbad [None; None; None; None]
                       (or_intror eq_refl))).
Defined.

(** X4.  [squeeze_excite_block] with a ratio of zero raises
    ZeroDivisionError when it divides the channels, after the pooling and
    the reshape have been added to the graph; with a negative ratio it does
    not return either: the first [Dense] layer is asked for a unit count
    below one. *)
Theorem squeeze_excite_block_needs_a_positive_ratio (d h w : dim) (c : Z) :
  1 <= c ->
  SENet.squeeze_excite_block [d; h; w; Some c] 0
  = mkBuild [ Enter (call_squeeze_excite_block [d; h; w; Some c] 0);
              Node GlobalAveragePooling2D [d; Some c];
              Node (Reshape [1; 1; c]) [d; Some 1; Some 1; Some c] ]
            (Raise ZeroDivisionError)
  /\ forall ratio,
       ratio < 0 ->
       is_ok (value (SENet.squeeze_excite_block [d; h; w; Some c] ratio))
       = false.
Proof.
  intros Hc. split.
  - apply squeeze_excite_block_zero_ratio.
  - intros ratio Hr.
    rewrite (squeeze_excite_block_negative_ratio d h w c ratio
               ltac:(lia) Hr).
    reflexivity.
Qed.

Lemma squeeze_excite_block_needs_a_positive_ratio_witness :
  1 <= 256
  /\ value (SENet.squeeze_excite_block
              [None; Some 56; Some 56; Some 256] 0)
     = Raise ZeroDivisionError
  /\ is_ok (value (SENet.squeeze_excite_block
                     [None; Some 56; Some 56; Some 256] (-16)))
     = false.
Proof.
  split; [lia|].
  pose proof (squeeze_excite_block_needs_a_positive_ratio
                None (Some 56) (Some 56) 256 ltac:(lia)) as (Hz & Hneg).
  split.
  - exact (f_equal value Hz).
  - exact (Hneg (-16) ltac:(lia)).
Defined.

(** X5.  [bottleneck_block] adds its input to a tensor of [4 * n_filters]
    channels: on an input with another channel count it raises ValueError,
    at the addition, unless the input has a single channel, which the
    addition broadcasts. *)
Theorem bottleneck_block_needs_four_times_the_filters
        (d : dim) (h w n_filters ratio c : Z) :
  1 <= h -> 1 <= w -> 0 < n_filters -> 0 < ratio <= 4 * n_filters ->
  1 <= c -> c <> 4 * n_filters ->
  (c <> 1 ->
   value (SENet.bottleneck_block n_filters [d; Some h; Some w; Some c] ratio)
   = Raise ValueError)
  /\ (c = 1 ->
      value (SENet.bottleneck_block n_filters [d; Some h; Some w; Some c]
                                    ratio)
      = Ok [d; Some h; Some w; Some (4 * n_filters)]).
Proof.
  intros Hh Hw Hn Hr _ Hc. split.
  - intros H1. apply bottleneck_block_mismatch; assumption.
  - intros ->. apply bottleneck_block_broadcasts; assumption.
Qed.

Lemma bottleneck_block_needs_four_times_the_filters_witness :
  (1 <= 56 /\ 1 <= 56 /\ 0 < 64 /\ 0 < 16 <= 4 * 64 /\ 1 <= 64
   /\ 64 <> 4 * 64)
  /\ value (SENet.bottleneck_block 64 [None; Some 56; Some 56; Some 64] 16)
     = Raise ValueError.
Proof.
  split; [lia|].
  exact (proj1 (bottleneck_block_needs_four_times_the_filters
                  None 56 56 64 16 64
                  ltac:(lia) ltac:(lia) ltac:(lia) ltac:(lia) ltac:(lia)
                  ltac:(lia))
               ltac:(lia)).
Defined.



(** X7.  The groups of [pw_group_conv], two or more, read the channel ranges
    [[c / G * i, c / G * (i + 1))] for [i] in [range(G)]: every channel
    below [c - c mod G] is read by exactly one group, and the last
    [c mod G] channels of the input are read by none. *)
Theorem pw_group_conv_drops_the_remainder_channels
        (d h w : dim) (c n_groups n_filters : Z) :
  2 <= n_groups <= c ->
  1 <= grp_out_filters n_filters n_groups ->
  slices_of (trace (ShuffleNet.pw_group_conv [d; h; w; Some c]
                                             n_groups n_filters))
  = List.map (fun i => (c / n_groups * i, c / n_groups * (i + 1)))
             (range n_groups)
  /\ (forall k,
        0 <= k < c - c mod n_groups ->
        exists s,
          In s (slices_of (trace (ShuffleNet.pw_group_conv
                                    [d; h; w; Some c] n_groups n_filters)))
          /\ fst s <= k < snd s
          /\ forall s',
               In s' (slices_of (trace (ShuffleNet.pw_group_conv
                                          [d; h; w; Some c] n_groups
                                          n_filters))) ->
               fst s' <= k < snd s' -> s' = s)
  /\ (forall k s,
        c - c mod n_groups <= k ->
        In s (slices_of (trace (ShuffleNet.pw_group_conv
                                  [d; h; w; Some c] n_groups n_filters))) ->
        ~ (fst s <= k < snd s)).
Proof.
  intros Hg Hk.
  assert (Hc : 0 <= c) by lia. assert (Hg1 : 1 <= n_groups) by lia.
  rewrite (slices_of_pw_group_conv d h w c n_groups n_filters Hc Hg1 Hk).
  pose proof (dropped_channels c n_groups Hg1) as Hdrop.
  split; [reflexivity|]. split.
  - intros k Hkr.
    destruct (slices_cover c n_groups Hg1 k ltac:(lia))
      as (i & Hi & Hin & Huniq).
    exists (c / n_groups * i, c / n_groups * (i + 1)).
    split; [apply in_map_iff; exists i; split;
            [reflexivity | apply in_range; exact Hi]|].
    split; [exact Hin|].
    intros s' Hs' Hr. apply in_map_iff in Hs'.
    destruct Hs' as (j & <- & _). cbn [fst snd] in Hr.
    rewrite (Huniq j Hr). reflexivity.
  - intros k s Hkr Hs. apply in_map_iff in Hs.
    destruct Hs as (i & <- & Hi). apply in_range in Hi. cbn [fst snd].
    apply (slices_drop c n_groups Hc Hg1 k i); [lia | exact Hi].
Qed.

Lemma pw_group_conv_drops_the_remainder_channels_witness :
  (2 <= 3 <= 8 /\ 1 <= grp_out_filters 12 3)
  /\ slices_of (trace (ShuffleNet.pw_group_conv
                         [None; Some 28; Some 28; Some 8] 3 12))
     = [(0, 2); (2, 4); (4, 6)].
Proof.
  assert (Hk : 1 <= grp_out_filters 12 3) by (vm_compute; discriminate).
  split; [split; [lia | exact Hk]|].
  exact (proj1 (pw_group_conv_drops_the_remainder_channels
                  None (Some 28) (Some 28) 8 3 12 ltac:(lia) Hk)).
Defined.

(** X8.  [pw_group_conv] with two groups or more adds to the graph, for
    each group in turn, one slicing [Lambda] and one 1x1 [Conv2D] of
    [int(n_filters / n_groups + 0.5)] filters, then one [Concatenate] and
    one [BatchNormalization], and nothing else. *)
Theorem pw_group_conv_layers (d h w : dim) (c n_groups n_filters : Z) :
  2 <= n_groups <= c ->
  1 <= grp_out_filters n_filters n_groups ->
  ShuffleNet.pw_group_conv [d; h; w; Some c] n_groups n_filters
  = mkBuild
      (Enter (call_pw_group_conv [d; h; w; Some c] n_groups n_filters)
       :: List.flat_map
            (fun i =>
               [ Node (Lambda (slice_channels (c / n_groups * i)
                                              (c / n_groups * (i + 1))))
                      [d; h; w; Some (c / n_groups)];
                 Node (Conv2D (grp_out_filters n_filters n_groups)
                              (1, 1) (1, 1) same)
                      [d; h; w; Some (grp_out_filters n_filters n_groups)] ])
            (range n_groups)
       ++ [ Node Concatenate
                 [d; h; w;
                  Some (n_groups * grp_out_filters n_filters n_groups)];
            Node BatchNormalization
                 [d; h; w;
                  Some (n_groups * grp_out_filters n_filters n_groups)] ])
      (Ok [d; h; w; Some (n_groups * grp_out_filters n_filters n_groups)])
  /\ length (layers (trace (ShuffleNet.pw_group_conv [d; h; w; Some c]
                                                     n_groups n_filters)))
     = (2 * Z.to_nat n_groups + 2)%nat.
Proof.
  intros Hg Hk.
  rewrite (pw_group_conv_run d h w c n_groups n_filters
             ltac:(lia) ltac:(lia) Hk).
  split; [reflexivity|].
  cbn [trace]. change (layers (?e :: ?t)) with (layers t).
  unfold layers. rewrite flat_map_app, length_app.
  cbn [flat_map app length].
  rewrite <- (length_range n_groups).
  induction (range n_groups) as [|i l IH]; [reflexivity|].
  cbn [flat_map app length] in *. lia.
Qed.

Lemma pw_group_conv_layers_witness :
  (2 <= 2 <= 24 /\ 1 <= grp_out_filters 44 2)
  /\ length (layers (trace (ShuffleNet.pw_group_conv
                              [None; Some 56; Some 56; Some 24] 2 44)))
     = 6%nat.
Proof.
  assert (Hk : 1 <= grp_out_filters 44 2) by (vm_compute; discriminate).
  split; [split; [lia | exact Hk]|].
  exact (proj2 (pw_group_conv_layers None (Some 56) (Some 56) 24 2 44
                  ltac:(lia) Hk)).
Defined.

(** X9.  [pw_group_conv] fails before it adds a layer: with IndexError on an
    input of fewer than four dimensions, TypeError on an unknown channel
    count, ZeroDivisionError on zero groups, and ValueError on a negative
    group count, for which the loop makes no group to concatenate. *)
Theorem pw_group_conv_fails_before_adding_layers
        (x : shape) (n_groups n_filters : Z) :
  ((length x < 4)%nat ->
   ShuffleNet.pw_group_conv x n_groups n_filters
   = mkBuild [Enter (call_pw_group_conv x n_groups n_filters)]
             (Raise IndexError))
  /\ (List.nth_error x 3 = Some None ->
      ShuffleNet.pw_group_conv x n_groups n_filters
      = mkBuild [Enter (call_pw_group_conv x n_groups n_filters)]
                (Raise TypeError))
  /\ (forall c,
        List.nth_error x 3 = Some (Some c) ->
        (n_groups = 0 ->
         ShuffleNet.pw_group_conv x n_groups n_filters
         = mkBuild [Enter (call_pw_group_conv x n_groups n_filters)]
                   (Raise ZeroDivisionError))
        /\ (n_groups < 0 ->
            ShuffleNet.pw_group_conv x n_groups n_filters
            = mkBuild [Enter (call_pw_group_conv x n_groups n_filters)]
                      (Raise ValueError))).
Proof.
  split; [apply pw_group_conv_low_rank|].
  split; [apply pw_group_conv_unknown_channels|].
  intros c Hx. split.
  - intros ->. apply (pw_group_conv_zero_groups x c n_filters Hx).
  - intros Hg. apply (pw_group_conv_negative_groups x c); assumption.
Qed.

Lemma pw_group_conv_fails_before_adding_layers_witness :
  value (ShuffleNet.pw_group_conv [None; Some 56; Some 56; Some 24] 0 44)
  = Raise ZeroDivisionError
  /\ value (ShuffleNet.pw_group_conv [None; Some 56; Some 56; Some 24]
                                     (-2) 44)
     = Raise ValueError.
Proof.
  split.
  - exact (f_equal value
             (proj1 (proj2 (proj2 (pw_group_conv_fails_before_adding_layers
                                     [None; Some 56; Some 56; Some 24] 0 44))
                           24 eq_refl)
                    eq_refl)).
  - exact (f_equal value
             (proj2 (proj2 (proj2 (pw_group_conv_fails_before_adding_layers
                                     [None; Some 56; Some 56; Some 24]
                                     (-2) 44))
                           24 eq_refl)
                    ltac:(lia))).
Defined.

(** X10.  [channel_shuffle] fails before it adds a layer: with ValueError on
    an input that has not four dimensions, which it cannot unpack, with
    TypeError on an unknown channel count, and with ZeroDivisionError on
    zero groups. *)
Theorem channel_shuffle_fails_before_adding_layers
        (x : shape) (n_groups : Z) :
  (length x <> 4%nat ->
   ShuffleNet.channel_shuffle x n_groups
   = mkBuild [Enter (call_channel_shuffle x n_groups)] (Raise ValueError))
  /\ (forall b h w,
        x = [b; h; w; None] ->
        ShuffleNet.channel_shuffle x n_groups
        = mkBuild [Enter (call_channel_shuffle x n_groups)]
                  (Raise TypeError))
  /\ (forall b h w n,
        x = [b; h; w; Some n] -> n_groups = 0 ->
        ShuffleNet.channel_shuffle x n_groups
        = mkBuild [Enter (call_channel_shuffle x n_groups)]
                  (Raise ZeroDivisionError)).
Proof.
  split; [apply channel_shuffle_wrong_rank|].
  split.
  - intros b h w ->. reflexivity.
  - intros b h w n -> ->. apply channel_shuffle_zero_groups.
Qed.

Lemma channel_shuffle_fails_before_adding_layers_witness :
  value (ShuffleNet.channel_shuffle [None; Some 28; Some 28; Some 48] 0)
  = Raise ZeroDivisionError.
Proof.
  exact (f_equal value
           (proj2 (proj2 (channel_shuffle_fails_before_adding_layers
                            [None; Some 28; Some 28; Some 48] 0))
                  None (Some 28) (Some 28) 48 eq_refl eq_refl)).
Defined.

(** X11.  [channel_shuffle] does not check that the group count divides the
    channels.  With an unknown batch size the graph is built for every
    group count between 1 and the channel count, with its three [Lambda]
    layers and the shape of the input; with a known batch size [b] the first
    reshape raises ValueError when [n_groups * (n // n_groups)] does not
    divide [b * n]. *)
Theorem channel_shuffle_builds_without_divisibility (h w n n_groups : Z) :
  0 < h -> 0 < w -> 1 <= n_groups <= n ->
  ShuffleNet.channel_shuffle [None; Some h; Some w; Some n] n_groups
  = mkBuild
      [ Enter (call_channel_shuffle [None; Some h; Some w; Some n] n_groups);
        Node (Lambda (K_reshape [None; Some h; Some w; Some n_groups;
                                 Some (n / n_groups)]))
             [None; Some h; Some w; Some n_groups; Some (n / n_groups)];
        Node (Lambda (K_permute_dimensions [0; 1; 2; 4; 3]%nat))
             [None; Some h; Some w; Some (n / n_groups); Some n_groups];
        Node (Lambda (K_reshape [None; Some h; Some w; Some n]))
             [None; Some h; Some w; Some n] ]
      (Ok [None; Some h; Some w; Some n])
  /\ forall b,
       0 < b -> ~ (n_groups * (n / n_groups) | b * n) ->
       value (ShuffleNet.channel_shuffle [Some b; Some h; Some w; Some n]
                                         n_groups)
       = Raise ValueError.
Proof.
  intros Hh Hw Hg. split.
  - apply channel_shuffle_unknown_batch; assumption.
  - intros b Hb Hd. apply channel_shuffle_known_batch_refuses; assumption.
Qed.

Lemma channel_shuffle_builds_without_divisibility_witness :
  (0 < 28 /\ 0 < 28 /\ 1 <= 2 <= 5)
  /\ value (ShuffleNet.channel_shuffle [None; Some 28; Some 28; Some 5] 2)
     = Ok [None; Some 28; Some 28; Some 5]
  /\ value (ShuffleNet.channel_shuffle [Some 1; Some 28; Some 28; Some 5] 2)
     = Raise ValueError.
Proof.
  split; [lia|].
  pose proof (channel_shuffle_builds_without_divisibility 28 28 5 2
                ltac:(lia) ltac:(lia) ltac:(lia)) as (Hrun & Hbad).
  split.
  - exact (f_equal value Hrun).
  - apply (Hbad 1 ltac:(lia)).
    intros [z Hz]. change (2 * (5 / 2)) with 4 in Hz. lia.
Defined.



(** X13.  [shuffle_group] builds its strided block before it looks at the
    number of blocks: with [n_blocks] of one, zero or less it is the
    strided shuffle block alone, never an empty group. *)
Theorem shuffle_group_always_builds_the_strided_block
        (x : shape) (n_groups n_blocks n_filters : Z) (reduction : Q) :
  n_blocks <= 1 ->
  ShuffleNet.shuffle_group x n_groups n_blocks n_filters reduction
  = prefix [Enter (call_shuffle_group x n_groups n_blocks n_filters
                                      reduction)]
           (ShuffleNet.strided_shuffle_block x n_groups n_filters reduction)
  /\ blocks_of (trace (ShuffleNet.shuffle_group x n_groups n_blocks
                                                n_filters reduction))
     = [shape_changing].
Proof.
  intros H.
  rewrite (shuffle_group_single_block x n_groups n_blocks n_filters
             reduction H).
  split; [reflexivity|].
  rewrite trace_prefix, blocks_of_app.
  rewrite blocks_of_strided_shuffle_block. reflexivity.
Qed.

Lemma shuffle_group_always_builds_the_strided_block_witness :
  0 <= 1
  /\ blocks_of (trace (ShuffleNet.shuffle_group
                         [None; Some 56; Some 56; Some 24] 2 0 200 (1 # 4)))
     = [shape_changing].
Proof.
  split; [lia|].
  exact (proj2 (shuffle_group_always_builds_the_strided_block
                  [None; Some 56; Some 56; Some 24] 2 0 200 (1 # 4)
                  ltac:(lia))).
Defined.



(** X15.  The script builds ShuffleNet for the global [n_groups = 2]; with
    the global set to 2, 3, 4 or 8, the other rows of the table [filters],
    it builds a network that returns [(batch, 1000)] as well. *)
Theorem shufflenet_builds_for_the_rows_of_the_table (batch : dim) (g : Z) :
  In g [2; 3; 4; 8] ->
  value (shufflenet_with_groups g batch) = Ok [batch; Some 1000]
  /\ ShuffleNet.model batch
     = shufflenet_with_groups ShuffleNet.n_groups batch.
Proof.
  intros Hg. split; [apply variants_build; exact Hg | reflexivity].
Qed.

Lemma shufflenet_builds_for_the_rows_of_the_table_witness :
  In 8 [2; 3; 4; 8]
  /\ value (shufflenet_with_groups 8 None) = Ok [None; Some 1000].
Proof.
  assert (H : In 8 [2; 3; 4; 8]) by (cbn [In]; tauto).
  split; [exact H|].
  exact (proj1 (shufflenet_builds_for_the_rows_of_the_table None 8 H)).
Defined.

(** X16.  With the global [n_groups] set to a number that is no key of the
    table [filters], the script raises KeyError when it reads the table for
    the first group, after the stem has been built. *)
Theorem shufflenet_raises_key_error_off_the_table (batch : dim) (g : Z) :
  ~ In g [1; 2; 3; 4; 8] ->
  value (shufflenet_with_groups g batch) = Raise KeyError
  /\ List.firstn 5 (trace (shufflenet_with_groups g batch))
     = trace (ShuffleNet.stem (Input batch [224; 224; 3])).
Proof.
  intros H. split; [apply unknown_variant; exact H|].
  unfold shufflenet_with_groups.
  rewrite (trace_bind_ok _ _ _ (shufflenet_stem_value batch)).
  change 5%nat
    with (length (trace (ShuffleNet.stem (Input batch [224; 224; 3]%Z)))
          + 0)%nat.
  rewrite firstn_app_2, firstn_O. apply app_nil_r.
Qed.

Lemma shufflenet_raises_key_error_off_the_table_witness :
  ~ In 5 [1; 2; 3; 4; 8]
  /\ value (shufflenet_with_groups 5 None) = Raise KeyError.
Proof.
  assert (H : ~ In 5 [1; 2; 3; 4; 8]) by (cbn [In]; lia).
  split; [exact H|].
  exact (proj1 (shufflenet_raises_key_error_off_the_table None 5 H)).
Defined.

Section EagerExtras.

Import Eager.
Open Scope nat_scope.

(** X17.  On concrete tensors, shuffling the channels in [G] groups and
    then in [n / G] groups gives back the tensor, for every group count [G]
    that divides the channel count [n]. *)
Theorem channel_shuffle_is_undone_by_the_cogroup_shuffle
        (A : Type) (zero : A) (x : tensor A) (b h w G gi : nat) :
  tshape x = [b; h; w; G * gi] -> well_formed x ->
  0 < h -> 0 < w -> 0 < G -> 0 < gi ->
  bindR (channel_shuffle zero x (Z.of_nat G))
        (fun y => channel_shuffle zero y (Z.of_nat gi)) = Ok x.
Proof.
  intros Hx Hwf Hh Hw HG Hgi.
  destruct x as [s data]. cbn [tshape tdata] in *. subst s.
  unfold well_formed, size in Hwf. cbn [tshape tdata fold_right] in Hwf.
  assert (Hlen : length data = b * h * w * (G * gi)) by lia.
  set (y := mkTensor [b; h; w; G * gi] (shuffled A zero b h w G gi data)).
  assert (R1 : channel_shuffle zero (mkTensor [b; h; w; G * gi] data)
                               (Z.of_nat G) = Ok y).
  { exact (channel_shuffle_run A zero (mkTensor [b; h; w; G * gi] data)
             b h w G gi eq_refl Hh Hw HG Hgi). }
  rewrite R1. cbn [bindR].
  assert (Hy : tshape y = [b; h; w; gi * G])
    by (unfold y; cbn [tshape]; rewrite (Nat.mul_comm gi G); reflexivity).
  rewrite (channel_shuffle_run A zero y b h w gi G Hy Hh Hw Hgi HG).
  unfold y. cbn [tdata]. rewrite (Nat.mul_comm gi G).
  rewrite (shuffled_inverse A zero b h w G gi HG Hgi data Hlen).
  reflexivity.
Qed.

Lemma channel_shuffle_is_undone_by_the_cogroup_shuffle_witness :
  well_formed (mkTensor [1; 1; 1; 3 * 2] [10; 11; 12; 13; 14; 15]%Z)
  /\ channel_shuffle 0%Z (mkTensor [1; 1; 1; 6] [10; 11; 12; 13; 14; 15]%Z) 3
     = Ok (mkTensor [1; 1; 1; 6] [10; 12; 14; 11; 13; 15]%Z)
  /\ bindR (channel_shuffle 0%Z
              (mkTensor [1; 1; 1; 3 * 2] [10; 11; 12; 13; 14; 15]%Z)
              (Z.of_nat 3))
           (fun y => channel_shuffle 0%Z y (Z.of_nat 2))
     = Ok (mkTensor [1; 1; 1; 3 * 2] [10; 11; 12; 13; 14; 15]%Z).
Proof.
  split; [reflexivity|]. split; [vm_compute; reflexivity|].
  exact (channel_shuffle_is_undone_by_the_cogroup_shuffle Z 0%Z
           (mkTensor [1; 1; 1; 3 * 2] [10; 11; 12; 13; 14; 15]%Z)
           1 1 1 3 2 eq_refl eq_refl
           (Nat.lt_0_succ 0) (Nat.lt_0_succ 0) (Nat.lt_0_succ 2)
           (Nat.lt_0_succ 1)).
Defined.

(** X18.  On a concrete tensor of shape [(b, h, w, n)], [channel_shuffle]
    with [G] groups returns exactly when [G <= n] and [G * (n // G)] divides
    [b * n]: the first reshape is the only check.  On a single image this
    is when [G] divides [n]; on a larger batch it can return although [G]
    does not divide [n].  What it returns has the shape of its input. *)
Theorem channel_shuffle_returns_iff
        (A : Type) (zero : A) (x : tensor A) (b h w n G : nat) :
  tshape x = [b; h; w; n] -> 0 < h -> 0 < w -> 0 < n -> 0 < G ->
  (is_ok (channel_shuffle zero x (Z.of_nat G)) = true
   <-> G <= n /\ Nat.divide (G * (n / G)) (b * n))
  /\ (b = 1 ->
      (is_ok (channel_shuffle zero x (Z.of_nat G)) = true
       <-> Nat.divide G n))
  /\ (is_ok (channel_shuffle zero x (Z.of_nat G)) = true ->
      exists y, channel_shuffle zero x (Z.of_nat G) = Ok y
                /\ tshape y = tshape x).
Proof.
  intros Hx Hh Hw Hn HG.
  assert (Hdec : (G <= n /\ Nat.divide (G * (n / G)) (b * n))
                 \/ (n < G \/ ~ Nat.divide (G * (n / G)) (b * n))).
  { destruct (le_lt_dec G n) as [Hle|Hlt]; [|right; left; exact Hlt].
    destruct (Nat.eq_dec ((b * n) mod (G * (n / G))) 0) as [E|E].
    - left. split; [exact Hle|]. apply Nat.Lcm0.mod_divide. exact E.
    - right. right. intros Hd. apply E. apply Nat.Lcm0.mod_divide.
      exact Hd. }
  assert (Hiff : is_ok (channel_shuffle zero x (Z.of_nat G)) = true
                 <-> G <= n /\ Nat.divide (G * (n / G)) (b * n)).
  { destruct Hdec as [[Hle [z Hz]]|Hbad].
    - rewrite (channel_shuffle_general A zero x b h w n G z Hx Hh Hw HG
                 Hle Hz).
      split; [intros _; split; [exact Hle | exists z; exact Hz]
             | reflexivity].
    - rewrite (channel_shuffle_raises A zero x b h w n G Hx Hh Hw HG Hbad).
      split; [discriminate|]. intros [Hle Hd].
      destruct Hbad as [Hlt|Hnd]; [lia | contradiction]. }
  split; [exact Hiff|]. split.
  - intros ->. rewrite Hiff. split.
    + intros [Hle Hd]. apply (rounded_divides_iff n G HG Hle). exact Hd.
    + intros Hd. assert (Hle : G <= n).
      { destruct Hd as [k Hk]. destruct k; [lia | nia]. }
      split; [exact Hle|]. apply (rounded_divides_iff n G HG Hle). exact Hd.
  - destruct Hdec as [[Hle [z Hz]]|Hbad].
    + rewrite (channel_shuffle_general A zero x b h w n G z Hx Hh Hw HG
                 Hle Hz).
      intros _. eexists. split; [reflexivity|].
      cbn [tshape]. symmetry. exact Hx.
    + rewrite (channel_shuffle_raises A zero x b h w n G Hx Hh Hw HG Hbad).
      discriminate.
Qed.

Lemma channel_shuffle_returns_iff_witness :
  ~ Nat.divide 2 5
  /\ is_ok (channel_shuffle 0%Z (mkTensor [1; 1; 1; 5] [0; 1; 2; 3; 4]%Z) 2)
     = false
  /\ is_ok (channel_shuffle 0%Z
              (mkTensor [4; 1; 1; 5]
                 [0; 1; 2; 3; 4; 5; 6; 7; 8; 9; 10; 11; 12; 13; 14; 15; 16;
                  17; 18; 19]%Z) 2) = true.
Proof.
  assert (Hnd : ~ Nat.divide 2 5) by (intros [z Hz]; lia).
  split; [exact Hnd|]. split.
  - destruct (is_ok (channel_shuffle 0%Z
                       (mkTensor [1; 1; 1; 5] [0; 1; 2; 3; 4]%Z) 2))
      eqn:E; [|reflexivity].
    exfalso. apply Hnd.
    exact (proj1 (proj1 (proj2 (channel_shuffle_returns_iff Z 0%Z
                                  (mkTensor [1; 1; 1; 5] [0; 1; 2; 3; 4]%Z)
                                  1 1 1 5 2 eq_refl
                                  (Nat.lt_0_succ 0) (Nat.lt_0_succ 0)
                                  (Nat.lt_0_succ 4) (Nat.lt_0_succ 1)))
                        eq_refl) E).
  - apply (proj1 (channel_shuffle_returns_iff Z 0%Z
                    (mkTensor [4; 1; 1; 5]
                       [0; 1; 2; 3; 4; 5; 6; 7; 8; 9; 10; 11; 12; 13; 14;
                        15; 16; 17; 18; 19]%Z)
                    4 1 1 5 2 eq_refl
                    (Nat.lt_0_succ 0) (Nat.lt_0_succ 0)
                    (Nat.lt_0_succ 4) (Nat.lt_0_succ 1))).
    split; [repeat constructor|]. exists 5. reflexivity.
Defined.

(** X19.  The shuffle mixes the groups: when each group has at least as
    many channels as there are groups, the channels that the next grouped
    convolution gives to any of its groups [m] include, after the shuffle,
    a channel of every group [g] of the input. *)
Theorem channel_shuffle_feeds_every_group_from_every_group
        (A : Type) (zero : A) (b h w G gi m g : nat) :
  0 < h -> 0 < w -> 0 < G -> G <= gi -> m < G -> g < G ->
  exists k j,
    m * gi <= k < (m + 1) * gi /\ j < gi
    /\ forall (x : tensor A), tshape x = [b; h; w; G * gi] ->
         exists y,
           channel_shuffle zero x (Z.of_nat G) = Ok y
           /\ forall p, p < b * h * w ->
                List.nth (p * (G * gi) + k) (tdata y) zero
                = List.nth (p * (G * gi) + (g * gi + j)) (tdata x) zero.
Proof.
  intros Hh Hw HG Hgi Hm Hg.
  destruct (residue_in_window G (m * gi) g Hg) as (k & Hk & Hr).
  pose proof (Nat.div_mod_eq k G) as E.
  assert (Hj : k / G < gi).
  { apply Nat.Div0.div_lt_upper_bound. nia. }
  exists k, (k / G). split; [nia|]. split; [exact Hj|].
  intros x Hx.
  exists (mkTensor [b; h; w; G * gi] (shuffled A zero b h w G gi (tdata x))).
  split; [apply (channel_shuffle_run A zero x b h w G gi); try assumption; lia|].
  intros p Hp. cbn [tdata].
  replace (p * (G * gi) + k) with (p * (G * gi) + (k / G) * G + g) by lia.
  rewrite (shuffled_nth A zero b h w G gi p g (k / G) _ Hp Hg Hj).
  f_equal. lia.
Qed.

Lemma channel_shuffle_feeds_every_group_from_every_group_witness :
  (0 < 1 /\ 0 < 1 /\ 0 < 2 /\ 2 <= 3 /\ 0 < 2 /\ 1 < 2)
  /\ exists k j,
       0 * 3 <= k < (0 + 1) * 3 /\ j < 3
       /\ forall (x : tensor Z), tshape x = [1; 1; 1; 2 * 3] ->
            exists y,
              channel_shuffle 0%Z x (Z.of_nat 2) = Ok y
              /\ forall p, p < 1 * 1 * 1 ->
                   List.nth (p * (2 * 3) + k) (tdata y) 0%Z
                   = List.nth (p * (2 * 3) + (1 * 3 + j)) (tdata x) 0%Z.
Proof.
  split; [lia|].
  exact (channel_shuffle_feeds_every_group_from_every_group Z 0%Z
           1 1 1 2 3 0 1
           (Nat.lt_0_succ 0) (Nat.lt_0_succ 0) (Nat.lt_0_succ 1)
           (le_S 2 2 (le_n 2)) (Nat.lt_0_succ 1) (le_n 2)).
Defined.

End EagerExtras.
